(** * Spectral fingerprinting pipeline: binning transform, extractors,
      ingestion and query drivers.

    Shallow embedding of [tools/ingest_msp.py], [tools/ingest_sqlite.py] and
    [tools/search_csv.py].  Python floats are IEEE-754 binary64 numbers and
    are embedded as Rocq's primitive floats; the transform is written once
    over an interface of arithmetic operations so that it can also be read
    over the real numbers, where the normalisation is exact. *)

From Stdlib Require Import ZArith Floats Reals Lra String Ascii.
From stdpp Require Import gmap strings list sorting.

Set Warnings "-inexact-float,-clear-no-such-hyp".
Set Default Proof Using "Type*".

(** ** Exceptions and results *)

(** The exceptions the three tools can raise. *)
Inductive exn : Type :=
| ZeroDivisionError
| OverflowError
| ValueError (msg : string)
| KeyError
| RuntimeError (status : Z)
| HTTPError (status : Z).

Inductive result (A : Type) : Type :=
| Ok (a : A)
| Raise (e : exn).
Arguments Ok {A} a.
Arguments Raise {A} e.

#[export] Instance result_bind : MBind result := λ A B k r,
  match r with
  | Ok a => k a
  | Raise e => Raise e
  end.

#[export] Instance result_ret : MRet result := λ A a, Ok a.

(** [[f(x) for x in l]] where [f] may raise: stops at the first exception. *)
Fixpoint rmap {A B} (f : A → result B) (l : list A) : result (list B) :=
  match l with
  | [] => Ok []
  | x :: l' => y ← f x ; ys ← rmap f l' ; Ok (y :: ys)
  end.

Definition is_ok {A} (r : result A) : bool :=
  match r with Ok _ => true | Raise _ => false end.

(** ** Numbers *)

(** The arithmetic the transform uses, with IEEE operations total and the
    conversion to an integer partial. *)
Class Number (F : Type) := {
  fzero : F;
  fadd : F → F → F;
  fmul : F → F → F;
  fdiv : F → F → F;
  fsqrt : F → F;
  feqb : F → F → bool;
  fltb : F → F → bool;
  fleb : F → F → bool;
  (** [int(math.floor(x))]: OverflowError on an infinity, ValueError on NaN *)
  ffloor : F → result Z
}.

(** [x / y] on Python floats raises on a zero divisor (of either sign). *)
Definition py_truediv `{Number F} (x y : F) : result F :=
  if feqb y fzero then Raise ZeroDivisionError else Ok (fdiv x y).

(** [math.sqrt(x)] raises on a negative argument. *)
Definition math_sqrt `{Number F} (x : F) : result F :=
  if fltb x fzero then Raise (ValueError "math domain error") else Ok (fsqrt x).

(** [sum(l)]: left to right, starting from [0].  (CPython from 3.12 on
    compensates the rounding errors of a sum of floats; for up to two
    addends, and in exact arithmetic, the result is the same.) *)
Definition py_sum `{Number F} (l : list F) : F := fold_left fadd l fzero.

(** *** binary64 *)

Definition float_floor (x : float) : result Z :=
  match Prim2SF x with
  | S754_zero _ => Ok 0%Z
  | S754_finite s m e =>
      let sm := if s then Z.neg m else Z.pos m in
      Ok (if (0 <=? e)%Z then (sm * 2 ^ e)%Z else (sm / 2 ^ (- e))%Z)
  | S754_infinity _ => Raise OverflowError
  | S754_nan => Raise (ValueError "cannot convert float NaN to integer")
  end.

#[export] Instance binary64 : Number float := {|
  fzero := 0%float;
  fadd := PrimFloat.add;
  fmul := PrimFloat.mul;
  fdiv := PrimFloat.div;
  fsqrt := PrimFloat.sqrt;
  feqb := PrimFloat.eqb;
  fltb := PrimFloat.ltb;
  fleb := PrimFloat.leb;
  ffloor := float_floor
|}.

(** *** Exact arithmetic *)

Definition Reqb (x y : R) : bool := if Req_dec_T x y then true else false.
Definition Rltb (x y : R) : bool := if Rlt_dec x y then true else false.
Definition Rleb (x y : R) : bool := if Rle_dec x y then true else false.

#[export] Instance exact : Number R := {|
  fzero := 0%R;
  fadd := Rplus;
  fmul := Rmult;
  fdiv := Rdiv;
  fsqrt := R_sqrt.sqrt;
  feqb := Reqb;
  fltb := Rltb;
  fleb := Rleb;
  ffloor := λ x, Ok (Int_part x)
|}.

(** ** The fingerprint transform *)

Section transform.
Context `{Number F}.

(** [int(math.floor(mz / bin_size))] *)
Definition bin_index (bin_size mz : F) : result Z :=
  q ← py_truediv mz bin_size;
  ffloor q.

(** [accumulator[idx] = accumulator.get(idx, 0.0) + float(inten)] *)
Definition add_to (accumulator : gmap Z F) (c : Z * F) : gmap Z F :=
  <[c.1 := fadd (default fzero (accumulator !! c.1)) c.2]> accumulator.

(** The loop over the peaks, with the dictionary [accumulator] threaded
    through.  [skip mz inten] is the test that precedes [continue]. *)
Fixpoint bin_loop (skip : F → F → bool) (peaks : list (F * F)) (bin_size : F)
    (accumulator : gmap Z F) : result (gmap Z F) :=
  match peaks with
  | [] => Ok accumulator
  | (mz, inten) :: rest =>
      if skip mz inten then bin_loop skip rest bin_size accumulator
      else
        idx ← bin_index bin_size mz;
        bin_loop skip rest bin_size (add_to accumulator (idx, inten))
  end.

(** [sorted(accumulator.keys())] *)
Definition sorted_keys (accumulator : gmap Z F) : list Z :=
  merge_sort Z.le (elements (dom accumulator)).

(** [accumulator[i]] *)
Definition getitem (accumulator : gmap Z F) (i : Z) : result F :=
  match accumulator !! i with
  | Some v => Ok v
  | None => Raise KeyError
  end.

(** Everything after the loop: the empty case, the sorted bins, the L2
    normalisation guarded by [norm_sq > 0]. *)
Definition bin_finish (accumulator : gmap Z F) : result (list Z * list F) :=
  if Nat.eqb (size accumulator) 0 then Ok ([], [])
  else
    let indices := sorted_keys accumulator in
    values ← rmap (getitem accumulator) indices;
    let norm_sq := py_sum ((λ v, fmul v v) <$> values) in
    if fltb fzero norm_sq then
      norm ← math_sqrt norm_sq;
      values' ← rmap (λ v, py_truediv v norm) values;
      Ok (indices, values')
    else Ok (indices, values).

(** [ingest_msp.bin_peaks] *)
Definition bin_peaks (peaks : list (F * F)) (bin_size : F) : result (list Z * list F) :=
  accumulator ← bin_loop (λ mz inten, fleb inten fzero || fltb mz fzero) peaks bin_size ∅;
  bin_finish accumulator.

End transform.

(** [ingest_sqlite.bin_spectrum]: the lengths are compared first, and a peak
    is skipped when its intensity equals zero or its mass is negative. *)
Module IngestSqlite.
Section transform.
Context `{Number F}.

Definition bin_spectrum (mz inten : list F) (bin_size : F) : result (list Z * list F) :=
  if negb (Nat.eqb (length mz) (length inten))
  then Raise (ValueError "mz_list and intensity_list lengths differ")
  else
    accumulator ← bin_loop (λ m i, feqb i fzero || fltb m fzero) (zip mz inten) bin_size ∅;
    bin_finish accumulator.

End transform.
End IngestSqlite.

(** [search_csv.bin_spectrum] *)
Module SearchCsv.
Section transform.
Context `{Number F}.

Definition bin_spectrum (mz inten : list F) (bin_size : F) : result (list Z * list F) :=
  if negb (Nat.eqb (length mz) (length inten))
  then Raise (ValueError "mz and intensity lengths differ")
  else
    acc ← bin_loop (λ m i, fleb i fzero || fltb m fzero) (zip mz inten) bin_size ∅;
    bin_finish acc.

End transform.
End SearchCsv.

(** ** Strings

    Lines are strings of ASCII characters; on those the functions below are
    [str.strip], [str.lower], [str.split] and [str.split(":", 1)]. *)

(** [c.isspace()] for an ASCII character: tab to carriage return, the four
    separators 28 to 31, and the space. *)
Definition isspace (c : ascii) : bool :=
  let n := nat_of_ascii c in
  ((9 <=? n) && (n <=? 13)) || ((28 <=? n) && (n <=? 32)).

Fixpoint lstrip (s : string) : string :=
  match s with
  | EmptyString => EmptyString
  | String c s' => if isspace c then lstrip s' else s
  end.

Fixpoint rstrip (s : string) : string :=
  match s with
  | EmptyString => EmptyString
  | String c s' =>
      match rstrip s' with
      | EmptyString => if isspace c then EmptyString else String c EmptyString
      | r => String c r
      end
  end.

Definition strip (s : string) : string := rstrip (lstrip s).

Definition lower_ascii (c : ascii) : ascii :=
  let n := nat_of_ascii c in
  if (65 <=? n) && (n <=? 90) then ascii_of_nat (n + 32) else c.

Fixpoint lower (s : string) : string :=
  match s with
  | EmptyString => EmptyString
  | String c s' => String (lower_ascii c) (lower s')
  end.

(** [s.split(":", 1)] when [":" in s]: the text before and after the first
    colon; [None] when there is no colon. *)
Fixpoint split_colon (s : string) : option (string * string) :=
  match s with
  | EmptyString => None
  | String c s' =>
      if Ascii.eqb c ":" then Some (EmptyString, s')
      else match split_colon s' with
           | Some (k, v) => Some (String c k, v)
           | None => None
           end
  end.

(** [s.split()]: the maximal runs of non-space characters. *)
Fixpoint split_go (cur : option string) (s : string) : list string :=
  match s with
  | EmptyString => match cur with Some w => [w] | None => [] end
  | String c s' =>
      if isspace c then
        match cur with
        | Some w => w :: split_go None s'
        | None => split_go None s'
        end
      else split_go (Some (default EmptyString cur +:+ String c EmptyString)) s'
  end.

Definition split (s : string) : list string := split_go None s.

(** [s.rstrip("/")] *)
Fixpoint rstrip_slash (s : string) : string :=
  match s with
  | EmptyString => EmptyString
  | String c s' =>
      match rstrip_slash s' with
      | EmptyString => if Ascii.eqb c "/" then EmptyString else String c EmptyString
      | r => String c r
      end
  end.

(** ** The text spectral-library extractor ([ingest_msp.parse_msp]) *)

Record spectrum (F : Type) := Spectrum {
  spec_metadata : gmap string string;
  spec_peaks : list (F * F)
}.
Arguments Spectrum {F} _ _.
Arguments spec_metadata {F} _.
Arguments spec_peaks {F} _.

(** The three variables the generator closes over. *)
Record buffer (F : Type) := Buffer {
  meta : gmap string string;
  peaks : list (F * F);
  in_peaks : bool
}.
Arguments Buffer {F} _ _ _.
Arguments meta {F} _.
Arguments peaks {F} _.
Arguments in_peaks {F} _.

Section parse_msp.
Context {F : Type}.
(** [float(s)] on a token, [None] when it raises ValueError. *)
Variable float_of_token : string → option F.

Definition empty_buffer : buffer F := Buffer ∅ [] false.

(** Truth value of a list and of a dictionary. *)
Definition truthy_list {A} (l : list A) : bool := negb (Nat.eqb (length l) 0).
Definition truthy_dict (m : gmap string string) : bool := negb (Nat.eqb (size m) 0).

(** The inner generator: a record is produced only [if peaks]. *)
Definition yield_current (b : buffer F) : list (spectrum F) :=
  if truthy_list (peaks b) then [Spectrum (meta b) (peaks b)] else [].

(** One iteration of [for raw in f]: the new buffer and the records yielded. *)
Definition parse_line (b : buffer F) (raw : string) : buffer F * list (spectrum F) :=
  let line := strip raw in
  if String.eqb line EmptyString then
    if truthy_list (peaks b) || truthy_dict (meta b)
    then (empty_buffer, yield_current b)
    else (b, [])
  else if negb (in_peaks b) then
    match split_colon line with
    | Some (key, value) =>
        let key := strip key in
        let value := strip value in
        if String.eqb (lower key) "num peaks"
        then (Buffer (meta b) (peaks b) true, [])
        else (Buffer (<[key := value]> (meta b)) (peaks b) (in_peaks b), [])
    | None => (b, [])
    end
  else
    match split line with
    | p0 :: p1 :: _ =>
        match float_of_token p0, float_of_token p1 with
        | Some mz, Some inten => (Buffer (meta b) (peaks b ++ [(mz, inten)]) (in_peaks b), [])
        | _, _ => (b, [])
        end
    | _ => (b, [])
    end.

(** The loop and the flush that follows it. *)
Fixpoint parse_lines (b : buffer F) (lines : list string) : list (spectrum F) :=
  match lines with
  | [] => if truthy_list (peaks b) || truthy_dict (meta b) then yield_current b else []
  | raw :: rest =>
      let '(b', out) := parse_line b raw in
      out ++ parse_lines b' rest
  end.

Definition parse_msp (lines : list string) : list (spectrum F) :=
  parse_lines empty_buffer lines.

End parse_msp.

(** ** The outside world

    The tools talk to the HTTP service, draw UUIDs and print.  A [world]
    records what has been done so far; a computation maps a world to the
    next world and either a value or the exception that ended it. *)

Section world.
Context {I F : Type}.

Record point := Point {
  id : I;
  sparse : list Z * list F;
  metadata : gmap string string
}.

Inductive request : Type :=
| PostUpsert (url : string) (points : list point)
| PostSearch (url : string) (query : list Z * list F) (limit : Z) (with_payload : bool).

Record hit := Hit {
  hit_id : string;
  hit_score : F;
  hit_payload : option (gmap string string)
}.

Record response := Response {
  status_code : Z;
  hits : list hit
}.

Inductive output : Type :=
| ParseErrorNote (rid : I)
| EmptySpectrumNote (rid : I)
| IngestedLine (total : nat)
| NothingToSearch
| HitLine (i : nat) (pid : string) (score : F) (name : option string).

Record world := World {
  requests : list request;
  drawn : nat;
  stdout : list output
}.

Definition io (A : Type) : Type := world → world * result A.

Definition io_ret {A} (a : A) : io A := λ w, (w, Ok a).

Definition io_bind {A B} (k : A → io B) (m : io A) : io B := λ w,
  match m w with
  | (w', Ok a) => k a w'
  | (w', Raise e) => (w', Raise e)
  end.

(** A pure computation that may raise. *)
Definition lift {A} (r : result A) : io A := λ w, (w, r).

Definition raise {A} (e : exn) : io A := λ w, (w, Raise e).

Definition print (o : output) : io () := λ w,
  (World (requests w) (drawn w) (stdout w ++ [o]), Ok ()).

(** [requests.post]: the request is recorded and the service's answer to
    its n-th request is returned. *)
Definition post (server : nat → response) (r : request) : io response := λ w,
  (World (requests w ++ [r]) (drawn w) (stdout w), Ok (server (length (requests w)))).

(** [str(uuid.uuid4())]: the next identifier of the generator. *)
Definition new_uuid (uuid4 : nat → I) : io I := λ w,
  (World (requests w) (S (drawn w)) (stdout w), Ok (uuid4 (drawn w))).

Definition initial_world : world := World [] 0 [].

End world.

Arguments point : clear implicits.
Arguments request : clear implicits.
Arguments hit : clear implicits.
Arguments response : clear implicits.
Arguments output : clear implicits.
Arguments world : clear implicits.
Arguments io : clear implicits.

#[export] Instance io_mbind {I F} : MBind (io I F) := @io_bind I F.
#[export] Instance io_mret {I F} : MRet (io I F) := @io_ret I F.

(** ** MSP ingestion ([ingest_msp.py]) *)

Module IngestMsp.
Section main.
Context `{Number F}.
Variable float_of_token : string → option F.
Variable server : nat → response F.
Variable uuid4 : nat → string.

(** The parsed command line. *)
Variable api_url : string.
Variable bin_size : F.
Variable batch_size : Z.
Variable id_key : option string.

Definition upsert_batch (api_url : string) (batch : list (point string F)) : io string F () :=
  let url := rstrip_slash api_url +:+ "/upsert" in
  resp ← post server (PostUpsert url batch);
  if (300 <=? status_code resp)%Z
  then raise (RuntimeError (status_code resp))
  else mret ().

(** [meta.setdefault(key, value)] *)
Definition setdefault (m : gmap string string) (key value : string) : gmap string string :=
  match m !! key with
  | Some _ => m
  | None => <[key := value]> m
  end.

(** The payload of a point: [meta], with [original_id] added when
    [id_key] is a non-empty string, [meta] has it and [original_id] is not
    yet there. *)
Definition payload (m : gmap string string) : gmap string string :=
  match id_key with
  | Some k =>
      if negb (String.eqb k EmptyString) then
        match m !! k with
        | Some orig => setdefault m "original_id" orig
        | None => m
        end
      else m
  | None => m
  end.

(** The body of [for spec in parse_msp(...)], with the local variables
    [batch] and [total] threaded through. *)
Fixpoint ingest (specs : list (spectrum F)) (batch : list (point string F)) (total : nat)
    : io string F (list (point string F) * nat) :=
  match specs with
  | [] => mret (batch, total)
  | spec :: rest =>
      '(indices, values) ← lift (bin_peaks (spec_peaks spec) bin_size);
      if negb (truthy_list indices) then ingest rest batch total
      else
        let m := spec_metadata spec in
        point_id ← new_uuid uuid4;
        let p := Point point_id (indices, values) (payload m) in
        let batch := batch ++ [p] in
        if (batch_size <=? Z.of_nat (length batch))%Z then
          _ ← upsert_batch api_url batch;
          ingest rest [] (total + length batch)
        else ingest rest batch total
  end.

Definition main (lines : list string) : io string F Z :=
  '(batch, total) ← ingest (parse_msp float_of_token lines) [] 0;
  total ← (if truthy_list batch
           then _ ← upsert_batch api_url batch; mret (total + length batch)
           else mret total);
  _ ← print (IngestedLine total);
  mret 0%Z.

End main.
End IngestMsp.

(** ** Tabular ingestion ([ingest_sqlite.py]) *)

Module IngestSqliteMain.
Section main.
Context `{Number F}.
(** Row identifiers are whatever the id column holds. *)
Context {I : Type}.
(** [list(map(float, json.loads(value)))] on a text value, [None] when it
    raises. *)
Variable json_floats : string → option (list F).
Variable server : nat → response F.

Variable api_url : string.
Variable bin_size : F.
Variable batch_size : Z.
Variable limit : Z.

(** A row of the query: the id and the two array columns, each NULL or text. *)
Definition row : Type := I * option string * option string.

Definition upsert_batch (api_url : string) (batch : list (point I F)) : io I F () :=
  let url := rstrip_slash api_url +:+ "/upsert" in
  resp ← post server (PostUpsert url batch);
  if (300 <=? status_code resp)%Z
  then raise (RuntimeError (status_code resp))
  else mret ().

(** [SELECT ... LIMIT limit] when [limit > 0], every row otherwise. *)
Definition iter_rows (table : list row) : list row :=
  if (0 <? limit)%Z then take (Z.to_nat limit) table else table.

(** The message of the exception, which quotes the cause and the start of
    the value, is shortened to its fixed part. *)
Definition parse_json_array (value : option string) : result (list F) :=
  match value with
  | None => Ok []
  | Some s =>
      match json_floats s with
      | Some arr => Ok arr
      | None => Raise (ValueError "Failed to parse JSON array")
      end
  end.

(** The body of [for rid, mz_json, inten_json in rows].  Only the two
    calls of [parse_json_array] are inside the [try]. *)
Fixpoint ingest (rows : list row) (batch : list (point I F)) (total : nat)
    : io I F (list (point I F) * nat) :=
  match rows with
  | [] => mret (batch, total)
  | (rid, mz_json, inten_json) :: rest =>
      match (mz ← parse_json_array mz_json;
             intensities ← parse_json_array inten_json;
             Ok (mz, intensities)) with
      | Raise _ =>
          _ ← print (ParseErrorNote rid);
          ingest rest batch total
      | Ok (mz, intensities) =>
          '(indices, values) ← lift (IngestSqlite.bin_spectrum mz intensities bin_size);
          if negb (truthy_list indices) then
            _ ← print (EmptySpectrumNote rid);
            ingest rest batch total
          else
            let p := Point rid (indices, values) ∅ in
            let batch := batch ++ [p] in
            if (batch_size <=? Z.of_nat (length batch))%Z then
              _ ← upsert_batch api_url batch;
              ingest rest [] (total + length batch)
            else ingest rest batch total
      end
  end.

Definition main (table : list row) : io I F Z :=
  let rows := iter_rows table in
  '(batch, total) ← ingest rows [] 0;
  total ← (if truthy_list batch
           then _ ← upsert_batch api_url batch; mret (total + length batch)
           else mret total);
  _ ← print (IngestedLine total);
  mret 0%Z.

End main.
End IngestSqliteMain.

(** ** Query ([search_csv.py]) *)

Module SearchCsvMain.
Section main.
Context `{Number F}.
Variable float_of_token : string → option F.
Variable server : nat → response F.

Variable api_url : string.
Variable bin_size : F.
Variable limit : Z.

(** [read_csv_pairs] over the rows [csv.reader] produces. *)
Fixpoint read_csv_pairs (rows : list (list string)) : list F * list F :=
  match rows with
  | [] => ([], [])
  | r :: rest =>
      let '(mz, inten) := read_csv_pairs rest in
      match r with
      | r0 :: r1 :: _ =>
          match float_of_token r0, float_of_token r1 with
          | Some m, Some i => (m :: mz, i :: inten)
          | _, _ => (mz, inten)
          end
      | _ => (mz, inten)
      end
  end.

(** [resp.raise_for_status()] *)
Definition raise_for_status (resp : response F) : io string F () :=
  if (400 <=? status_code resp)%Z && (status_code resp <? 600)%Z
  then raise (HTTPError (status_code resp))
  else mret ().

Fixpoint print_hits (i : nat) (l : list (hit F)) : io string F () :=
  match l with
  | [] => mret ()
  | h :: rest =>
      let name := match hit_payload h with
                  | Some payload => payload !! "NAME"
                  | None => None
                  end in
      _ ← print (HitLine i (hit_id h) (hit_score h) name);
      print_hits (S i) rest
  end.

Definition main (rows : list (list string)) : io string F Z :=
  let '(mz, inten) := read_csv_pairs rows in
  '(indices, values) ← lift (SearchCsv.bin_spectrum mz inten bin_size);
  if negb (truthy_list indices) then
    _ ← print NothingToSearch;
    mret 1%Z
  else
    let url := rstrip_slash api_url +:+ "/search" in
    resp ← post server (PostSearch url (indices, values) limit true);
    _ ← raise_for_status resp;
    _ ← print_hits 1 (hits resp);
    mret 0%Z.

End main.
End SearchCsvMain.

(** ** Decimal literals

    The examples need [float] and [json.loads] on a few literals.  On the
    plain decimals [-?digits(.digits)?] with fewer than 2^53 as integer and
    at most 22 fractional digits, the quotient of two exactly represented
    integers is the correctly rounded value, which is what [float] returns. *)

Definition digit_value (c : ascii) : option Z :=
  let n := nat_of_ascii c in
  if (48 <=? n) && (n <=? 57) then Some (Z.of_nat (n - 48)) else None.

Fixpoint digits_value (acc : Z) (s : string) : option Z :=
  match s with
  | EmptyString => Some acc
  | String c s' =>
      match digit_value c with
      | Some d => digits_value (10 * acc + d) s'
      | None => None
      end
  end.

Fixpoint split_dot (s : string) : string * option string :=
  match s with
  | EmptyString => (EmptyString, None)
  | String c s' =>
      if Ascii.eqb c "." then (EmptyString, Some s')
      else let '(a, b) := split_dot s' in (String c a, b)
  end.

Definition float_of_Z (n : Z) : float := PrimFloat.of_uint63 (Uint63.of_Z n).

Definition unsigned_decimal (s : string) : option float :=
  let '(ip, fp) := split_dot s in
  let fp' := default EmptyString fp in
  let leading_zero := match ip with
                      | String "0" (String _ _) => true
                      | _ => false
                      end in
  if String.eqb ip EmptyString || leading_zero
     || (bool_decide (fp = Some EmptyString))
     || negb (String.length fp' <=? 22) then None
  else
    match digits_value 0 (ip +:+ fp') with
    | Some n =>
        if (n <? 2 ^ 53)%Z
        then Some (float_of_Z n / float_of_Z (10 ^ Z.of_nat (String.length fp')))%float
        else None
    | None => None
    end.

Definition decimal_literal (s : string) : option float :=
  match s with
  | String "-" s' => PrimFloat.opp <$> unsigned_decimal s'
  | _ => unsigned_decimal s
  end.

(** Fields of a bracketed, comma-separated list. *)
Fixpoint split_comma (cur : string) (s : string) : list string :=
  match s with
  | EmptyString => [cur]
  | String c s' =>
      if Ascii.eqb c "," then cur :: split_comma EmptyString s'
      else split_comma (cur +:+ String c EmptyString) s'
  end.

Fixpoint all_literals (l : list string) : option (list float) :=
  match l with
  | [] => Some []
  | x :: l' =>
      match decimal_literal (strip x), all_literals l' with
      | Some v, Some vs => Some (v :: vs)
      | _, _ => None
      end
  end.

Definition decimal_array (s : string) : option (list float) :=
  match strip s with
  | String "[" body =>
      match String.rev body with
      | String "]" ydob =>
          let inner := strip (String.rev ydob) in
          if String.eqb inner EmptyString then Some []
          else all_literals (split_comma EmptyString inner)
      | _ => None
      end
  | _ => None
  end.

(** ** Sample inputs

    A service that accepts every request, one that rejects its second
    request, a generator of identifiers, and a library of two records. *)

Definition accepting_server (n : nat) : response float := Response 200 [].

Definition failing_server (n : nat) : response float :=
  Response (if Nat.eqb n 1 then 500 else 200) [].


Definition sample_uuid4 (n : nat) : string :=
  "uuid-" +:+ String (ascii_of_nat (48 + n)) EmptyString.

Definition sample_library : list string :=
  ["NAME: foo"; "Num Peaks: 2"; "1.0 5.0"; "2.0 10.0"; "";
   "NAME: bar"; "Num Peaks: 1"; "3.0 1.0"].

(** ** Vocabulary of the statements *)

Section vocabulary.
Context `{Number F}.

(** The (bin, intensity) pairs the loop adds to the dictionary, in the order
    of the peaks: those of the peaks that are not skipped. *)
Fixpoint contributions (skip : F → F → bool) (peaks : list (F * F)) (bin_size : F)
    : list (Z * F) :=
  match peaks with
  | [] => []
  | (mz, inten) :: rest =>
      if skip mz inten then contributions skip rest bin_size
      else
        match bin_index bin_size mz with
        | Ok idx => (idx, inten) :: contributions skip rest bin_size
        | Raise _ => contributions skip rest bin_size
        end
  end.

(** Every peak that is not skipped has a bin: its quotient by the bin
    width is a finite number. *)
Definition bins_defined (skip : F → F → bool) (peaks : list (F * F)) (bin_size : F) : Prop :=
  Forall (λ p, skip p.1 p.2 = false → ∃ idx, bin_index bin_size p.1 = Ok idx) peaks.

(** The intensities sent to bin [k], in order. *)
Definition at_bin (k : Z) (cs : list (Z * F)) : list F :=
  snd <$> filter (λ c, c.1 = k) cs.

(** The intensities of the peaks that are not skipped and fall into bin
    [k], in the order of the peaks. *)
Definition in_bin (skip : F → F → bool) (bin_size : F) (k : Z) (p : F * F) : bool :=
  negb (skip p.1 p.2) &&
  match bin_index bin_size p.1 with
  | Ok j => bool_decide (j = k)
  | Raise _ => false
  end.

Definition colliding (skip : F → F → bool) (peaks : list (F * F)) (bin_size : F) (k : Z)
    : list F :=
  snd <$> filter (λ p, in_bin skip bin_size k p = true) peaks.

(** The tests that precede [continue] in the three transforms. *)
Definition skip_nonpositive (mz inten : F) : bool := fleb inten fzero || fltb mz fzero.
Definition skip_zero (mz inten : F) : bool := feqb inten fzero || fltb mz fzero.

(** Sum of the squares of the values. *)
Definition sum_squares (values : list F) : F := py_sum ((λ v, fmul v v) <$> values).

(** The bins' sums in the order of the sorted indices, before the
    normalisation. *)
Definition raw_values (accumulator : gmap Z F) : list F :=
  (λ i, default fzero (accumulator !! i)) <$> sorted_keys accumulator.

(** The values as returned: divided by the norm when the sum of squares is
    greater than zero, left alone otherwise. *)
Definition l2_normalized (values : list F) : list F :=
  let norm_sq := sum_squares values in
  if fltb fzero norm_sq then (λ v, fdiv v (fsqrt norm_sq)) <$> values else values.

End vocabulary.

(** [abs(sum(v * v for v in values) - 1.0) <= 1e-9] on binary64 values. *)
Definition unit_within_tolerance (values : list float) : bool :=
  PrimFloat.leb (PrimFloat.abs (PrimFloat.sub (sum_squares values) 1)) 1e-9.

(** The points of the upsert requests, in the order they were sent. *)
Definition posted {I F} (reqs : list (request I F)) : list (point I F) :=
  reqs ≫= (λ r, match r with
                | PostUpsert _ pts => pts
                | PostSearch _ _ _ _ => []
                end).

(** The points the MSP ingestion builds from the records [specs] when the
    generator has already produced [k] identifiers: one for each record
    with a non-empty fingerprint, identified by the next output of the
    generator, up to the first record on which the transform raises. *)
Fixpoint msp_points `{Number F} (uuid4 : nat → string) (bin_size : F)
    (id_key : option string) (specs : list (spectrum F)) (k : nat)
    : list (point string F) :=
  match specs with
  | [] => []
  | spec :: rest =>
      match bin_peaks (spec_peaks spec) bin_size with
      | Raise _ => []
      | Ok ([], _) => msp_points uuid4 bin_size id_key rest k
      | Ok (indices, values) =>
          Point (uuid4 k) (indices, values) (IngestMsp.payload id_key (spec_metadata spec))
          :: msp_points uuid4 bin_size id_key rest (S k)
      end
  end.


(** The loop of [parse_msp] alone: the buffer once the lines are used up,
    and the records yielded on the way, before the flush that follows. *)
Fixpoint run_lines {F} (float_of_token : string → option F) (b : buffer F)
    (lines : list string) : buffer F * list (spectrum F) :=
  match lines with
  | [] => (b, [])
  | raw :: rest =>
      let '(b', out) := parse_line float_of_token b raw in
      let '(b'', out') := run_lines float_of_token b' rest in
      (b'', out ++ out')
  end.

(** Whether a line is the header that opens a peak list: a key that reads
    "num peaks" in any case before its first colon. *)
Definition num_peaks_header (raw : string) : bool :=
  match split_colon (strip raw) with
  | Some (key, _) => String.eqb (lower (strip key)) "num peaks"
  | None => false
  end.

(** No key of the dictionary reads "num peaks", in any case. *)
Definition header_free (m : gmap string string) : Prop :=
  ∀ k, is_Some (m !! k) → lower k ≠ "num peaks"%string.

(** ** The service's request schema ([app/main.py])

    [SparseVector] declares [min_length=1] for its indices and for its
    values, and [UpsertRequest] declares [min_length=1] for its points. *)

Definition sparse_vector_valid {F} (sv : list Z * list F) : Prop :=
  1 ≤ length sv.1 ∧ 1 ≤ length sv.2.

Definition upsert_request_valid {I F} (points : list (point I F)) : Prop :=
  1 ≤ length points ∧ Forall (λ p, sparse_vector_valid (sparse p)) points.

Definition request_valid {I F} (r : request I F) : Prop :=
  match r with
  | PostUpsert _ points => upsert_request_valid points
  | PostSearch _ query _ _ => sparse_vector_valid query
  end.

(** An upsert request to [url] whose batch holds between [lo] and [hi]
    points. *)
Definition upsert_of_size {I F} (url : string) (lo hi : Z) (r : request I F) : Prop :=
  ∃ points, r = PostUpsert url points
            ∧ (lo ≤ Z.of_nat (length points) ≤ hi)%Z.

(** The notes printed for the rows that are skipped. *)
Definition skip_note {I F} (o : output I F) : Prop :=
  ∃ rid, o = ParseErrorNote rid ∨ o = EmptySpectrumNote rid.

(** The lines printed for the hits, numbered from [i]. *)
Fixpoint hit_lines {F} (i : nat) (l : list (hit F)) : list (output string F) :=
  match l with
  | [] => []
  | h :: rest =>
      HitLine i (hit_id h) (hit_score h)
              (match hit_payload h with
               | Some payload => payload !! "NAME"
               | None => None
               end)
      :: hit_lines (S i) rest
  end.

(** A point built from one of the rows: the row's id, the fingerprint of
    its two decoded arrays, which is not empty, and no metadata. *)
Definition row_point `{Number F} {I} (json_floats : string → option (list F))
    (bin_size : F) (rows : list (I * option string * option string))
    (p : point I F) : Prop :=
  ∃ rid mz_json inten_json mz inten,
    (rid, mz_json, inten_json) ∈ rows
    ∧ IngestSqliteMain.parse_json_array json_floats mz_json = Ok mz
    ∧ IngestSqliteMain.parse_json_array json_floats inten_json = Ok inten
    ∧ IngestSqlite.bin_spectrum mz inten bin_size = Ok (sparse p)
    ∧ (sparse p).1 ≠ []
    ∧ id p = rid
    ∧ metadata p = ∅.

(** ** Laws of the arithmetic

    The few facts about comparisons and square roots that keep the
    transform from raising once the bins are computed. *)
Class NumberLaws (F : Type) `{Number F} : Prop := {
  flt_zero_asym x : fltb fzero x = true → fltb x fzero = false;
  flt_zero_not_le x : fltb fzero x = true → fleb x fzero = false;
  fle_zero_not_lt x : fleb fzero x = true → fltb x fzero = false;
  flt_zero_neq x : fltb fzero x = true → feqb x fzero = false;
  fsqrt_nonzero x : fltb fzero x = true → feqb (fsqrt x) fzero = false
}.

(** * Properties *)

(** ** binary64: comparisons with zero, and the square root *)

Section binary64_facts.
Local Open Scope Z_scope.

Lemma float_ltb_zero_cases x :
  PrimFloat.ltb 0 x = true →
  Prim2SF x = S754_infinity false ∨ ∃ m e, Prim2SF x = S754_finite false m e.
Proof.
  rewrite FloatAxioms.ltb_spec. change (Prim2SF 0) with (S754_zero false).
  destruct (Prim2SF x) as [s|s| |s m e]; try destruct s; try discriminate; eauto.
Qed.

Lemma shr_1_pos p r s :
  1 < Z.pos (digits2_pos p) →
  ∃ p' r' s', shr_1 (Build_shr_record (Z.pos p) r s) = Build_shr_record (Z.pos p') r' s'
              ∧ Z.pos (digits2_pos p') = Z.pos (digits2_pos p) - 1.
Proof.
  destruct p as [q|q|]; cbn [digits2_pos shr_1]; intros Hd.
  - exists q, true, (r || s)%bool. split; [reflexivity|rewrite Pos2Z.inj_succ; lia].
  - exists q, false, (r || s)%bool. split; [reflexivity|rewrite Pos2Z.inj_succ; lia].
  - lia.
Qed.

(** Shifting right by fewer bits than the mantissa has leaves it positive. *)
Lemma iter_shr_1_pos k : ∀ p r s,
  Z.pos k < Z.pos (digits2_pos p) →
  ∃ p' r' s', SpecFloat.iter_pos shr_1 k (Build_shr_record (Z.pos p) r s) = Build_shr_record (Z.pos p') r' s'
              ∧ Z.pos (digits2_pos p') = Z.pos (digits2_pos p) - Z.pos k.
Proof.
  induction k as [k IH|k IH|]; intros p r s Hk; cbn [SpecFloat.iter_pos].
  - destruct (shr_1_pos p r s) as (p1 & r1 & s1 & E1 & D1); [lia|].
    rewrite E1.
    destruct (IH p1 r1 s1) as (p2 & r2 & s2 & E2 & D2); [lia|].
    rewrite E2.
    destruct (IH p2 r2 s2) as (p3 & r3 & s3 & E3 & D3); [lia|].
    exists p3, r3, s3. split; [exact E3|lia].
  - destruct (IH p r s) as (p2 & r2 & s2 & E2 & D2); [lia|].
    rewrite E2.
    destruct (IH p2 r2 s2) as (p3 & r3 & s3 & E3 & D3); [lia|].
    exists p3, r3, s3. split; [exact E3|lia].
  - apply shr_1_pos. lia.
Qed.

Lemma shr_fexp_pos p e l :
  SpecFloat.emin prec emax <= e →
  ∃ p' r' s' e', shr_fexp prec emax (Z.pos p) e l = (Build_shr_record (Z.pos p') r' s', e')
                 ∧ SpecFloat.emin prec emax <= e'.
Proof.
  intros He. unfold shr_fexp, shr, fexp, Zdigits2.
  assert (Hrec : ∃ r s, shr_record_of_loc (Z.pos p) l = Build_shr_record (Z.pos p) r s).
  { destruct l as [|[]]; simpl; eauto. }
  destruct Hrec as (r & s & ->).
  destruct (Z.max (Z.pos (digits2_pos p) + e - prec) (SpecFloat.emin prec emax) - e)
    as [|k|k] eqn:En.
  - eauto 10.
  - destruct (iter_shr_1_pos k p r s) as (p' & r' & s' & E & D).
    { unfold prec in *. lia. }
    rewrite E. exists p', r', s', (e + Z.pos k). split; [reflexivity|lia].
  - eauto 10.
Qed.

Lemma round_nearest_even_pos p l : ∃ p', round_nearest_even (Z.pos p) l = Z.pos p'.
Proof.
  destruct l as [|[]]; simpl; eauto.
  destruct p; simpl; eauto.
Qed.

(** Rounding a positive mantissa never produces a zero. *)
Lemma binary_round_aux_nonzero sx p e l s0 :
  SpecFloat.emin prec emax <= e →
  binary_round_aux prec emax sx (Z.pos p) e l ≠ S754_zero s0.
Proof.
  intros He. unfold binary_round_aux.
  destruct (shr_fexp_pos p e l He) as (p1 & r1 & s1 & e1 & -> & He1).
  cbn [shr_m].
  destruct (round_nearest_even_pos p1 (loc_of_shr_record (Build_shr_record (Z.pos p1) r1 s1)))
    as (p2 & ->).
  destruct (shr_fexp_pos p2 e1 loc_Exact He1) as (p3 & r3 & s3 & e3 & -> & He3).
  cbn [shr_m]. destruct (e3 <=? emax - prec); discriminate.
Qed.

Lemma SFsqrt_nonzero m e s0 :
  SpecFloat.bounded prec emax m e = true →
  SFsqrt prec emax (S754_finite false m e) ≠ S754_zero s0.
Proof.
  intros Hb. unfold SpecFloat.bounded, canonical_mantissa, fexp in Hb.
  apply andb_true_iff in Hb as [Hc _]. apply Z.eqb_eq in Hc.
  assert (He : SpecFloat.emin prec emax <= e) by lia.
  unfold SFsqrt, SFsqrt_core_binary.
  set (d := Zdigits2 (Z.pos m)).
  set (e' := Z.min (fexp prec emax (Z.div2 (d + e + 1))) (Z.div2 e)).
  assert (He' : SpecFloat.emin prec emax <= e' ∧ 2 * e' <= e).
  { unfold e', fexp. rewrite Z.div2_div. unfold SpecFloat.emin, prec, emax in *.
    pose proof (Z.div_mod e 2 ltac:(lia)). pose proof (Z.mod_pos_bound e 2 ltac:(lia)). lia. }
  set (m' := match e - 2 * e' with
             | Z.pos _ => Z.shiftl (Z.pos m) (e - 2 * e')
             | 0 => Z.pos m
             | Z.neg _ => 0
             end).
  assert (Hm' : 0 < m').
  { unfold m'. destruct (e - 2 * e') eqn:Es; try lia.
    rewrite Z.shiftl_mul_pow2 by lia. apply Z.mul_pos_pos; [lia|].
    apply Z.pow_pos_nonneg; lia. }
  pose proof (Z.sqrtrem_sqrt m') as Hq.
  destruct (Z.sqrtrem m') as [q r]. simpl in Hq. subst q.
  assert (0 < Z.sqrt m') by (apply Z.sqrt_pos; exact Hm').
  destruct (Z.sqrt m') as [|q|q] eqn:Eq; try lia.
  apply binary_round_aux_nonzero. lia.
Qed.

(** The square root of a positive binary64 number is not zero, so the
    division by the norm cannot raise. *)
Lemma float_sqrt_pos_nonzero x :
  PrimFloat.ltb 0 x = true → PrimFloat.eqb (PrimFloat.sqrt x) 0 = false.
Proof.
  rewrite FloatAxioms.ltb_spec, FloatAxioms.eqb_spec, FloatAxioms.sqrt_spec.
  pose proof (Prim2SF_valid x) as Hv.
  change (Prim2SF 0) with (S754_zero false).
  unfold SF64sqrt.
  destruct (Prim2SF x) as [s|s| |s m e]; try destruct s; try discriminate; intros _.
  - reflexivity.
  - pose proof (SFsqrt_nonzero m e) as Hnz. specialize (λ s0, Hnz s0 Hv).
    destruct (SFsqrt prec emax (S754_finite false m e)) as [s|s| |s m' e'].
    + exfalso. apply (Hnz s). reflexivity.
    + destruct s; reflexivity.
    + reflexivity.
    + destruct s; reflexivity.
Qed.

Lemma binary64_laws : NumberLaws float.
Proof.
  split; cbn [fzero fltb fleb feqb fsqrt binary64]; intros x Hx.
  - rewrite FloatAxioms.ltb_spec. change (Prim2SF 0) with (S754_zero false).
    destruct (float_ltb_zero_cases x Hx) as [-> | (m & e & ->)]; reflexivity.
  - rewrite FloatAxioms.leb_spec. change (Prim2SF 0) with (S754_zero false).
    destruct (float_ltb_zero_cases x Hx) as [-> | (m & e & ->)]; reflexivity.
  - revert Hx. rewrite FloatAxioms.leb_spec, FloatAxioms.ltb_spec.
    change (Prim2SF 0) with (S754_zero false).
    destruct (Prim2SF x) as [s|s| |s m e]; try destruct s; try discriminate; reflexivity.
  - rewrite FloatAxioms.eqb_spec. change (Prim2SF 0) with (S754_zero false).
    destruct (float_ltb_zero_cases x Hx) as [-> | (m & e & ->)]; reflexivity.
  - apply float_sqrt_pos_nonzero, Hx.
Qed.

End binary64_facts.

#[export] Existing Instance binary64_laws.

(** ** Exact arithmetic *)

Lemma Rltb_true x y : Rltb x y = true ↔ (x < y)%R.
Proof. unfold Rltb. destruct (Rlt_dec x y); split; intros; try done. Qed.

Lemma Rleb_true x y : Rleb x y = true ↔ (x <= y)%R.
Proof. unfold Rleb. destruct (Rle_dec x y); split; intros; try done. Qed.

Lemma Reqb_true x y : Reqb x y = true ↔ x = y.
Proof. unfold Reqb. destruct (Req_dec_T x y); split; intros; try done. Qed.

Lemma Rltb_false x y : Rltb x y = false ↔ (y <= x)%R.
Proof. unfold Rltb. destruct (Rlt_dec x y); split; intros; try done; lra. Qed.

Lemma Rleb_false x y : Rleb x y = false ↔ (y < x)%R.
Proof. unfold Rleb. destruct (Rle_dec x y); split; intros; try done; lra. Qed.

Lemma Reqb_false x y : Reqb x y = false ↔ x ≠ y.
Proof. unfold Reqb. destruct (Req_dec_T x y); split; intros; try done. Qed.

Lemma exact_laws : NumberLaws R.
Proof.
  split; cbn [fzero fltb fleb feqb fsqrt exact]; intros x.
  - rewrite Rltb_true, Rltb_false. lra.
  - rewrite Rltb_true, Rleb_false. lra.
  - rewrite Rleb_true, Rltb_false. lra.
  - rewrite Rltb_true, Reqb_false. lra.
  - rewrite Rltb_true, Reqb_false. intros Hx Hs.
    pose proof (sqrt_lt_R0 x Hx). lra.
Qed.

#[export] Existing Instance exact_laws.

(** ** Comprehensions that may raise *)

Lemma rmap_ok_length {A B} (f : A → result B) l l' :
  rmap f l = Ok l' → length l' = length l.
Proof.
  revert l'. induction l as [|x l IH]; intros l'; cbn [rmap].
  - intros [= <-]. reflexivity.
  - destruct (f x) as [y|e]; [|discriminate]. cbn.
    destruct (rmap f l) as [ys|e]; [|discriminate]. cbn.
    intros [= <-]. cbn. f_equal. apply IH. reflexivity.
Qed.

Lemma rmap_total {A B} (f : A → result B) l :
  Forall (λ x, ∃ y, f x = Ok y) l → ∃ l', rmap f l = Ok l'.
Proof.
  induction 1 as [|x l [y Hy] _ [ys Hys]]; cbn [rmap].
  - eauto.
  - rewrite Hy. cbn. rewrite Hys. cbn. eauto.
Qed.

Lemma rmap_pure {A B} (g : A → B) (f : A → result B) l :
  Forall (λ x, f x = Ok (g x)) l → rmap f l = Ok (g <$> l).
Proof.
  induction 1 as [|x l Hx _ IH]; cbn [rmap]; [done|].
  rewrite Hx. cbn. rewrite IH. reflexivity.
Qed.

(** ** The accumulation loop *)

Section loop_facts.
Context `{Number F}.
Implicit Types (acc : gmap Z F) (cs : list (Z * F)) (peaks : list (F * F)).

Lemma bin_loop_contributions skip peaks w acc :
  bins_defined skip peaks w →
  bin_loop skip peaks w acc = Ok (fold_left add_to (contributions skip peaks w) acc).
Proof.
  intros Hd. revert acc.
  induction Hd as [|[mz inten] rest Hp _ IH]; intros acc; cbn [bin_loop contributions].
  - reflexivity.
  - cbn [fst snd] in Hp. destruct (skip mz inten); [apply IH|].
    destruct Hp as [idx ->]; [done|]. cbn. apply IH.
Qed.

(** A peak list whose peaks are all skipped leaves the dictionary as it is,
    whatever the bin width. *)
Lemma bin_loop_all_skipped skip peaks w acc :
  Forall (λ p, skip p.1 p.2 = true) peaks → bin_loop skip peaks w acc = Ok acc.
Proof.
  induction 1 as [|[mz inten] rest Hp _ IH]; cbn [bin_loop]; [done|].
  cbn [fst snd] in Hp. rewrite Hp. exact IH.
Qed.

Lemma contributions_app skip peaks1 peaks2 w :
  contributions skip (peaks1 ++ peaks2) w
  = contributions skip peaks1 w ++ contributions skip peaks2 w.
Proof.
  induction peaks1 as [|[mz inten] rest IH]; cbn [contributions app]; [done|].
  destruct (skip mz inten); [done|].
  destruct (bin_index w mz); [|done]. cbn. by f_equal.
Qed.

Lemma contributions_perm skip peaks peaks' w :
  peaks ≡ₚ peaks' → contributions skip peaks w ≡ₚ contributions skip peaks' w.
Proof.
  induction 1 as [|[mz inten] l l' _ IH|[mz1 i1] [mz2 i2] l|l1 l2 l3 _ IH1 _ IH2];
    cbn [contributions].
  - done.
  - destruct (skip mz inten); [done|]. destruct (bin_index w mz); [|done].
    by constructor.
  - destruct (skip mz1 i1), (skip mz2 i2); try done;
      destruct (bin_index w mz1), (bin_index w mz2); try done.
    apply perm_swap.
  - by etrans.
Qed.

Lemma bins_defined_perm skip peaks peaks' w :
  peaks ≡ₚ peaks' → bins_defined skip peaks w → bins_defined skip peaks' w.
Proof. intros Hp. unfold bins_defined. by rewrite Hp. Qed.

(** What the dictionary holds at bin [k] after the additions [cs]: the
    left-to-right sum of the intensities sent to [k], started from the
    previous content or from zero. *)
Lemma fold_add_to_lookup cs : ∀ acc k,
  fold_left add_to cs acc !! k
  = match at_bin k cs with
    | [] => acc !! k
    | xs => Some (fold_left fadd xs (default fzero (acc !! k)))
    end.
Proof.
  unfold at_bin.
  induction cs as [|[j x] cs IH]; intros acc k; cbn [fold_left]; [done|].
  rewrite IH. rewrite filter_cons. cbn [fst].
  unfold add_to at 1 2. cbn [fst snd].
  destruct (decide (j = k)) as [->|Hne].
  - rewrite lookup_insert_eq. cbn [fmap list_fmap snd default fold_left].
    by destruct (snd <$> filter (λ c, c.1 = k) cs).
  - by rewrite lookup_insert_ne.
Qed.

Lemma fold_add_to_dom cs : ∀ acc,
  dom (fold_left add_to cs acc) = dom acc ∪ list_to_set cs.*1.
Proof.
  induction cs as [|[j x] cs IH]; intros acc; cbn [fold_left].
  - cbn. set_solver.
  - rewrite IH. unfold add_to. rewrite dom_insert_L. cbn. set_solver.
Qed.

Lemma fold_add_to_nonempty cs acc :
  cs ≠ [] → fold_left add_to cs acc ≠ ∅.
Proof.
  destruct cs as [|[j x] cs]; [done|]. intros _ He.
  apply (f_equal dom) in He. rewrite fold_add_to_dom, dom_empty_L in He.
  cbn in He. set_solver.
Qed.

(** Additions to different bins commute. *)
Lemma add_to_comm_ne acc (c1 c2 : Z * F) :
  c1.1 ≠ c2.1 → add_to (add_to acc c1) c2 = add_to (add_to acc c2) c1.
Proof.
  intros Hne. unfold add_to. destruct c1 as [j x], c2 as [k y]. cbn [fst snd] in *.
  rewrite !lookup_insert_ne by done. by apply insert_insert_ne.
Qed.

(** With bins that are pairwise distinct, the order of the additions does
    not matter, whatever the arithmetic. *)
Lemma fold_add_to_perm_distinct cs cs' :
  cs ≡ₚ cs' → NoDup cs.*1 → ∀ acc, fold_left add_to cs acc = fold_left add_to cs' acc.
Proof.
  induction 1 as [|c l l' _ IH|c1 c2 l|l1 l2 l3 Hp1 IH1 _ IH2]; intros Hnd acc.
  - done.
  - cbn. apply IH. by inversion Hnd.
  - cbn. f_equal. apply add_to_comm_ne.
    cbn in Hnd. apply NoDup_cons in Hnd as [Hnotin _].
    intros Heq. apply Hnotin. rewrite Heq. by left.
  - rewrite IH1 by done. apply IH2. by rewrite <- Hp1.
Qed.

(** With an addition that can be reordered, neither do collisions. *)
Lemma fold_add_to_perm_comm cs cs' :
  (∀ x y z : F, fadd (fadd x y) z = fadd (fadd x z) y) →
  cs ≡ₚ cs' → ∀ acc, fold_left add_to cs acc = fold_left add_to cs' acc.
Proof.
  intros Hc. induction 1 as [|c l l' _ IH|c1 c2 l|l1 l2 l3 _ IH1 _ IH2]; intros acc.
  - done.
  - cbn. apply IH.
  - cbn. f_equal. destruct (decide (c1.1 = c2.1)) as [Heq|Hne].
    + unfold add_to. destruct c1 as [j x], c2 as [k y]. cbn [fst snd] in *. subst k.
      rewrite !lookup_insert_eq. rewrite !insert_insert_eq. simpl.
      by rewrite Hc.
    + symmetry. by apply add_to_comm_ne.
  - rewrite IH1. apply IH2.
Qed.

End loop_facts.

(** ** Sorted indices *)

Section finish_facts.
Context `{Number F}.
Implicit Types (acc : gmap Z F).

Lemma sorted_keys_perm acc : sorted_keys acc ≡ₚ elements (dom acc).
Proof. apply merge_sort_Permutation. Qed.

Lemma elem_of_sorted_keys acc k : k ∈ sorted_keys acc ↔ is_Some (acc !! k).
Proof. rewrite sorted_keys_perm, elem_of_elements. apply elem_of_dom. Qed.

Lemma sorted_keys_NoDup acc : NoDup (sorted_keys acc).
Proof. rewrite sorted_keys_perm. apply NoDup_elements. Qed.

Lemma sorted_keys_length acc : length (sorted_keys acc) = size acc.
Proof. rewrite sorted_keys_perm. rewrite <- size_dom. reflexivity. Qed.

Lemma StronglySorted_le_lt (l : list Z) :
  StronglySorted Z.le l → NoDup l → StronglySorted Z.lt l.
Proof.
  induction 1 as [|x l Hs IH Hall]; intros Hnd; constructor.
  - apply IH. by apply NoDup_cons in Hnd as [_ ?].
  - apply NoDup_cons in Hnd as [Hx _].
    rewrite Forall_forall in Hall |- *. intros y Hy.
    assert (x ≠ y) by (intros ->; done).
    specialize (Hall y Hy). lia.
Qed.

(** The indices are strictly increasing: sorted, and without duplicates. *)
Lemma sorted_keys_increasing acc : StronglySorted Z.lt (sorted_keys acc).
Proof.
  apply StronglySorted_le_lt; [|apply sorted_keys_NoDup].
  apply StronglySorted_merge_sort; apply _.
Qed.

Lemma sorted_keys_nonempty acc : acc ≠ ∅ → sorted_keys acc ≠ [].
Proof.
  intros Hne Hnil. apply Hne. apply map_size_empty_iff.
  by rewrite <- sorted_keys_length, Hnil.
Qed.

(** The indices depend on the set of bins only. *)
Lemma sorted_keys_dom acc acc' : dom acc = dom acc' → sorted_keys acc = sorted_keys acc'.
Proof. unfold sorted_keys. by intros ->. Qed.

Lemma raw_values_length acc : length (raw_values acc) = length (sorted_keys acc).
Proof. unfold raw_values. by rewrite length_fmap. Qed.

Lemma getitem_sorted_keys acc :
  rmap (getitem acc) (sorted_keys acc) = Ok (raw_values acc).
Proof.
  apply rmap_pure. rewrite Forall_forall. intros k Hk.
  apply elem_of_sorted_keys in Hk as [v Hv]. unfold getitem. by rewrite Hv.
Qed.

Lemma l2_normalized_length (values : list F) :
  length (l2_normalized values) = length values.
Proof.
  unfold l2_normalized. destruct (fltb fzero (sum_squares values)); [|done].
  by rewrite length_fmap.
Qed.

Lemma bin_finish_empty : bin_finish (∅ : gmap Z F) = Ok ([], []).
Proof. reflexivity. Qed.

(** On a non-empty dictionary the second half of the transform returns the
    sorted indices and the normalised sums; neither the square root nor the
    divisions raise. *)
Lemma bin_finish_nonempty `{!NumberLaws F} acc :
  acc ≠ ∅ → bin_finish acc = Ok (sorted_keys acc, l2_normalized (raw_values acc)).
Proof.
  intros Hne. unfold bin_finish.
  destruct (Nat.eqb_spec (size acc) 0) as [Hz|_].
  { by apply map_size_empty_iff in Hz. }
  rewrite getitem_sorted_keys. cbn.
  unfold l2_normalized, sum_squares.
  destruct (fltb fzero (py_sum ((λ v, fmul v v) <$> raw_values acc))) eqn:Hpos; [|done].
  unfold math_sqrt. rewrite (flt_zero_asym _ Hpos). cbn.
  rewrite (rmap_pure (λ v, fdiv v (fsqrt (py_sum ((λ v, fmul v v) <$> raw_values acc))))).
  - reflexivity.
  - rewrite Forall_forall. intros v _. unfold py_truediv.
    by rewrite (fsqrt_nonzero _ Hpos).
Qed.

End finish_facts.

(** ** The transform as a whole *)

Section transform_facts.
Context `{Number F}.
Implicit Types (peaks : list (F * F)) (w : F).

Lemma in_bin_true skip w k (p : F * F) :
  in_bin skip w k p = true ↔ skip p.1 p.2 = false ∧ bin_index w p.1 = Ok k.
Proof.
  unfold in_bin. destruct (skip p.1 p.2); cbn [negb andb].
  { split; [done|]. by intros [? _]. }
  destruct (bin_index w p.1) as [j|e].
  - rewrite bool_decide_eq_true. split; [by intros ->|]. by intros [_ [= ->]].
  - split; [done|]. by intros [_ ?].
Qed.

Lemma at_bin_contributions skip peaks w k :
  at_bin k (contributions skip peaks w) = colliding skip peaks w k.
Proof.
  unfold at_bin, colliding.
  induction peaks as [|[mz inten] rest IH]; cbn [contributions]; [done|].
  destruct (skip mz inten) eqn:Hs.
  { rewrite (filter_cons_False _ (mz, inten)); [exact IH|].
    rewrite in_bin_true. cbn. intros [? _]. congruence. }
  destruct (bin_index w mz) as [j|e] eqn:Hb.
  - destruct (decide (j = k)) as [->|Hne].
    + rewrite (filter_cons_True _ (k, inten)) by done.
      rewrite (filter_cons_True _ (mz, inten)) by (by apply in_bin_true).
      cbn. by f_equal.
    + rewrite (filter_cons_False _ (j, inten)) by done.
      rewrite (filter_cons_False _ (mz, inten)); [exact IH|].
      rewrite in_bin_true. cbn. intros [_ ?]. congruence.
  - rewrite (filter_cons_False _ (mz, inten)); [exact IH|].
    rewrite in_bin_true. cbn. intros [_ ?]. congruence.
Qed.

Lemma contributions_nonempty skip peaks w :
  bins_defined skip peaks w →
  Exists (λ p, skip p.1 p.2 = false) peaks →
  contributions skip peaks w ≠ [].
Proof.
  intros Hd. induction Hd as [|[mz inten] rest Hp _ IH]; intros Hex;
    cbn [contributions].
  - by apply Exists_nil in Hex.
  - cbn [fst snd] in Hp.
    destruct (skip mz inten) eqn:Hs.
    + apply IH. apply Exists_cons in Hex as [Hh|Ht]; [|done].
      cbn in Hh. congruence.
    + destruct Hp as [idx ->]; done.
Qed.

Lemma contributions_all_skipped skip peaks w :
  Forall (λ p, skip p.1 p.2 = true) peaks → contributions skip peaks w = [].
Proof.
  induction 1 as [|[mz inten] rest Hp _ IH]; cbn [contributions]; [done|].
  cbn in Hp. by rewrite Hp.
Qed.

(** Each addition comes from a peak that passed the test. *)
Lemma contributions_origin skip peaks w :
  Forall (λ c, ∃ mz, (mz, c.2) ∈ peaks ∧ skip mz c.2 = false ∧ bin_index w mz = Ok c.1)
         (contributions skip peaks w).
Proof.
  induction peaks as [|[mz inten] rest IH]; cbn [contributions]; [constructor|].
  assert (Hrest : Forall (λ c, ∃ mz0, (mz0, c.2) ∈ (mz, inten) :: rest
                                ∧ skip mz0 c.2 = false ∧ bin_index w mz0 = Ok c.1)
                         (contributions skip rest w)).
  { eapply Forall_impl; [exact IH|]. intros c (mz0 & Hin & ? & ?).
    exists mz0. split; [by right|done]. }
  destruct (skip mz inten) eqn:Hs; [done|].
  destruct (bin_index w mz) as [idx|e] eqn:Hb; [|done].
  constructor; [|done]. exists mz. cbn. split; [by left|done].
Qed.

(** The transform in one equation: the dictionary built by the additions,
    then the sorted bins and their normalised sums. *)
Lemma bin_loop_finish `{!NumberLaws F} skip peaks w :
  bins_defined skip peaks w →
  (acc ← bin_loop skip peaks w ∅; bin_finish acc)
  = match contributions skip peaks w with
    | [] => Ok ([], [])
    | cs => let acc := fold_left add_to cs ∅ in
            Ok (sorted_keys acc, l2_normalized (raw_values acc))
    end.
Proof.
  intros Hd. rewrite (bin_loop_contributions _ _ _ _ Hd).
  cbn [mbind result_bind].
  destruct (contributions skip peaks w) as [|c cs] eqn:Hc; [done|].
  apply bin_finish_nonempty. by apply fold_add_to_nonempty.
Qed.

Lemma bin_peaks_eq `{!NumberLaws F} peaks w :
  bins_defined skip_nonpositive peaks w →
  bin_peaks peaks w
  = match contributions skip_nonpositive peaks w with
    | [] => Ok ([], [])
    | cs => let acc := fold_left add_to cs ∅ in
            Ok (sorted_keys acc, l2_normalized (raw_values acc))
    end.
Proof. apply bin_loop_finish. Qed.

(** Nothing survives the filter: the transform returns the empty vector,
    for every bin width. *)
Lemma bin_peaks_all_rejected peaks w :
  Forall (λ p, fleb p.2 fzero = true ∨ fltb p.1 fzero = true) peaks →
  bin_peaks peaks w = Ok ([], []).
Proof.
  intros Hall. unfold bin_peaks. rewrite bin_loop_all_skipped; [done|].
  eapply Forall_impl; [exact Hall|]. intros [mz inten]. cbn.
  intros [-> | ->]; [done|]. apply orb_true_r.
Qed.

Lemma csv_bin_spectrum_all_rejected (mz inten : list F) w :
  length mz = length inten →
  Forall (λ p, fleb p.2 fzero = true ∨ fltb p.1 fzero = true) (zip mz inten) →
  SearchCsv.bin_spectrum mz inten w = Ok ([], []).
Proof.
  intros Hlen Hall. unfold SearchCsv.bin_spectrum.
  rewrite Hlen, Nat.eqb_refl. cbn [negb].
  rewrite bin_loop_all_skipped; [done|].
  eapply Forall_impl; [exact Hall|]. intros [m i]. cbn.
  intros [-> | ->]; [done|]. apply orb_true_r.
Qed.

(** A peak of positive intensity and non-negative mass passes the test. *)
Lemma positive_peak_kept `{!NumberLaws F} (p : F * F) :
  fltb fzero p.2 = true → fleb fzero p.1 = true → skip_nonpositive p.1 p.2 = false.
Proof.
  intros Hi Hm. unfold skip_nonpositive.
  by rewrite (flt_zero_not_le _ Hi), (fle_zero_not_lt _ Hm).
Qed.

(** Shape of the fingerprint of a peak list with a surviving peak. *)
Lemma bin_peaks_structure `{!NumberLaws F} peaks w :
  bins_defined skip_nonpositive peaks w →
  Exists (λ p, fltb fzero p.2 = true ∧ fleb fzero p.1 = true) peaks →
  ∃ indices values,
    bin_peaks peaks w = Ok (indices, values)
    ∧ indices ≠ [] ∧ StronglySorted Z.lt indices ∧ NoDup indices
    ∧ length values = length indices.
Proof.
  intros Hd Hex. rewrite (bin_peaks_eq _ _ Hd).
  assert (Hne : contributions skip_nonpositive peaks w ≠ []).
  { apply contributions_nonempty; [done|].
    eapply Exists_impl; [exact Hex|]. intros p [? ?]. by apply positive_peak_kept. }
  destruct (contributions skip_nonpositive peaks w) as [|c cs]; [done|].
  eexists _, _. split; [reflexivity|]. cbn zeta.
  split; [|split; [|split]].
  - apply sorted_keys_nonempty. by apply fold_add_to_nonempty.
  - apply sorted_keys_increasing.
  - apply sorted_keys_NoDup.
  - by rewrite l2_normalized_length, raw_values_length.
Qed.

(** Permuting the peaks leaves the indices as they are; the values too when
    the surviving peaks fall into pairwise distinct bins. *)
Lemma bin_peaks_perm `{!NumberLaws F} peaks peaks' w :
  peaks ≡ₚ peaks' →
  bins_defined skip_nonpositive peaks w →
  ∃ indices values values',
    bin_peaks peaks w = Ok (indices, values)
    ∧ bin_peaks peaks' w = Ok (indices, values')
    ∧ (NoDup (contributions skip_nonpositive peaks w).*1 → values = values').
Proof.
  intros Hp Hd.
  pose proof (bins_defined_perm _ _ _ _ Hp Hd) as Hd'.
  rewrite (bin_peaks_eq _ _ Hd), (bin_peaks_eq _ _ Hd').
  pose proof (contributions_perm skip_nonpositive _ _ w Hp) as Hc.
  destruct (contributions skip_nonpositive peaks w) as [|c cs] eqn:E1;
    destruct (contributions skip_nonpositive peaks' w) as [|c' cs'] eqn:E2.
  - by exists [], [], [].
  - by apply Permutation_nil_cons in Hc.
  - symmetry in Hc. by apply Permutation_nil_cons in Hc.
  - cbn zeta. eexists _, _, _. split; [reflexivity|]. split.
    + f_equal. f_equal. apply sorted_keys_dom.
      rewrite !fold_add_to_dom. f_equal. apply set_eq. intros k.
      rewrite !elem_of_list_to_set. by rewrite Hc.
    + intros Hnd. by rewrite (fold_add_to_perm_distinct _ _ Hc Hnd).
Qed.

End transform_facts.

(** ** The transform in exact arithmetic *)

Section exact_facts.
Local Open Scope R_scope.
Implicit Types (peaks : list (R * R)) (w : R).

Lemma fold_left_Rplus (l : list R) a : fold_left Rplus l a = a + fold_left Rplus l 0.
Proof.
  revert a. induction l as [|x l IH]; intros a; cbn [fold_left].
  - lra.
  - rewrite (IH (a + x)), (IH (0 + x)). lra.
Qed.

Lemma fold_left_Rplus_pos (l : list R) a :
  Forall (λ x, 0 < x) l → l ≠ [] → a < fold_left Rplus l a.
Proof.
  intros Hall. revert a. induction Hall as [|x l Hx Hl IH]; intros a Hne; [done|].
  cbn [fold_left]. destruct l as [|y l].
  - cbn. lra.
  - specialize (IH (a + x) ltac:(done)). lra.
Qed.

Lemma sum_squares_cons (v : R) vs : sum_squares (v :: vs) = v * v + sum_squares vs.
Proof.
  unfold sum_squares, py_sum. cbn [fmap list_fmap fold_left fadd fmul fzero exact].
  rewrite fold_left_Rplus. lra.
Qed.

Lemma sum_squares_nil : sum_squares ([] : list R) = 0.
Proof. reflexivity. Qed.

Lemma sum_squares_pos (vs : list R) :
  vs ≠ [] → Forall (λ v, 0 < v) vs → 0 < sum_squares vs.
Proof.
  intros Hne Hall. induction Hall as [|v vs Hv Hvs IH]; [done|].
  rewrite sum_squares_cons.
  assert (0 < v * v) by (by apply Rmult_lt_0_compat).
  destruct vs as [|v' vs]; [rewrite sum_squares_nil; lra|].
  specialize (IH ltac:(done)). lra.
Qed.

Lemma sum_squares_scale (s : R) (vs : list R) :
  s ≠ 0 → sum_squares ((λ v, v / s) <$> vs) = sum_squares vs / (s * s).
Proof.
  intros Hs. induction vs as [|v vs IH].
  - cbn [fmap list_fmap]. rewrite sum_squares_nil. by field.
  - cbn [fmap list_fmap]. fold (fmap (M:=list) (λ v, v / s) vs).
    rewrite !sum_squares_cons, IH. by field.
Qed.

(** Normalised values have a sum of squares of exactly one. *)
Lemma l2_normalized_unit (vs : list R) :
  0 < sum_squares vs → sum_squares (l2_normalized vs) = 1.
Proof.
  intros Hpos. unfold l2_normalized. cbn [fltb fzero fdiv fsqrt exact].
  rewrite (proj2 (Rltb_true _ _) Hpos).
  assert (Hs : R_sqrt.sqrt (sum_squares vs) ≠ 0).
  { pose proof (sqrt_lt_R0 _ Hpos). lra. }
  rewrite (sum_squares_scale _ _ Hs), sqrt_sqrt by lra.
  field. lra.
Qed.

Lemma exact_bin_index w mz : w ≠ 0 → bin_index w mz = Ok (Int_part (mz / w)).
Proof.
  intros Hw. unfold bin_index, py_truediv. cbn [feqb fzero fdiv ffloor exact].
  by rewrite (proj2 (Reqb_false _ _) Hw).
Qed.

Lemma exact_bins_defined skip peaks w : w ≠ 0 → bins_defined skip peaks w.
Proof.
  intros Hw. unfold bins_defined. rewrite Forall_forall. intros p _ _.
  rewrite exact_bin_index by done. eauto.
Qed.

Lemma exact_kept_positive (mz inten : R) : skip_nonpositive mz inten = false → 0 < inten.
Proof.
  unfold skip_nonpositive. cbn [fleb fltb fzero exact].
  intros Hs. apply orb_false_elim in Hs as [Hle _]. by apply Rleb_false.
Qed.

(** Each bin holds a positive sum. *)
Lemma raw_values_positive (cs : list (Z * R)) :
  Forall (λ c, 0 < c.2) cs → Forall (λ v, 0 < v) (raw_values (fold_left add_to cs ∅)).
Proof.
  intros Hall. unfold raw_values. rewrite Forall_fmap, Forall_forall.
  intros k Hk. cbn. apply elem_of_sorted_keys in Hk as [v Hv].
  rewrite Hv. cbn. rewrite fold_add_to_lookup, lookup_empty in Hv.
  assert (Hxs : Forall (λ x, 0 < x) (at_bin k cs)).
  { unfold at_bin. rewrite Forall_fmap, Forall_forall. intros c Hc.
    apply list_elem_of_filter in Hc as [_ Hc].
    rewrite Forall_forall in Hall. by apply Hall. }
  destruct (at_bin k cs) as [|x xs] eqn:E; [done|].
  injection Hv as <-. cbn [default fzero exact].
  change (@fadd R exact) with Rplus.
  apply (fold_left_Rplus_pos (x :: xs) 0); done.
Qed.

(** In exact arithmetic the transform of a peak list with a surviving peak
    is a unit vector. *)
Lemma exact_bin_peaks_unit peaks w :
  0 < w →
  Exists (λ p, 0 < p.2 ∧ 0 <= p.1) peaks →
  ∃ indices values,
    bin_peaks peaks w = Ok (indices, values)
    ∧ indices ≠ [] ∧ StronglySorted Z.lt indices ∧ NoDup indices
    ∧ length values = length indices
    ∧ sum_squares values = 1.
Proof.
  intros Hw Hex.
  assert (Hd : bins_defined skip_nonpositive peaks w) by (apply exact_bins_defined; lra).
  assert (Hex' : Exists (λ p : R * R, fltb fzero p.2 = true ∧ fleb fzero p.1 = true) peaks).
  { eapply Exists_impl; [exact Hex|]. intros p [? ?]. cbn [fltb fleb fzero exact].
    by rewrite (proj2 (Rltb_true _ _)), (proj2 (Rleb_true _ _)). }
  destruct (bin_peaks_structure peaks w Hd Hex') as (indices & values & Heq & ? & ? & ? & ?).
  exists indices, values. repeat (split; [done|]).
  rewrite (bin_peaks_eq _ _ Hd) in Heq.
  pose proof (contributions_origin skip_nonpositive peaks w) as Ho.
  destruct (contributions skip_nonpositive peaks w) as [|c cs] eqn:Hc.
  { injection Heq as <- <-. done. }
  cbn zeta in Heq. injection Heq as _ <-.
  apply l2_normalized_unit, sum_squares_pos.
  - intros Hnil. apply (f_equal length) in Hnil.
    rewrite raw_values_length, sorted_keys_length in Hnil.
    apply (fold_add_to_nonempty (c :: cs) ∅); [done|].
    by apply map_size_empty_iff.
  - apply (raw_values_positive (c :: cs)).
    eapply Forall_impl; [exact Ho|]. intros c' (mz & _ & Hs & _).
    by apply exact_kept_positive in Hs.
Qed.

(** In exact arithmetic the order of the peaks does not matter at all. *)
Lemma exact_bin_peaks_perm peaks peaks' w :
  0 < w → peaks ≡ₚ peaks' → bin_peaks peaks w = bin_peaks peaks' w.
Proof.
  intros Hw Hp.
  rewrite !bin_peaks_eq by (apply exact_bins_defined; lra).
  pose proof (contributions_perm skip_nonpositive _ _ w Hp) as Hc.
  assert (Hf : fold_left add_to (contributions skip_nonpositive peaks w) ∅
               = fold_left add_to (contributions skip_nonpositive peaks' w) ∅).
  { apply fold_add_to_perm_comm; [|done].
    intros x y z. cbn [fadd exact]. lra. }
  destruct (contributions skip_nonpositive peaks w) as [|c cs];
    destruct (contributions skip_nonpositive peaks' w) as [|c' cs'].
  - done.
  - by apply Permutation_nil_cons in Hc.
  - symmetry in Hc. by apply Permutation_nil_cons in Hc.
  - cbn zeta. by rewrite Hf.
Qed.

End exact_facts.

(** ** The claims about the transform *)

(** A test that decides [bins_defined] on concrete peaks. *)
Lemma bins_defined_check `{Number F} skip (peaks : list (F * F)) w :
  forallb (λ p, skip p.1 p.2 || is_ok (bin_index w p.1)) peaks = true →
  bins_defined skip peaks w.
Proof.
  unfold bins_defined. induction peaks as [|p rest IH]; cbn [forallb]; [constructor|].
  intros Hb. apply andb_true_iff in Hb as [Hp Hrest].
  constructor; [|by apply IH].
  intros Hs. rewrite Hs in Hp. cbn in Hp.
  destruct (bin_index w p.1) as [idx|e]; [eauto|done].
Qed.

(** C1, the tabular path: [ingest_sqlite.bin_spectrum] skips a peak only
    when its intensity equals zero (or its mass is negative).  The peak
    (0.5, -1.0), whose intensity is negative, is binned: the transform
    returns indices [5] and values [-1.0] instead of the empty vector. *)
Theorem sqlite_bin_spectrum_keeps_negative_intensity :
  PrimFloat.leb (-1) 0 = true
  ∧ IngestSqlite.bin_spectrum [0.5%float] [(-1)%float] 0.1%float
    = Ok ([5%Z], [(-1)%float]).
Proof. split; vm_compute; reflexivity. Qed.

(** C4, counterexample: the single peak (1.0, 1e200) has positive intensity
    and non-negative mass, the bin width 0.1 is positive, and the transform
    returns the value 0.0 for bin 10: the square of 1e200 overflows, the
    norm is infinite, and the sum of squares is 0, not 1 within 1e-9. *)
Lemma bin_peaks_overflow_not_unit :
  Exists (λ p, PrimFloat.ltb 0 p.2 = true ∧ PrimFloat.leb 0 p.1 = true)
         [(1.0, 1e200)%float]
  ∧ PrimFloat.ltb 0 0.1 = true
  ∧ bin_peaks [(1.0, 1e200)%float] 0.1%float = Ok ([10%Z], [0%float])
  ∧ unit_within_tolerance [0%float] = false.
Proof.
  split; [|split; [|split]]; try (vm_compute; reflexivity).
  left. split; vm_compute; reflexivity.
Qed.

(** Two more inputs outside the amended statement: a square that
    underflows leaves the value unnormalised, and an infinite mass has no
    bin, so the transform raises. *)
Example bin_peaks_underflow :
  bin_peaks [(1.0, 1e-200)%float] 0.1%float = Ok ([10%Z], [1e-200%float])
  ∧ unit_within_tolerance [1e-200%float] = false.
Proof. split; vm_compute; reflexivity. Qed.

Example bin_peaks_infinite_mass :
  bin_peaks [(infinity, 1.0)%float] 0.1%float = Raise OverflowError.
Proof. vm_compute. reflexivity. Qed.

(** C4, as amended.  For every binary64 peak list with at least one peak of
    positive intensity and non-negative mass, and every bin width for which
    the bins of the surviving peaks are defined (finite quotients), the
    transform returns a non-empty vector whose indices are strictly
    increasing without duplicates and whose values are as many as the
    indices.  Over the real numbers, for every positive bin width, the sum
    of the squared values is moreover exactly 1. *)
Theorem bin_peaks_fingerprint :
  (∀ (peaks : list (float * float)) (w : float),
     bins_defined skip_nonpositive peaks w →
     Exists (λ p, PrimFloat.ltb 0 p.2 = true ∧ PrimFloat.leb 0 p.1 = true) peaks →
     ∃ indices values,
       bin_peaks peaks w = Ok (indices, values)
       ∧ indices ≠ [] ∧ StronglySorted Z.lt indices ∧ NoDup indices
       ∧ length values = length indices)
  ∧ (∀ (peaks : list (R * R)) (w : R),
       (0 < w)%R →
       Exists (λ p, (0 < p.2)%R ∧ (0 <= p.1)%R) peaks →
       ∃ indices values,
         bin_peaks peaks w = Ok (indices, values)
         ∧ indices ≠ [] ∧ StronglySorted Z.lt indices ∧ NoDup indices
         ∧ length values = length indices
         ∧ sum_squares values = 1%R).
Proof.
  split.
  - intros peaks w Hd Hex. by apply bin_peaks_structure.
  - intros peaks w Hw Hex. by apply exact_bin_peaks_unit.
Qed.

(** The two parts of C4 on the spectrum of the end-to-end scenario and on a
    real spectrum. *)
Lemma bin_peaks_fingerprint_witness :
  (∃ indices values,
     bin_peaks [(0.5, 10.0); (0.5, 0.0)]%float 0.1%float = Ok (indices, values)
     ∧ indices ≠ [] ∧ StronglySorted Z.lt indices ∧ NoDup indices
     ∧ length values = length indices)
  ∧ (∃ indices values,
       bin_peaks [(3, 4); (5, 12)]%R 1%R = Ok (indices, values)
       ∧ indices ≠ [] ∧ StronglySorted Z.lt indices ∧ NoDup indices
       ∧ length values = length indices
       ∧ sum_squares values = 1%R).
Proof.
  destruct bin_peaks_fingerprint as [Hfloat Hreal]. split.
  - apply Hfloat.
    + apply bins_defined_check. vm_compute. reflexivity.
    + left. split; vm_compute; reflexivity.
  - apply Hreal; [lra|]. left. cbn. lra.
Defined.

(** C5.  The loop of [bin_peaks] adds up, from left to right and starting
    from 0.0, the intensities of all surviving peaks that fall into the
    same bin [floor(mz / bin_size)]; a bin no surviving peak falls into is
    absent.  The peaks (0.05, 1.0) and (0.09, 2.0) with bin width 0.1 both
    fall into bin 0, which holds 3.0 before the normalisation. *)
Theorem bin_loop_additive :
  (∀ (peaks : list (float * float)) (w : float) (k : Z),
     bins_defined skip_nonpositive peaks w →
     ∃ acc,
       bin_loop skip_nonpositive peaks w ∅ = Ok acc
       ∧ acc !! k = match colliding skip_nonpositive peaks w k with
                    | [] => None
                    | xs => Some (fold_left PrimFloat.add xs 0%float)
                    end)
  ∧ bin_index 0.1%float 0.05%float = Ok 0%Z
  ∧ bin_index 0.1%float 0.09%float = Ok 0%Z
  ∧ bin_loop skip_nonpositive [(0.05, 1.0); (0.09, 2.0)]%float 0.1%float ∅
    = Ok {[ 0%Z := 3.0%float ]}.
Proof.
  split; [|split; [|split]]; try (vm_compute; reflexivity).
  intros peaks w k Hd. eexists. split; [by apply bin_loop_contributions|].
  by rewrite fold_add_to_lookup, at_bin_contributions, lookup_empty.
Qed.

(** The general part of C5 on the two colliding peaks. *)
Lemma bin_loop_additive_witness :
  ∃ acc,
    bin_loop skip_nonpositive [(0.05, 1.0); (0.09, 2.0)]%float 0.1%float ∅ = Ok acc
    ∧ acc !! 0%Z
      = match colliding skip_nonpositive [(0.05, 1.0); (0.09, 2.0)]%float 0.1%float 0%Z with
        | [] => None
        | xs => Some (fold_left PrimFloat.add xs 0%float)
        end.
Proof.
  destruct bin_loop_additive as [Hgen _]. apply Hgen.
  apply bins_defined_check. vm_compute. reflexivity.
Defined.

(** C6, counterexample: moving the first of four peaks behind the third
    changes the result.  Three of them share bin 0; added in one order their
    intensities give 0.6000000000000001, in the other 0.6, and the
    normalised value of bin 10 differs in its last bit. *)
Lemma bin_peaks_order_dependent :
  [(0.05, 0.1); (0.06, 0.2); (0.07, 0.3); (1.0, 1.0)]%float
    ≡ₚ [(0.06, 0.2); (0.07, 0.3); (0.05, 0.1); (1.0, 1.0)]%float
  ∧ bin_peaks [(0.05, 0.1); (0.06, 0.2); (0.07, 0.3); (1.0, 1.0)]%float 0.1%float
    = Ok ([0%Z; 10%Z], [0.51449575542752657; 0.8574929257125441]%float)
  ∧ bin_peaks [(0.06, 0.2); (0.07, 0.3); (0.05, 0.1); (1.0, 1.0)]%float 0.1%float
    = Ok ([0%Z; 10%Z], [0.51449575542752657; 0.85749292571254432]%float)
  ∧ PrimFloat.eqb 0.8574929257125441 0.85749292571254432 = false.
Proof.
  split; [|split; [|split]]; try (vm_compute; reflexivity).
  apply (Permutation_middle [(0.06, 0.2); (0.07, 0.3)]%float [(1.0, 1.0)]%float).
Qed.

(** C6, as amended.  For every binary64 peak list, every permutation of it
    and every bin width for which the bins of the surviving peaks are
    defined, the transform returns the same indices on both orderings, and
    the same values when no two surviving peaks share a bin.  Over the real
    numbers, for every positive bin width, it returns the same vector on
    both orderings. *)
Theorem bin_peaks_permutation :
  (∀ (peaks peaks' : list (float * float)) (w : float),
     peaks ≡ₚ peaks' →
     bins_defined skip_nonpositive peaks w →
     ∃ indices values values',
       bin_peaks peaks w = Ok (indices, values)
       ∧ bin_peaks peaks' w = Ok (indices, values')
       ∧ (NoDup (contributions skip_nonpositive peaks w).*1 → values = values'))
  ∧ (∀ (peaks peaks' : list (R * R)) (w : R),
       (0 < w)%R → peaks ≡ₚ peaks' → bin_peaks peaks w = bin_peaks peaks' w).
Proof.
  split.
  - intros peaks peaks' w Hp Hd. by apply bin_peaks_perm.
  - intros peaks peaks' w Hw Hp. by apply exact_bin_peaks_perm.
Qed.

(** The two parts of C6 on a swap of two peaks. *)
Lemma bin_peaks_permutation_witness :
  (∃ indices values,
     bin_peaks [(0.5, 10.0); (1.0, 2.0)]%float 0.1%float = Ok (indices, values)
     ∧ bin_peaks [(1.0, 2.0); (0.5, 10.0)]%float 0.1%float = Ok (indices, values))
  ∧ bin_peaks [(3, 4); (5, 12)]%R 1%R = bin_peaks [(5, 12); (3, 4)]%R 1%R.
Proof.
  destruct bin_peaks_permutation as [Hfloat Hreal]. split.
  - destruct (Hfloat [(0.5, 10.0); (1.0, 2.0)]%float [(1.0, 2.0); (0.5, 10.0)]%float 0.1%float)
      as (indices & values & values' & E1 & E2 & Hv).
    + apply perm_swap.
    + apply bins_defined_check. vm_compute. reflexivity.
    + exists indices, values. split; [exact E1|].
      rewrite E2. f_equal. f_equal. symmetry. apply Hv.
      apply (bool_decide_unpack _). vm_compute. exact I.
  - apply Hreal; [lra|]. apply perm_swap.
Defined.

(** ** The text extractor *)

Section parse_msp_facts.
Context {F : Type} (float_of_token : string → option F).
Implicit Types (b : buffer F) (s : spectrum F).

Lemma truthy_list_true {A} (l : list A) : truthy_list l = true ↔ l ≠ [].
Proof. by destruct l. Qed.

Lemma truthy_list_false {A} (l : list A) : truthy_list l = false ↔ l = [].
Proof. by destruct l. Qed.

Lemma yield_current_peaks b s : s ∈ yield_current b → spec_peaks s ≠ [].
Proof.
  unfold yield_current. destruct (truthy_list (peaks b)) eqn:Hp.
  - intros ->%list_elem_of_singleton. cbn. by apply truthy_list_true.
  - by intros ?%elem_of_nil.
Qed.

Lemma parse_line_emits b raw :
  (parse_line float_of_token b raw).2 = []
  ∨ (parse_line float_of_token b raw).2 = yield_current b.
Proof.
  unfold parse_line. destruct (String.eqb (strip raw) "").
  { destruct (truthy_list (peaks b) || truthy_dict (meta b)); auto. }
  destruct (negb (in_peaks b)).
  { destruct (split_colon (strip raw)) as [[key value]|]; [|auto].
    destruct (String.eqb (lower (strip key)) "num peaks"); auto. }
  destruct (split (strip raw)) as [|p0 [|p1 ?]]; auto.
  destruct (float_of_token p0), (float_of_token p1); auto.
Qed.

(** Whatever the lines, a record that comes out has peaks. *)
Lemma parse_lines_peaks lines : ∀ b s,
  s ∈ parse_lines float_of_token b lines → spec_peaks s ≠ [].
Proof.
  induction lines as [|raw rest IH]; intros b s; cbn [parse_lines].
  - destruct (truthy_list (peaks b) || truthy_dict (meta b)).
    + apply yield_current_peaks.
    + by intros ?%elem_of_nil.
  - pose proof (parse_line_emits b raw) as He.
    destruct (parse_line float_of_token b raw) as [b' out]. cbn [snd] in He.
    intros [Hin|Hin]%elem_of_app; [|by eapply IH].
    destruct He as [-> | ->]; [by apply elem_of_nil in Hin|].
    by eapply yield_current_peaks.
Qed.

End parse_msp_facts.

(** C3, counterexample: after the line "NAME: foo" the buffer holds
    metadata (and no peaks).  The blank line that follows clears the buffer
    and emits nothing; neither does the end of the input. *)
Lemma parse_msp_drops_metadata_only :
  parse_line decimal_literal empty_buffer "NAME: foo"
  = (Buffer {[ "NAME" := "foo" ]} [] false, [])
  ∧ truthy_dict {[ "NAME" := "foo" ]} = true
  ∧ parse_line decimal_literal (Buffer {[ "NAME" := "foo" ]} [] false) ""
    = (empty_buffer, [])
  ∧ parse_msp decimal_literal ["NAME: foo"; ""] = []
  ∧ parse_msp decimal_literal ["NAME: foo"] = [].
Proof. repeat split; vm_compute; reflexivity. Qed.

(** C3, as amended.  When a blank line is read or the end of the input is
    reached and the buffer holds at least one peak, the buffered record
    (metadata and peaks) is emitted, and a blank line resets the buffer.
    When the buffer holds no peak nothing is emitted, whether it holds
    metadata or not.  Hence every record the extractor produces has at least
    one peak. *)
Theorem parse_msp_emits_records_with_peaks :
  ∀ (F : Type) (float_of_token : string → option F),
    (∀ (b : buffer F) raw, strip raw = "" → peaks b ≠ [] →
       parse_line float_of_token b raw
       = (empty_buffer, [Spectrum (meta b) (peaks b)]))
    ∧ (∀ (b : buffer F), peaks b ≠ [] →
         parse_lines float_of_token b [] = [Spectrum (meta b) (peaks b)])
    ∧ (∀ (b : buffer F) raw, strip raw = "" → peaks b = [] →
         (parse_line float_of_token b raw).2 = [])
    ∧ (∀ (b : buffer F), peaks b = [] → parse_lines float_of_token b [] = [])
    ∧ (∀ lines (s : spectrum F),
         s ∈ parse_msp float_of_token lines → spec_peaks s ≠ []).
Proof.
  intros F float_of_token. repeat split.
  - intros b raw Hblank Hp. unfold parse_line. rewrite Hblank. cbn [String.eqb].
    apply truthy_list_true in Hp. unfold yield_current. by rewrite Hp.
  - intros b Hp. cbn [parse_lines].
    apply truthy_list_true in Hp. unfold yield_current. by rewrite Hp.
  - intros b raw Hblank Hp. unfold parse_line. rewrite Hblank. cbn [String.eqb].
    unfold yield_current. rewrite Hp. cbn.
    by destruct (truthy_dict (meta b)).
  - intros b Hp. cbn [parse_lines]. unfold yield_current. rewrite Hp. cbn.
    by destruct (truthy_dict (meta b)).
  - intros lines s. apply parse_lines_peaks.
Qed.

(** The four cases of C3 on a buffer with a peak and on one with metadata
    only. *)
Lemma parse_msp_emits_records_with_peaks_witness :
  parse_line decimal_literal (Buffer {[ "NAME" := "foo" ]} [(1.0, 5.0)%float] true) "  "
  = (empty_buffer, [Spectrum {[ "NAME" := "foo" ]} [(1.0, 5.0)%float]])
  ∧ parse_lines decimal_literal (Buffer {[ "NAME" := "foo" ]} [(1.0, 5.0)%float] true) []
    = [Spectrum {[ "NAME" := "foo" ]} [(1.0, 5.0)%float]]
  ∧ (parse_line decimal_literal (Buffer {[ "NAME" := "foo" ]} [] false) "").2 = []
  ∧ parse_lines decimal_literal (Buffer {[ "NAME" := "foo" ]} [] false) [] = [].
Proof.
  destruct (parse_msp_emits_records_with_peaks float decimal_literal)
    as (Hblank & Hend & Hblank' & Hend' & _).
  split; [|split; [|split]].
  - apply Hblank; [reflexivity|discriminate].
  - apply Hend. discriminate.
  - apply Hblank'; reflexivity.
  - apply Hend'. reflexivity.
Defined.

(** ** MSP ingestion *)

Section ingest_msp_facts.
Context `{Number F}.
Variable server : nat → response F.
Variable uuid4 : nat → string.
Variable api_url : string.
Variable bin_size : F.
Variable batch_size : Z.
Variable id_key : option string.

Local Abbreviation ingest := (IngestMsp.ingest server uuid4 api_url bin_size batch_size id_key).
Local Abbreviation upsert_url := (rstrip_slash api_url +:+ "/upsert").
Local Abbreviation points_from := (msp_points uuid4 bin_size id_key).

(** One request, and an exception when the status is 300 or more. *)
Lemma msp_upsert_batch_eq batch (w : world string F) :
  IngestMsp.upsert_batch server api_url batch w
  = (World (requests w ++ [PostUpsert upsert_url batch]) (drawn w) (stdout w),
     if (300 <=? status_code (server (length (requests w))))%Z
     then Raise (RuntimeError (status_code (server (length (requests w)))))
     else Ok ()).
Proof.
  unfold IngestMsp.upsert_batch, mbind, io_mbind, io_bind, post. cbn.
  by destruct (300 <=? status_code (server (length (requests w))))%Z.
Qed.

(** One iteration of the loop, with the world passed explicitly. *)
Lemma msp_ingest_cons spec rest batch total (w : world string F) :
  ingest (spec :: rest) batch total w
  = match bin_peaks (spec_peaks spec) bin_size with
    | Raise e => (w, Raise e)
    | Ok ([], _) => ingest rest batch total w
    | Ok (indices, values) =>
        let p := Point (uuid4 (drawn w)) (indices, values)
                       (IngestMsp.payload id_key (spec_metadata spec)) in
        if (batch_size <=? Z.of_nat (length (batch ++ [p])))%Z then
          let w2 := World (requests w ++ [PostUpsert upsert_url (batch ++ [p])])
                          (S (drawn w)) (stdout w) in
          if (300 <=? status_code (server (length (requests w))))%Z
          then (w2, Raise (RuntimeError (status_code (server (length (requests w))))))
          else ingest rest [] (total + length (batch ++ [p])) w2
        else ingest rest (batch ++ [p]) total
                    (World (requests w) (S (drawn w)) (stdout w))
    end.
Proof.
  cbn [IngestMsp.ingest]. unfold mbind at 1, io_mbind, io_bind at 1, lift.
  destruct (bin_peaks (spec_peaks spec) bin_size) as [[indices values]|e]; [|done].
  destruct indices as [|i indices]; [done|].
  cbn [truthy_list length Nat.eqb negb].
  unfold mbind at 1, io_bind at 1, new_uuid. cbn [requests drawn stdout].
  destruct (batch_size <=? _)%Z; [|done].
  unfold mbind at 1, io_bind at 1. rewrite msp_upsert_batch_eq.
  cbn [requests drawn stdout].
  by destruct (300 <=? status_code (server (length (requests w))))%Z.
Qed.

(** Records after an exception are never looked at. *)
Lemma msp_ingest_app specs1 specs2 : ∀ batch total (w : world string F),
  ingest (specs1 ++ specs2) batch total w
  = match ingest specs1 batch total w with
    | (w', Ok (batch', total')) => ingest specs2 batch' total' w'
    | (w', Raise e) => (w', Raise e)
    end.
Proof.
  induction specs1 as [|spec rest IH]; intros batch total w.
  - done.
  - rewrite <- app_comm_cons, !msp_ingest_cons.
    destruct (bin_peaks (spec_peaks spec) bin_size) as [[[|i indices] values]|e];
      [apply IH| |done].
    cbn zeta. destruct (batch_size <=? _)%Z; [|apply IH].
    destruct (300 <=? _)%Z; [done|apply IH].
Qed.

(** What a run of the loop does to the world: it prints nothing, it only
    adds requests, and a request answered with a status of 300 or more is
    the last one, the loop ending with [RuntimeError]. *)
Lemma msp_ingest_trace specs : ∀ batch total (w w' : world string F) r,
  ingest specs batch total w = (w', r) →
  stdout w' = stdout w
  ∧ ∃ new, requests w' = requests w ++ new
    ∧ ∀ j, j < length new →
        (300 <= status_code (server (length (requests w) + j)))%Z →
        S j = length new
        ∧ r = Raise (RuntimeError (status_code (server (length (requests w) + j)))).
Proof.
  induction specs as [|spec rest IH]; intros batch total w w' r.
  - intros [= <- <-]. split; [done|]. exists []. split; [by rewrite app_nil_r|].
    cbn. lia.
  - rewrite msp_ingest_cons.
    destruct (bin_peaks (spec_peaks spec) bin_size) as [[[|i indices] values]|e].
    + apply IH.
    + cbn zeta. destruct (batch_size <=? _)%Z.
      * destruct (300 <=? _)%Z eqn:Hst.
        -- intros [= <- <-]. cbn [stdout requests]. split; [done|].
           eexists. split; [done|]. cbn [length]. intros j Hj _.
           assert (j = 0) as -> by lia. by rewrite Nat.add_0_r.
        -- intros Hrun. apply IH in Hrun as (Hout & new & Hreq & Hfail).
           cbn [stdout requests] in *. split; [done|].
           exists (PostUpsert upsert_url
                     (batch ++ [Point (uuid4 (drawn w)) (i :: indices, values)
                                      (IngestMsp.payload id_key (spec_metadata spec))])
                   :: new).
           split; [by rewrite Hreq, <- app_assoc|].
           intros j Hj Hbad. rewrite length_app in Hfail. cbn [length] in *.
           destruct j as [|j].
           { rewrite Nat.add_0_r in Hbad. apply Z.leb_gt in Hst. lia. }
           destruct (Hfail j) as [Hlast ->]; [lia| |].
           { by replace (length (requests w) + 1 + j) with (length (requests w) + S j) by lia. }
           split; [lia|].
           by replace (length (requests w) + 1 + j) with (length (requests w) + S j) by lia.
      * intros Hrun. apply IH in Hrun as (Hout & new & Hreq & Hfail).
        cbn [stdout requests] in *. eauto.
    + intros [= <- <-]. split; [done|]. exists []. split; [by rewrite app_nil_r|].
      cbn. lia.
Qed.

(** The points sent, followed by the pending batch, are the points built
    from the records; when the loop is cut short, the points sent are the
    first of them. *)
Lemma msp_ingest_points specs : ∀ batch total (w w' : world string F) r,
  ingest specs batch total w = (w', r) →
  ∃ new, requests w' = requests w ++ new
    ∧ match r with
      | Ok (batch', _) => posted new ++ batch' = batch ++ points_from specs (drawn w)
      | Raise _ => posted new `prefix_of` batch ++ points_from specs (drawn w)
      end.
Proof.
  induction specs as [|spec rest IH]; intros batch total w w' r.
  - intros [= <- <-]. exists []. split; [by rewrite app_nil_r|].
    cbn. by rewrite app_nil_r.
  - rewrite msp_ingest_cons. cbn [msp_points].
    destruct (bin_peaks (spec_peaks spec) bin_size) as [[[|i indices] values]|e].
    + apply IH.
    + cbn zeta.
      set (p := Point (uuid4 (drawn w)) (i :: indices, values)
                      (IngestMsp.payload id_key (spec_metadata spec))).
      destruct (batch_size <=? _)%Z.
      * destruct (300 <=? _)%Z.
        -- intros [= <- <-]. cbn [requests]. eexists. split; [done|].
           unfold posted. cbn. rewrite app_nil_r.
           exists (points_from rest (S (drawn w))). by rewrite <- app_assoc.
        -- intros Hrun. apply IH in Hrun as (new & Hreq & Hpts).
           cbn [requests drawn] in *.
           exists (PostUpsert upsert_url (batch ++ [p]) :: new).
           split; [by rewrite Hreq, <- app_assoc|].
           unfold posted in *. rewrite bind_cons.
           destruct r as [[batch' total']|e].
           ++ rewrite <- !app_assoc, Hpts. done.
           ++ cbn [app] in Hpts. destruct Hpts as [k Hk]. exists k.
              rewrite Hk, <- !app_assoc. done.
      * intros Hrun. apply IH in Hrun as (new & Hreq & Hpts).
        cbn [requests drawn] in *. exists new. split; [done|].
        by rewrite <- app_assoc in Hpts.
    + intros [= <- <-]. exists []. split; [by rewrite app_nil_r|].
      apply prefix_nil.
Qed.

(** The whole run, with the world passed explicitly. *)
Lemma msp_main_eq float_of_token lines (w : world string F) :
  IngestMsp.main float_of_token server uuid4 api_url bin_size batch_size id_key lines w
  = match ingest (parse_msp float_of_token lines) [] 0 w with
    | (w1, Raise e) => (w1, Raise e)
    | (w1, Ok ([], total)) =>
        (World (requests w1) (drawn w1) (stdout w1 ++ [IngestedLine total]), Ok 0%Z)
    | (w1, Ok (batch, total)) =>
        let reqs := requests w1 ++ [PostUpsert upsert_url batch] in
        if (300 <=? status_code (server (length (requests w1))))%Z
        then (World reqs (drawn w1) (stdout w1),
              Raise (RuntimeError (status_code (server (length (requests w1))))))
        else (World reqs (drawn w1) (stdout w1 ++ [IngestedLine (total + length batch)]),
              Ok 0%Z)
    end.
Proof.
  unfold IngestMsp.main, mbind at 1, io_mbind, io_bind at 1.
  destruct (ingest (parse_msp float_of_token lines) [] 0 w) as [w1 [[batch total]|e]];
    [|done].
  destruct batch as [|p batch]; [done|].
  cbn [truthy_list length Nat.eqb negb].
  unfold mbind at 1, io_bind at 1, mbind at 1, io_bind at 1.
  rewrite msp_upsert_batch_eq. cbn [requests drawn stdout].
  by destruct (300 <=? status_code (server (length (requests w1))))%Z.
Qed.

End ingest_msp_facts.

Lemma posted_app {I F} (l1 l2 : list (request I F)) :
  posted (l1 ++ l2) = posted l1 ++ posted l2.
Proof. unfold posted. apply bind_app. Qed.

Lemma msp_points_ids `{Number F} uuid4 (bin_size : F) id_key specs : ∀ k,
  id <$> msp_points uuid4 bin_size id_key specs k
  = uuid4 <$> seq k (length (msp_points uuid4 bin_size id_key specs k)).
Proof.
  induction specs as [|spec rest IH]; intros k; cbn [msp_points]; [done|].
  destruct (bin_peaks (spec_peaks spec) bin_size) as [[[|i indices] values]|e];
    [apply IH| |done].
  cbn [fmap list_fmap length seq id]. f_equal. apply IH.
Qed.

Lemma msp_points_payload `{Number F} uuid4 (bin_size : F) id_key specs : ∀ k p,
  p ∈ msp_points uuid4 bin_size id_key specs k →
  ∃ spec, spec ∈ specs ∧ metadata p = IngestMsp.payload id_key (spec_metadata spec).
Proof.
  induction specs as [|spec rest IH]; intros k p; cbn [msp_points].
  { by intros ?%elem_of_nil. }
  destruct (bin_peaks (spec_peaks spec) bin_size) as [[[|i indices] values]|e].
  - intros (s & ? & ?)%IH. exists s. split; [by right|done].
  - intros [->|Hin]%elem_of_cons.
    + exists spec. split; [by left|done].
    + apply IH in Hin as (s & ? & ?). exists s. split; [by right|done].
  - by intros ?%elem_of_nil.
Qed.

(** C7.  In the MSP ingestion, an upsert answered with a status of 300 or
    more ends the run at once with [RuntimeError]: the rejected request is
    the last request of the run (the batch is not sent again, no later
    batch is sent), the final line is not printed, and the records that
    follow are never looked at, the outcome being the same whatever they
    are. *)
Theorem msp_upsert_failure_aborts :
  ∀ (F : Type) (HF : Number F) (float_of_token : string → option F)
    (server : nat → response F) (uuid4 : nat → string)
    (api_url : string) (bin_size : F) (batch_size : Z) (id_key : option string),
    (∀ lines (w w' : world string F) r,
       IngestMsp.main float_of_token server uuid4 api_url bin_size batch_size id_key lines w
       = (w', r) →
       ∀ j, length (requests w) ≤ j < length (requests w') →
         (300 <= status_code (server j))%Z →
         r = Raise (RuntimeError (status_code (server j)))
         ∧ S j = length (requests w')
         ∧ stdout w' = stdout w)
    ∧ (∀ specs1 specs2 batch total (w w' : world string F) e,
         IngestMsp.ingest server uuid4 api_url bin_size batch_size id_key
           specs1 batch total w = (w', Raise e) →
         IngestMsp.ingest server uuid4 api_url bin_size batch_size id_key
           (specs1 ++ specs2) batch total w = (w', Raise e)).
Proof.
  intros F HF float_of_token server uuid4 api_url bin_size batch_size id_key. split.
  - intros lines w w' r. rewrite msp_main_eq.
    destruct (IngestMsp.ingest _ _ _ _ _ _ _ _ _ w) as [w1 r1] eqn:Hloop.
    apply msp_ingest_trace in Hloop as (Hout & new & Hreq & Hfail).
    destruct r1 as [[[|p batch] total]|e].
    + intros [= <- <-] j Hj Hbad. cbn [requests] in Hj.
      rewrite Hreq, length_app in Hj.
      destruct (Hfail (j - length (requests w))) as [_ ?]; [lia| |done].
      by replace (length (requests w) + (j - length (requests w))) with j by lia.
    + cbn zeta. destruct (300 <=? _)%Z eqn:Hst.
      * intros [= <- <-] j Hj Hbad. cbn [requests stdout] in *.
        rewrite length_app in Hj. cbn [length] in Hj.
        destruct (decide (j = length (requests w1))) as [->|Hne].
        { rewrite length_app. cbn [length]. repeat split; [lia|done]. }
        rewrite Hreq, length_app in Hj, Hne.
        destruct (Hfail (j - length (requests w))) as [_ ?]; [lia| |done].
        by replace (length (requests w) + (j - length (requests w))) with j by lia.
      * intros [= <- <-] j Hj Hbad. cbn [requests stdout] in *.
        rewrite length_app in Hj. cbn [length] in Hj.
        destruct (decide (j = length (requests w1))) as [->|Hne].
        { apply Z.leb_gt in Hst. lia. }
        rewrite Hreq, length_app in Hj, Hne.
        destruct (Hfail (j - length (requests w))) as [_ ?]; [lia| |done].
        by replace (length (requests w) + (j - length (requests w))) with j by lia.
    + intros [= <- <-] j Hj Hbad. rewrite Hreq, length_app in Hj.
      destruct (Hfail (j - length (requests w))) as [Hlast Hr]; [lia| |].
      { by replace (length (requests w) + (j - length (requests w))) with j by lia. }
      replace (length (requests w) + (j - length (requests w))) with j in Hr by lia.
      injection Hr as ->. rewrite Hreq, length_app. repeat split; [lia|done].
  - intros specs1 specs2 batch total w w' e Hrun.
    by rewrite msp_ingest_app, Hrun.
Qed.

(** C7 on the two-record library with batches of one and a service that
    rejects the second request. *)
Lemma msp_upsert_failure_aborts_witness :
  (IngestMsp.main decimal_literal failing_server sample_uuid4 "http://localhost:8000"
     0.1%float 1 None sample_library initial_world).2
  = Raise (RuntimeError (status_code (failing_server 1)))
  ∧ 2 = length (requests (IngestMsp.main decimal_literal failing_server sample_uuid4
                            "http://localhost:8000" 0.1%float 1 None sample_library
                            initial_world).1)
  ∧ stdout (IngestMsp.main decimal_literal failing_server sample_uuid4
              "http://localhost:8000" 0.1%float 1 None sample_library initial_world).1
    = stdout (initial_world : world string float).
Proof.
  destruct (msp_upsert_failure_aborts float binary64 decimal_literal failing_server
              sample_uuid4 "http://localhost:8000" 0.1%float 1 None) as [Hmain _].
  apply (Hmain sample_library initial_world).
  - apply surjective_pairing.
  - vm_compute. lia.
  - vm_compute. discriminate.
Defined.

(** C10.  In the MSP ingestion the points sent are, in order, the points
    built from the records with a non-empty fingerprint (all of them when
    the run succeeds, the first of them when it is cut short).  The id of
    the n-th point is the n-th identifier drawn from the UUID generator, one
    draw per point, whatever the record's metadata holds.  The payload of a
    point is the metadata of its record, to which [original_id] is added
    with the value of the id key when that key is configured (a non-empty
    string) and present and [original_id] is not yet set; a metadata that
    already has [original_id] is left as it is, and so is every metadata
    when no id key is configured or the key is absent. *)
Theorem msp_point_ids_and_payload :
  ∀ (F : Type) (HF : Number F) (float_of_token : string → option F)
    (server : nat → response F) (uuid4 : nat → string)
    (api_url : string) (bin_size : F) (batch_size : Z) (id_key : option string),
    (∀ lines (w w' : world string F) r,
       IngestMsp.main float_of_token server uuid4 api_url bin_size batch_size id_key lines w
       = (w', r) →
       ∃ pts, posted (requests w') = posted (requests w) ++ pts
         ∧ pts `prefix_of` msp_points uuid4 bin_size id_key
                             (parse_msp float_of_token lines) (drawn w)
         ∧ (r = Ok 0%Z →
            pts = msp_points uuid4 bin_size id_key
                    (parse_msp float_of_token lines) (drawn w)))
    ∧ (∀ specs k,
         id <$> msp_points uuid4 bin_size id_key specs k
         = uuid4 <$> seq k (length (msp_points uuid4 bin_size id_key specs k)))
    ∧ (∀ specs k p,
         p ∈ msp_points uuid4 bin_size id_key specs k →
         ∃ spec, spec ∈ specs
           ∧ metadata p = IngestMsp.payload id_key (spec_metadata spec))
    ∧ (∀ m key orig,
         id_key = Some key → key ≠ EmptyString →
         m !! key = Some orig → m !! "original_id" = None →
         IngestMsp.payload id_key m = <["original_id" := orig]> m)
    ∧ (∀ m, is_Some (m !! "original_id") → IngestMsp.payload id_key m = m)
    ∧ (∀ m, id_key = None ∨ id_key = Some EmptyString
            ∨ (∃ key, id_key = Some key ∧ m !! key = None) →
            IngestMsp.payload id_key m = m).
Proof.
  intros F HF float_of_token server uuid4 api_url bin_size batch_size id_key.
  split; [|split; [|split; [|split; [|split]]]].
  - intros lines w w' r. rewrite msp_main_eq.
    destruct (IngestMsp.ingest _ _ _ _ _ _ _ _ _ w) as [w1 r1] eqn:Hloop.
    apply msp_ingest_points in Hloop as (new & Hreq & Hpts). cbn [app] in Hpts.
    destruct r1 as [[[|p batch] total]|e].
    + intros [= <- <-]. cbn [requests]. rewrite app_nil_r in Hpts.
      exists (posted new). rewrite Hreq, posted_app, Hpts. done.
    + cbn zeta. destruct (300 <=? _)%Z.
      * intros [= <- <-]. cbn [requests].
        exists (posted new ++ p :: batch).
        rewrite posted_app, Hreq, posted_app, <- app_assoc.
        split; [by unfold posted at 3; cbn; rewrite app_nil_r|].
        rewrite Hpts. done.
      * intros [= <- <-]. cbn [requests].
        exists (posted new ++ p :: batch).
        rewrite posted_app, Hreq, posted_app, <- app_assoc.
        split; [by unfold posted at 3; cbn; rewrite app_nil_r|].
        rewrite Hpts. done.
    + intros [= <- <-]. exists (posted new). rewrite Hreq, posted_app.
      split; [done|]. split; [done|]. discriminate.
  - apply msp_points_ids.
  - apply msp_points_payload.
  - intros m key orig -> Hkey Horig Hnone. unfold IngestMsp.payload.
    destruct (String.eqb_spec key ""); [done|]. cbn [negb].
    rewrite Horig. unfold IngestMsp.setdefault. by rewrite Hnone.
  - intros m [v Hv]. unfold IngestMsp.payload.
    destruct id_key as [key|]; [|done].
    destruct (negb (String.eqb key "")); [|done].
    destruct (m !! key); [|done]. unfold IngestMsp.setdefault. by rewrite Hv.
  - intros m [-> | [-> | (key & -> & Hnone)]]; unfold IngestMsp.payload; [done..|].
    destruct (negb (String.eqb key "")); [|done]. by rewrite Hnone.
Qed.

(** C10 on the two-record library with NAME as the id key. *)
Lemma msp_point_ids_and_payload_witness :
  (∃ pts,
     posted (requests (IngestMsp.main decimal_literal accepting_server sample_uuid4
                         "http://localhost:8000" 0.1%float 256 (Some "NAME")
                         sample_library initial_world).1)
     = posted (requests (initial_world : world string float)) ++ pts
     ∧ pts `prefix_of` msp_points sample_uuid4 0.1%float (Some "NAME")
                         (parse_msp decimal_literal sample_library)
                         (drawn (initial_world : world string float))
     ∧ ((IngestMsp.main decimal_literal accepting_server sample_uuid4
           "http://localhost:8000" 0.1%float 256 (Some "NAME")
           sample_library initial_world).2 = Ok 0%Z →
        pts = msp_points sample_uuid4 0.1%float (Some "NAME")
                (parse_msp decimal_literal sample_library)
                (drawn (initial_world : world string float))))
  ∧ IngestMsp.payload (Some "NAME") {[ "NAME" := "foo" ]}
    = <["original_id" := "foo"]> {[ "NAME" := "foo" ]}
  ∧ IngestMsp.payload (Some "NAME") {[ "NAME" := "foo"; "original_id" := "kept" ]}
    = {[ "NAME" := "foo"; "original_id" := "kept" ]}.
Proof.
  destruct (msp_point_ids_and_payload float binary64 decimal_literal accepting_server
              sample_uuid4 "http://localhost:8000" 0.1%float 256 (Some "NAME"))
    as (Hmain & _ & _ & Hadd & Hkeep & _).
  split; [|split].
  - apply (Hmain sample_library initial_world). apply surjective_pairing.
  - apply (Hadd _ "NAME" "foo"); [reflexivity|discriminate|reflexivity|reflexivity].
  - apply Hkeep. exists "kept". reflexivity.
Defined.

(** ** Tabular ingestion *)

Section ingest_sqlite_facts.
Context `{Number F} {I : Type}.
Variable json_floats : string → option (list F).
Variable server : nat → response F.
Variable api_url : string.
Variable bin_size : F.
Variable batch_size : Z.

Local Abbreviation ingest :=
  (IngestSqliteMain.ingest (I:=I) json_floats server api_url bin_size batch_size).
Local Abbreviation parse := (IngestSqliteMain.parse_json_array json_floats).
Local Abbreviation upsert_url := (rstrip_slash api_url +:+ "/upsert").

Lemma sqlite_upsert_batch_eq batch (w : world I F) :
  IngestSqliteMain.upsert_batch server api_url batch w
  = (World (requests w ++ [PostUpsert upsert_url batch]) (drawn w) (stdout w),
     if (300 <=? status_code (server (length (requests w))))%Z
     then Raise (RuntimeError (status_code (server (length (requests w)))))
     else Ok ()).
Proof.
  unfold IngestSqliteMain.upsert_batch, mbind, io_mbind, io_bind, post. cbn.
  by destruct (300 <=? status_code (server (length (requests w))))%Z.
Qed.

(** One iteration of the loop over the rows, with the world passed
    explicitly.  An exception of the transform is not caught. *)
Lemma sqlite_ingest_cons rid mz_json inten_json rest batch total (w : world I F) :
  ingest ((rid, mz_json, inten_json) :: rest) batch total w
  = match parse mz_json, parse inten_json with
    | Ok mz, Ok intensities =>
        match IngestSqlite.bin_spectrum mz intensities bin_size with
        | Raise e => (w, Raise e)
        | Ok ([], _) =>
            ingest rest batch total
              (World (requests w) (drawn w) (stdout w ++ [EmptySpectrumNote rid]))
        | Ok (indices, values) =>
            let p := Point rid (indices, values) ∅ in
            if (batch_size <=? Z.of_nat (length (batch ++ [p])))%Z then
              let w2 := World (requests w ++ [PostUpsert upsert_url (batch ++ [p])])
                              (drawn w) (stdout w) in
              if (300 <=? status_code (server (length (requests w))))%Z
              then (w2, Raise (RuntimeError (status_code (server (length (requests w))))))
              else ingest rest [] (total + length (batch ++ [p])) w2
            else ingest rest (batch ++ [p]) total w
        end
    | _, _ =>
        ingest rest batch total
          (World (requests w) (drawn w) (stdout w ++ [ParseErrorNote rid]))
    end.
Proof.
  cbn [IngestSqliteMain.ingest].
  destruct (parse mz_json) as [mz|e1]; cbn [mbind result_bind]; [|done].
  destruct (parse inten_json) as [intensities|e2]; cbn [mbind result_bind]; [|done].
  unfold mbind at 1, io_mbind, io_bind at 1, lift.
  destruct (IngestSqlite.bin_spectrum mz intensities bin_size)
    as [[[|i indices] values]|e]; [done| |done].
  cbn [truthy_list length Nat.eqb negb].
  destruct (batch_size <=? _)%Z; [|done].
  unfold mbind at 1, io_bind at 1. rewrite sqlite_upsert_batch_eq.
  cbn [requests drawn stdout].
  by destruct (300 <=? status_code (server (length (requests w))))%Z.
Qed.

Lemma sqlite_ingest_app (rows1 rows2 : list (I * option string * option string)) :
  ∀ batch total (w : world I F),
  ingest (rows1 ++ rows2) batch total w
  = match ingest rows1 batch total w with
    | (w', Ok (batch', total')) => ingest rows2 batch' total' w'
    | (w', Raise e) => (w', Raise e)
    end.
Proof.
  induction rows1 as [|[[rid mz_json] inten_json] rest IH]; intros batch total w.
  - done.
  - rewrite <- app_comm_cons, !sqlite_ingest_cons.
    destruct (parse mz_json) as [mz|e1]; [|apply IH].
    destruct (parse inten_json) as [intensities|e2]; [|apply IH].
    destruct (IngestSqlite.bin_spectrum mz intensities bin_size)
      as [[[|i indices] values]|e]; [apply IH| |done].
    cbn zeta. destruct (batch_size <=? _)%Z; [|apply IH].
    destruct (300 <=? _)%Z; [done|apply IH].
Qed.

Lemma sqlite_main_eq limit table (w : world I F) :
  IngestSqliteMain.main json_floats server api_url bin_size batch_size limit table w
  = match ingest (IngestSqliteMain.iter_rows limit table) [] 0 w with
    | (w1, Raise e) => (w1, Raise e)
    | (w1, Ok ([], total)) =>
        (World (requests w1) (drawn w1) (stdout w1 ++ [IngestedLine total]), Ok 0%Z)
    | (w1, Ok (batch, total)) =>
        let reqs := requests w1 ++ [PostUpsert upsert_url batch] in
        if (300 <=? status_code (server (length (requests w1))))%Z
        then (World reqs (drawn w1) (stdout w1),
              Raise (RuntimeError (status_code (server (length (requests w1))))))
        else (World reqs (drawn w1) (stdout w1 ++ [IngestedLine (total + length batch)]),
              Ok 0%Z)
    end.
Proof.
  unfold IngestSqliteMain.main. cbn zeta. unfold mbind at 1, io_mbind, io_bind at 1.
  destruct (ingest (IngestSqliteMain.iter_rows limit table) [] 0 w)
    as [w1 [[batch total]|e]]; [|done].
  destruct batch as [|p batch]; [done|].
  cbn [truthy_list length Nat.eqb negb].
  unfold mbind at 1, io_bind at 1, mbind at 1, io_bind at 1.
  rewrite sqlite_upsert_batch_eq. cbn [requests drawn stdout].
  by destruct (300 <=? status_code (server (length (requests w1))))%Z.
Qed.

(** The transform raises on arrays of different lengths, before anything
    else. *)
Lemma sqlite_bin_spectrum_mismatch (mz inten : list F) :
  length mz ≠ length inten →
  IngestSqlite.bin_spectrum mz inten bin_size
  = Raise (ValueError "mz_list and intensity_list lengths differ").
Proof.
  intros Hne. unfold IngestSqlite.bin_spectrum.
  by destruct (Nat.eqb_spec (length mz) (length inten)).
Qed.

End ingest_sqlite_facts.

(** C2, counterexample: the first row has two masses and one intensity.
    The run ends there with [ValueError]: nothing is printed, nothing is
    sent, and the second row, which alone is ingested, is never reached. *)
Lemma sqlite_length_mismatch_aborts :
  IngestSqliteMain.main decimal_array accepting_server "http://localhost:8000"
    0.1%float 256 (-1)
    [(1%Z, Some "[1,2]", Some "[1]"); (2%Z, Some "[1.0]", Some "[5.0]")]
    initial_world
  = (initial_world, Raise (ValueError "mz_list and intensity_list lengths differ"))
  ∧ IngestSqliteMain.main decimal_array accepting_server "http://localhost:8000"
      0.1%float 256 (-1)
      [(2%Z, Some "[1.0]", Some "[5.0]")]
      initial_world
    = (World [PostUpsert "http://localhost:8000/upsert"
                [Point 2%Z ([10%Z], [1%float]) ∅]] 0 [IngestedLine 1],
       Ok 0%Z).
Proof. split; vm_compute; reflexivity. Qed.

(** C2, as amended.  A row whose two arrays decode to lists of different
    lengths makes the transform raise [ValueError], which the loop does not
    catch: the run ends at that row with the world as the rows before it
    left it, so the row is not reported, the rows after it are not
    processed and the pending batch is not sent.  A row whose decode fails is
    reported with the parse-error note and skipped, and the loop goes on
    with the next row. *)
Theorem sqlite_bad_rows :
  ∀ (F : Type) (HF : Number F) (I : Type) (json_floats : string → option (list F))
    (server : nat → response F) (api_url : string) (bin_size : F)
    (batch_size limit : Z),
    (∀ (rid : I) mz_json inten_json mz inten rest batch total (w : world I F),
       IngestSqliteMain.parse_json_array json_floats mz_json = Ok mz →
       IngestSqliteMain.parse_json_array json_floats inten_json = Ok inten →
       length mz ≠ length inten →
       IngestSqliteMain.ingest json_floats server api_url bin_size batch_size
         ((rid, mz_json, inten_json) :: rest) batch total w
       = (w, Raise (ValueError "mz_list and intensity_list lengths differ")))
    ∧ (∀ table pre (rid : I) mz_json inten_json post mz inten
         (w w1 : world I F) batch total,
         IngestSqliteMain.iter_rows limit table = pre ++ (rid, mz_json, inten_json) :: post →
         IngestSqliteMain.parse_json_array json_floats mz_json = Ok mz →
         IngestSqliteMain.parse_json_array json_floats inten_json = Ok inten →
         length mz ≠ length inten →
         IngestSqliteMain.ingest json_floats server api_url bin_size batch_size
           pre [] 0 w = (w1, Ok (batch, total)) →
         IngestSqliteMain.main json_floats server api_url bin_size batch_size limit table w
         = (w1, Raise (ValueError "mz_list and intensity_list lengths differ")))
    ∧ (∀ (rid : I) mz_json inten_json rest batch total (w : world I F),
         is_ok (IngestSqliteMain.parse_json_array json_floats mz_json) = false
         ∨ is_ok (IngestSqliteMain.parse_json_array json_floats inten_json) = false →
         IngestSqliteMain.ingest json_floats server api_url bin_size batch_size
           ((rid, mz_json, inten_json) :: rest) batch total w
         = IngestSqliteMain.ingest json_floats server api_url bin_size batch_size
             rest batch total
             (World (requests w) (drawn w) (stdout w ++ [ParseErrorNote rid]))).
Proof.
  intros F HF I json_floats server api_url bin_size batch_size limit.
  split; [|split].
  - intros rid mz_json inten_json mz inten rest batch total w Hmz Hin Hlen.
    rewrite sqlite_ingest_cons, Hmz, Hin.
    by rewrite sqlite_bin_spectrum_mismatch.
  - intros table pre rid mz_json inten_json post mz inten w w1 batch total
      Hrows Hmz Hin Hlen Hpre.
    rewrite sqlite_main_eq, Hrows, sqlite_ingest_app, Hpre.
    rewrite sqlite_ingest_cons, Hmz, Hin.
    by rewrite sqlite_bin_spectrum_mismatch.
  - intros rid mz_json inten_json rest batch total w Hfail.
    rewrite sqlite_ingest_cons.
    destruct (IngestSqliteMain.parse_json_array json_floats mz_json); [|done].
    destruct (IngestSqliteMain.parse_json_array json_floats inten_json); [|done].
    by destruct Hfail.
Qed.

(** The three parts of C2 on tables with a row of unequal lengths and with a
    row that does not decode. *)
Lemma sqlite_bad_rows_witness :
  IngestSqliteMain.ingest decimal_array accepting_server "http://localhost:8000"
    0.1%float 256
    [(1%Z, Some "[1,2]", Some "[1]"); (2%Z, Some "[1.0]", Some "[5.0]")]
    [] 0 initial_world
  = (initial_world, Raise (ValueError "mz_list and intensity_list lengths differ"))
  ∧ IngestSqliteMain.main decimal_array accepting_server "http://localhost:8000"
      0.1%float 256 (-1)
      [(0%Z, Some "[1.0]", Some "[5.0]"); (1%Z, Some "[1,2]", Some "[1]");
       (2%Z, Some "[1.0]", Some "[5.0]")]
      initial_world
    = (initial_world, Raise (ValueError "mz_list and intensity_list lengths differ"))
  ∧ IngestSqliteMain.ingest decimal_array accepting_server "http://localhost:8000"
      0.1%float 256
      [(1%Z, Some "[1,", Some "[1]"); (2%Z, Some "[1.0]", Some "[5.0]")]
      [] 0 initial_world
    = IngestSqliteMain.ingest decimal_array accepting_server "http://localhost:8000"
        0.1%float 256
        [(2%Z, Some "[1.0]", Some "[5.0]")]
        [] 0 (World [] 0 [ParseErrorNote 1%Z]).
Proof.
  destruct (sqlite_bad_rows float binary64 Z decimal_array accepting_server
              "http://localhost:8000" 0.1%float 256 (-1))
    as (Hrow & Hmain & Hskip).
  split; [|split].
  - apply (Hrow 1%Z (Some "[1,2]") (Some "[1]") [1; 2]%float [1]%float);
      [vm_compute; reflexivity..|discriminate].
  - eapply (Hmain _ [(0%Z, Some "[1.0]", Some "[5.0]")] 1%Z (Some "[1,2]") (Some "[1]")
              [(2%Z, Some "[1.0]", Some "[5.0]")] [1; 2]%float [1]%float).
    + reflexivity.
    + vm_compute. reflexivity.
    + vm_compute. reflexivity.
    + discriminate.
    + vm_compute. reflexivity.
  - apply (Hskip 1%Z (Some "[1,") (Some "[1]")). left. vm_compute. reflexivity.
Defined.

(** C9, counterexample: the mass column of the first row is NULL and its
    intensity column holds one number.  The row is not skipped with the
    empty-spectrum note: the lengths 0 and 1 differ, the transform raises
    and the run ends there, before the second row. *)
Lemma sqlite_null_column_aborts :
  IngestSqliteMain.parse_json_array decimal_array None = Ok []
  ∧ IngestSqliteMain.main decimal_array accepting_server "http://localhost:8000"
      0.1%float 256 (-1)
      [(1%Z, None, Some "[1]"); (2%Z, Some "[1.0]", Some "[5.0]")]
      initial_world
    = (initial_world, Raise (ValueError "mz_list and intensity_list lengths differ")).
Proof. split; vm_compute; reflexivity. Qed.

(** C9, as amended.  [parse_json_array] returns the empty list for a NULL
    column, which is not a decode error.  A row with a NULL column is
    skipped with the empty-spectrum note when the other column is NULL too
    or decodes to the empty list; when the other column decodes to a
    non-empty list the lengths differ, the transform raises [ValueError] and
    the run ends; when the other column fails to decode the row is skipped
    with the parse-error note. *)
Theorem sqlite_null_columns :
  ∀ (F : Type) (HF : Number F) (I : Type) (json_floats : string → option (list F))
    (server : nat → response F) (api_url : string) (bin_size : F) (batch_size : Z),
    IngestSqliteMain.parse_json_array json_floats None = Ok []
    ∧ (∀ (rid : I) mz_json inten_json rest batch total (w : world I F),
         mz_json = None ∨ inten_json = None →
         IngestSqliteMain.ingest json_floats server api_url bin_size batch_size
           ((rid, mz_json, inten_json) :: rest) batch total w
         = match IngestSqliteMain.parse_json_array json_floats mz_json,
                 IngestSqliteMain.parse_json_array json_floats inten_json with
           | Ok [], Ok [] =>
               IngestSqliteMain.ingest json_floats server api_url bin_size batch_size
                 rest batch total
                 (World (requests w) (drawn w) (stdout w ++ [EmptySpectrumNote rid]))
           | Ok _, Ok _ =>
               (w, Raise (ValueError "mz_list and intensity_list lengths differ"))
           | _, _ =>
               IngestSqliteMain.ingest json_floats server api_url bin_size batch_size
                 rest batch total
                 (World (requests w) (drawn w) (stdout w ++ [ParseErrorNote rid]))
           end).
Proof.
  intros F HF I json_floats server api_url bin_size batch_size.
  split; [done|].
  intros rid mz_json inten_json rest batch total w Hnull.
  rewrite sqlite_ingest_cons.
  destruct Hnull as [-> | ->]; cbn [IngestSqliteMain.parse_json_array].
  - destruct (IngestSqliteMain.parse_json_array json_floats inten_json)
      as [[|x inten]|e]; [done| |done].
    by rewrite sqlite_bin_spectrum_mismatch.
  - destruct (IngestSqliteMain.parse_json_array json_floats mz_json)
      as [[|x mz]|e]; [done| |done].
    by rewrite sqlite_bin_spectrum_mismatch.
Qed.

(** C9 on a row whose two array columns are NULL. *)
Lemma sqlite_null_columns_witness :
  IngestSqliteMain.ingest decimal_array accepting_server "http://localhost:8000"
    0.1%float 256
    [(1%Z, None, None); (2%Z, Some "[1.0]", Some "[5.0]")]
    [] 0 initial_world
  = IngestSqliteMain.ingest decimal_array accepting_server "http://localhost:8000"
      0.1%float 256
      [(2%Z, Some "[1.0]", Some "[5.0]")]
      [] 0 (World [] 0 [EmptySpectrumNote 1%Z]).
Proof.
  destruct (sqlite_null_columns float binary64 Z decimal_array accepting_server
              "http://localhost:8000" 0.1%float 256) as [_ Hrow].
  apply (Hrow 1%Z None None). by left.
Defined.

(** ** Query *)

Section search_facts.
Context `{Number F}.
Variable float_of_token : string → option F.
Variable server : nat → response F.
Variable api_url : string.
Variable bin_size : F.
Variable limit : Z.

Local Abbreviation search_url := (rstrip_slash api_url +:+ "/search").

(** Printing the hits sends nothing and does not raise. *)
Lemma print_hits_eq l : ∀ i (w : world string F),
  ∃ out, SearchCsvMain.print_hits i l w
         = (World (requests w) (drawn w) (stdout w ++ out), Ok ()).
Proof.
  induction l as [|h rest IH]; intros i w; cbn [SearchCsvMain.print_hits].
  - exists []. by rewrite app_nil_r; destruct w.
  - unfold mbind, io_mbind, io_bind at 1, print.
    destruct (IH (S i) (World (requests w) (drawn w)
                          (stdout w ++ [HitLine i (hit_id h) (hit_score h)
                                          match hit_payload h with
                                          | Some payload => payload !! "NAME"
                                          | None => None
                                          end]))) as [out Hout].
    rewrite Hout. cbn [requests drawn stdout]. eexists. by rewrite <- app_assoc.
Qed.

(** The query run, with the world passed explicitly: the request is made
    in the branch of a non-empty vector only. *)
Lemma search_main_requests rows (w : world string F) :
  match SearchCsv.bin_spectrum (SearchCsvMain.read_csv_pairs float_of_token rows).1
          (SearchCsvMain.read_csv_pairs float_of_token rows).2 bin_size with
  | Raise e =>
      SearchCsvMain.main float_of_token server api_url bin_size limit rows w = (w, Raise e)
  | Ok ([], _) =>
      SearchCsvMain.main float_of_token server api_url bin_size limit rows w
      = (World (requests w) (drawn w) (stdout w ++ [NothingToSearch]), Ok 1%Z)
  | Ok (indices, values) =>
      requests (SearchCsvMain.main float_of_token server api_url bin_size limit rows w).1
      = requests w ++ [PostSearch search_url (indices, values) limit true]
  end.
Proof.
  unfold SearchCsvMain.main.
  destruct (SearchCsvMain.read_csv_pairs float_of_token rows) as [mz inten].
  cbn [fst snd]. unfold mbind, io_mbind, io_bind, lift.
  destruct (SearchCsv.bin_spectrum mz inten bin_size) as [[[|i indices] values]|e];
    [done| |done].
  replace (negb (truthy_list (i :: indices))) with false by reflexivity.
  unfold post, SearchCsvMain.raise_for_status.
  set (resp := server (length (requests w))).
  destruct ((400 <=? status_code resp)%Z && (status_code resp <? 600)%Z); [done|].
  cbn [mret io_mret io_ret].
  destruct (print_hits_eq (hits resp) 1
              (World (requests w ++ [PostSearch search_url (i :: indices, values) limit true])
                     (drawn w) (stdout w))) as [out Hout].
  unfold mbind, io_mbind, io_bind in Hout.
  by rewrite Hout.
Qed.

End search_facts.

(** C8.  In the query tool, when the transform of the query spectrum
    returns the empty vector the run prints the nothing-to-search line,
    returns 1 and leaves the list of requests as it was; when it returns a
    non-empty vector exactly one search request carrying that vector, the
    limit and [with_payload = True] is added; and a run that made a request
    had a non-empty fingerprint. *)
Theorem search_empty_fingerprint_no_request :
  ∀ (F : Type) (HF : Number F) (float_of_token : string → option F)
    (server : nat → response F) (api_url : string) (bin_size : F) (limit : Z)
    (rows : list (list string)) (w : world string F),
    (∀ values,
       SearchCsv.bin_spectrum (SearchCsvMain.read_csv_pairs float_of_token rows).1
         (SearchCsvMain.read_csv_pairs float_of_token rows).2 bin_size
       = Ok ([], values) →
       SearchCsvMain.main float_of_token server api_url bin_size limit rows w
       = (World (requests w) (drawn w) (stdout w ++ [NothingToSearch]), Ok 1%Z))
    ∧ (∀ i indices values,
         SearchCsv.bin_spectrum (SearchCsvMain.read_csv_pairs float_of_token rows).1
           (SearchCsvMain.read_csv_pairs float_of_token rows).2 bin_size
         = Ok (i :: indices, values) →
         requests (SearchCsvMain.main float_of_token server api_url bin_size limit rows w).1
         = requests w ++ [PostSearch (rstrip_slash api_url +:+ "/search")
                            (i :: indices, values) limit true])
    ∧ (requests (SearchCsvMain.main float_of_token server api_url bin_size limit rows w).1
       ≠ requests w →
       ∃ i indices values,
         SearchCsv.bin_spectrum (SearchCsvMain.read_csv_pairs float_of_token rows).1
           (SearchCsvMain.read_csv_pairs float_of_token rows).2 bin_size
         = Ok (i :: indices, values)).
Proof.
  intros F HF float_of_token server api_url bin_size limit rows w.
  pose proof (search_main_requests float_of_token server api_url bin_size limit rows w)
    as Hmain.
  destruct (SearchCsv.bin_spectrum _ _ bin_size) as [[[|i indices] values]|e].
  - split; [|split].
    + intros _ _. exact Hmain.
    + intros ??? [=].
    + rewrite Hmain. cbn [fst requests]. done.
  - split; [|split].
    + intros ? [=].
    + intros ??? [= <- <- <-]. exact Hmain.
    + eauto.
  - split; [|split].
    + intros ? [=].
    + intros ??? [=].
    + rewrite Hmain. cbn [fst]. done.
Qed.

(** C8 on a query whose only peak has zero intensity and on one with a
    surviving peak. *)
Lemma search_empty_fingerprint_no_request_witness :
  SearchCsvMain.main decimal_literal accepting_server "http://localhost:8000"
    0.1%float 10 [["0.5"; "0"]; ["mz"; "intensity"]] initial_world
  = (World [] 0 [NothingToSearch], Ok 1%Z)
  ∧ requests (SearchCsvMain.main decimal_literal accepting_server "http://localhost:8000"
                0.1%float 10 [["0.5"; "10"]; ["0.5"; "0"]] initial_world).1
    = [PostSearch "http://localhost:8000/search" ([5%Z], [1%float]) 10 true].
Proof.
  split.
  - destruct (search_empty_fingerprint_no_request float binary64 decimal_literal
                accepting_server "http://localhost:8000" 0.1%float 10
                [["0.5"; "0"]; ["mz"; "intensity"]] initial_world) as (Hempty & _ & _).
    apply (Hempty []). vm_compute. reflexivity.
  - destruct (search_empty_fingerprint_no_request float binary64 decimal_literal
                accepting_server "http://localhost:8000" 0.1%float 10
                [["0.5"; "10"]; ["0.5"; "0"]] initial_world) as (_ & Hsend & _).
    apply (Hsend 5%Z [] [1%float]). vm_compute. reflexivity.
Defined.

(** ** The scenarios of the specification, run on the model *)

(** The library of two records yields two records, in order. *)
Example parse_msp_two_records :
  parse_msp decimal_literal
    ["NAME: foo"; "Num Peaks: 2"; "1.0 5.0"; "2.0 10.0"; "";
     "NAME: bar"; "Num Peaks: 1"; "3.0 1.0"]
  = [Spectrum {[ "NAME" := "foo" ]} [(1.0, 5.0); (2.0, 10.0)]%float;
     Spectrum {[ "NAME" := "bar" ]} [(3.0, 1.0)%float]].
Proof. vm_compute. reflexivity. Qed.

(** The peak of zero intensity is dropped and the other one fills bin 5. *)
Example bin_peaks_end_to_end :
  bin_peaks [(0.5, 10.0); (0.5, 0.0)]%float 0.1%float = Ok ([5%Z], [1.0%float]).
Proof. vm_compute. reflexivity. Qed.

(** The transform is a function: the same peaks give the same vector. *)
Example bin_peaks_deterministic `{Number F} (peaks : list (F * F)) (w : F) :
  bin_peaks peaks w = bin_peaks peaks w.
Proof. reflexivity. Qed.

(** * Further properties of the transform *)

Section more_loop_facts.
Context `{Number F}.
Implicit Types (acc : gmap Z F) (peaks : list (F * F)).

(** The loop never looks at a skipped peak. *)
Lemma bin_loop_filter skip peaks w : ∀ acc,
  bin_loop skip (filter (λ p, skip p.1 p.2 = false) peaks) w acc
  = bin_loop skip peaks w acc.
Proof.
  induction peaks as [|[mz inten] rest IH]; intros acc; [done|].
  cbn [bin_loop]. destruct (skip mz inten) eqn:Hs.
  - rewrite filter_cons_False by (cbn; congruence). apply IH.
  - rewrite filter_cons_True by done. cbn [bin_loop]. rewrite Hs.
    destruct (bin_index w mz); [|done]. cbn. apply IH.
Qed.

(** Two tests that agree on the peaks give the same dictionary. *)
Lemma bin_loop_ext skip skip' peaks w : ∀ acc,
  Forall (λ p, skip p.1 p.2 = skip' p.1 p.2) peaks →
  bin_loop skip peaks w acc = bin_loop skip' peaks w acc.
Proof.
  induction peaks as [|[mz inten] rest IH]; intros acc Hall; [done|].
  apply Forall_cons in Hall as [Hp Hrest]. cbn in Hp.
  cbn [bin_loop]. rewrite Hp. destruct (skip' mz inten); [by apply IH|].
  destruct (bin_index w mz); [|done]. cbn. by apply IH.
Qed.

(** A loop that returns found a bin for every peak it kept. *)
Lemma bin_loop_ok_defined skip peaks w : ∀ acc acc',
  bin_loop skip peaks w acc = Ok acc' → bins_defined skip peaks w.
Proof.
  unfold bins_defined.
  induction peaks as [|[mz inten] rest IH]; intros acc acc'; [constructor|].
  cbn [bin_loop]. destruct (skip mz inten) eqn:Hs.
  - intros Hrun. constructor; [cbn; congruence|by eapply IH].
  - destruct (bin_index w mz) as [idx|e] eqn:Hb; [|done]. cbn.
    intros Hrun. constructor; [cbn; eauto|by eapply IH].
Qed.

(** The indices returned are the sorted bins of the dictionary, whatever
    happens to the values. *)
Lemma bin_finish_indices acc indices values :
  bin_finish acc = Ok (indices, values) →
  indices = (if Nat.eqb (size acc) 0 then [] else sorted_keys acc)
  ∧ length values = length indices.
Proof.
  unfold bin_finish. destruct (Nat.eqb (size acc) 0).
  { by intros [= <- <-]. }
  rewrite getitem_sorted_keys. cbn [mbind result_bind].
  destruct (fltb fzero _).
  - destruct (math_sqrt _) as [norm|e]; [|done]. cbn [mbind result_bind].
    destruct (rmap _ (raw_values acc)) as [values'|e] eqn:Hmap; [|done].
    cbn [mbind result_bind]. intros [= <- <-]. split; [done|].
    by rewrite (rmap_ok_length _ _ _ Hmap), raw_values_length.
  - intros [= <- <-]. split; [done|]. apply raw_values_length.
Qed.

(** Every kept peak with a bin contributes to it. *)
Lemma contributions_complete skip peaks w (mz x : F) k :
  (mz, x) ∈ peaks → skip mz x = false → bin_index w mz = Ok k →
  (k, x) ∈ contributions skip peaks w.
Proof.
  intros Hin Hs Hb.
  induction peaks as [|[mz' x'] rest IH]; [by apply elem_of_nil in Hin|].
  cbn [contributions]. apply elem_of_cons in Hin as [[= <- <-]|Hin].
  - rewrite Hs, Hb. by left.
  - destruct (skip mz' x'); [by apply IH|].
    destruct (bin_index w mz'); [right|]; by apply IH.
Qed.

(** The indices of a returned vector are the bins of the peaks that were
    kept, no more and no fewer. *)
Lemma bin_loop_finish_indices skip peaks w indices values :
  (acc ← bin_loop skip peaks w ∅; bin_finish acc) = Ok (indices, values) →
  (∀ k, k ∈ indices ↔
        ∃ p, p ∈ peaks ∧ skip p.1 p.2 = false ∧ bin_index w p.1 = Ok k)
  ∧ length values = length indices.
Proof.
  destruct (bin_loop skip peaks w ∅) as [acc|e] eqn:Hloop; [|done].
  cbn [mbind result_bind]. intros Hfin.
  pose proof (bin_loop_ok_defined _ _ _ _ _ Hloop) as Hd.
  rewrite (bin_loop_contributions _ _ _ _ Hd) in Hloop. injection Hloop as <-.
  apply bin_finish_indices in Hfin as [-> Hlen]. split; [|done].
  intros k.
  assert (Hdom : k ∈ (if Nat.eqb (size (fold_left add_to (contributions skip peaks w) ∅)) 0
                      then [] else sorted_keys (fold_left add_to (contributions skip peaks w) ∅))
                 ↔ k ∈ (contributions skip peaks w).*1).
  { destruct (Nat.eqb_spec (size (fold_left add_to (contributions skip peaks w) ∅)) 0) as [Hz|Hnz].
    - apply map_size_empty_iff in Hz.
      destruct (contributions skip peaks w) as [|c cs] eqn:Hc; [done|].
      by apply fold_add_to_nonempty in Hz.
    - rewrite elem_of_sorted_keys, <- elem_of_dom, fold_add_to_dom, dom_empty_L.
      rewrite elem_of_union, elem_of_list_to_set. set_solver. }
  rewrite Hdom, list_elem_of_fmap. split.
  - intros ([k' x] & -> & Hin). cbn.
    pose proof (contributions_origin skip peaks w) as Ho.
    rewrite Forall_forall in Ho. destruct (Ho _ Hin) as (mz & ? & ? & ?).
    by exists (mz, x).
  - intros ([mz x] & Hin & Hs & Hb). cbn in Hs, Hb.
    exists (k, x). split; [done|]. by eapply contributions_complete.
Qed.

End more_loop_facts.

(** ** binary64: the sign of a quotient *)

Section binary64_division.
Local Open Scope Z_scope.

(** Where zero is not greater than [x], the tests [x == 0] and [x <= 0]
    agree. *)
Lemma float_eqb_leb_zero x :
  PrimFloat.ltb x 0 = false → PrimFloat.eqb x 0 = PrimFloat.leb x 0.
Proof.
  rewrite FloatAxioms.ltb_spec, FloatAxioms.eqb_spec, FloatAxioms.leb_spec.
  change (Prim2SF 0) with (S754_zero false).
  destruct (Prim2SF x) as [s|s| |s m e]; try destruct s; done.
Qed.

(** Rounding keeps the sign it is given. *)
Lemma binary_round_aux_sign s m e l :
  match binary_round_aux prec emax s m e l with
  | S754_zero s' | S754_infinity s' | S754_finite s' _ _ => s' = s
  | S754_nan => True
  end.
Proof.
  unfold binary_round_aux.
  destruct (shr_fexp prec emax m e l) as [mrs' e'].
  destruct (shr_fexp prec emax _ e' loc_Exact) as [mrs'' e''].
  destruct (shr_m mrs'') as [|p|p]; [done| |done].
  by destruct (e'' <=? emax - prec).
Qed.

Lemma float_floor_nonneg x k :
  match Prim2SF x with
  | S754_zero _ => True
  | S754_infinity s | S754_finite s _ _ => s = false
  | S754_nan => True
  end →
  float_floor x = Ok k → 0 <= k.
Proof.
  unfold float_floor. destruct (Prim2SF x) as [s|s| |s m e]; try done.
  - by intros _ [= <-].
  - intros -> [= <-]. destruct (0 <=? e) eqn:He.
    + apply Z.leb_le in He. apply Z.mul_nonneg_nonneg; [lia|].
      by apply Z.pow_nonneg.
    + apply Z.leb_gt in He. apply Z.div_pos; [lia|]. apply Z.pow_pos_nonneg; lia.
Qed.

(** A mass that is not negative falls, with a positive bin width, into a
    bin that is not negative. *)
Lemma float_bin_index_nonneg (w mz : float) k :
  PrimFloat.ltb 0 w = true → PrimFloat.ltb mz 0 = false →
  bin_index w mz = Ok k → 0 <= k.
Proof.
  intros Hw Hmz. unfold bin_index, py_truediv.
  cbn [feqb fzero fdiv ffloor binary64].
  destruct (PrimFloat.eqb w 0); [done|]. cbn [mbind result_bind].
  apply float_floor_nonneg. rewrite FloatAxioms.div_spec. unfold SF64div.
  revert Hmz. rewrite FloatAxioms.ltb_spec. change (Prim2SF 0) with (S754_zero false).
  destruct (float_ltb_zero_cases w Hw) as [-> | (mw & ew & ->)];
    destruct (Prim2SF mz) as [s|s| |s m e]; try destruct s; try done.
  intros _. cbn [SFdiv].
  destruct (SFdiv_core_binary prec emax (Z.pos m) e (Z.pos mw) ew) as [[q e'] l].
  pose proof (binary_round_aux_sign (xorb false false) q e' l) as Hs.
  by destruct (binary_round_aux prec emax (xorb false false) q e' l).
Qed.

End binary64_division.

(** ** More about the three transforms *)

(** X1.  The transform never looks at a rejected peak: removing from the
    list the peaks whose intensity is [<= 0] or whose mass is [< 0] changes
    nothing, neither the vector returned nor the exception raised. *)
Theorem bin_peaks_ignores_rejected_peaks :
  ∀ (F : Type) (HF : Number F) (peaks : list (F * F)) (w : F),
    bin_peaks (filter (λ p, fleb p.2 fzero = false ∧ fltb p.1 fzero = false) peaks) w
    = bin_peaks peaks w.
Proof.
  intros F HF peaks w. unfold bin_peaks.
  rewrite <- (bin_loop_filter _ peaks). do 2 f_equal.
  apply list_filter_iff. intros [mz inten]. cbn. by rewrite orb_false_iff.
Qed.

(** X2.  The query transform is the ingestion transform: on two lists of
    the same length [search_csv.bin_spectrum] returns what
    [ingest_msp.bin_peaks] returns on the list of their pairs, and on lists
    of different lengths it raises [ValueError]. *)
Theorem csv_bin_spectrum_is_bin_peaks :
  ∀ (F : Type) (HF : Number F) (mz inten : list F) (w : F),
    (length mz = length inten →
     SearchCsv.bin_spectrum mz inten w = bin_peaks (zip mz inten) w)
    ∧ (length mz ≠ length inten →
       SearchCsv.bin_spectrum mz inten w
       = Raise (ValueError "mz and intensity lengths differ")).
Proof.
  intros F HF mz inten w. unfold SearchCsv.bin_spectrum, bin_peaks.
  destruct (Nat.eqb_spec (length mz) (length inten)); split; done.
Qed.

(** X2 on a query of two peaks and on lists of lengths two and one. *)
Lemma csv_bin_spectrum_is_bin_peaks_witness :
  SearchCsv.bin_spectrum [0.5; 1.0]%float [10.0; 2.0]%float 0.1%float
  = bin_peaks (zip [0.5; 1.0]%float [10.0; 2.0]%float) 0.1%float
  ∧ SearchCsv.bin_spectrum [0.5; 1.0]%float [10.0]%float 0.1%float
    = Raise (ValueError "mz and intensity lengths differ").
Proof.
  split.
  - apply (csv_bin_spectrum_is_bin_peaks float binary64). reflexivity.
  - apply (csv_bin_spectrum_is_bin_peaks float binary64). discriminate.
Defined.

(** X3.  On a spectrum without negative intensities the tabular transform
    is the MSP transform: where no intensity is less than zero,
    [ingest_sqlite.bin_spectrum] returns for two lists of the same length
    what [ingest_msp.bin_peaks] returns for the list of their pairs. *)
Theorem sqlite_bin_spectrum_without_negatives :
  ∀ (mz inten : list float) (w : float),
    length mz = length inten →
    Forall (λ i, PrimFloat.ltb i 0 = false) inten →
    IngestSqlite.bin_spectrum mz inten w = bin_peaks (zip mz inten) w.
Proof.
  intros mz inten w Hlen Hall. unfold IngestSqlite.bin_spectrum, bin_peaks.
  rewrite Hlen, Nat.eqb_refl. cbn [negb]. f_equal.
  apply bin_loop_ext. rewrite Forall_forall. intros [m i] Hin. cbn.
  f_equal. apply float_eqb_leb_zero.
  rewrite Forall_forall in Hall. apply Hall.
  apply list_elem_of_fmap_2 with (f := snd) in Hin. cbn in Hin.
  rewrite snd_zip in Hin by lia. done.
Qed.

(** X3 on a spectrum with a zero intensity. *)
Lemma sqlite_bin_spectrum_without_negatives_witness :
  IngestSqlite.bin_spectrum [0.5; 0.5; 1.0]%float [10.0; 0.0; 2.0]%float 0.1%float
  = bin_peaks (zip [0.5; 0.5; 1.0]%float [10.0; 0.0; 2.0]%float) 0.1%float.
Proof.
  apply sqlite_bin_spectrum_without_negatives; [reflexivity|].
  repeat constructor.
Defined.

Lemma bin_loop_finish_nonneg skip (peaks : list (float * float)) w indices values :
  (∀ mz inten, skip mz inten = false → PrimFloat.ltb mz 0 = false) →
  PrimFloat.ltb 0 w = true →
  (acc ← bin_loop skip peaks w ∅; bin_finish acc) = Ok (indices, values) →
  Forall (λ k, (0 <= k)%Z) indices.
Proof.
  intros Hskip Hw Hrun. apply bin_loop_finish_indices in Hrun as [Hidx _].
  rewrite Forall_forall. intros k Hk.
  apply Hidx in Hk as ([mz inten] & _ & Hs & Hb). cbn in Hs, Hb.
  eapply float_bin_index_nonneg; [done| |done]. by eapply Hskip.
Qed.

(** X4.  With a positive bin width none of the three transforms returns a
    negative index. *)
Theorem bin_indices_nonnegative :
  ∀ (w : float),
    PrimFloat.ltb 0 w = true →
    (∀ peaks indices values,
       bin_peaks peaks w = Ok (indices, values) → Forall (λ k, (0 <= k)%Z) indices)
    ∧ (∀ mz inten indices values,
         SearchCsv.bin_spectrum mz inten w = Ok (indices, values) →
         Forall (λ k, (0 <= k)%Z) indices)
    ∧ (∀ mz inten indices values,
         IngestSqlite.bin_spectrum mz inten w = Ok (indices, values) →
         Forall (λ k, (0 <= k)%Z) indices).
Proof.
  intros w Hw. split; [|split].
  - intros peaks indices values. apply bin_loop_finish_nonneg; [|done].
    intros mz inten Hs. by apply orb_false_iff in Hs as [_ ?].
  - intros mz inten indices values. unfold SearchCsv.bin_spectrum.
    destruct (negb _); [done|]. apply bin_loop_finish_nonneg; [|done].
    intros m i Hs. by apply orb_false_iff in Hs as [_ ?].
  - intros mz inten indices values. unfold IngestSqlite.bin_spectrum.
    destruct (negb _); [done|]. apply bin_loop_finish_nonneg; [|done].
    intros m i Hs. by apply orb_false_iff in Hs as [_ ?].
Qed.

(** X4 on the two-peak spectrum, for the three transforms. *)
Lemma bin_indices_nonnegative_witness :
  Forall (λ k, (0 <= k)%Z) [5%Z; 10%Z].
Proof.
  destruct (bin_indices_nonnegative 0.1%float) as (Hmsp & _ & _);
    [vm_compute; reflexivity|].
  apply (Hmsp [(0.5, 10.0); (1.0, 2.0)]%float [5%Z; 10%Z]
              [0.98058067569092022; 0.19611613513818404]%float).
  vm_compute. reflexivity.
Defined.

(** X5.  The indices of the vector [bin_peaks] returns are exactly the
    bins of the peaks that pass the filter (an index for every such peak,
    and no other index), and the values are as many as the indices. *)
Theorem bin_peaks_indices_are_kept_bins :
  ∀ (F : Type) (HF : Number F) (peaks : list (F * F)) (w : F) indices values,
    bin_peaks peaks w = Ok (indices, values) →
    (∀ k, k ∈ indices ↔
          ∃ p, p ∈ peaks ∧ fleb p.2 fzero = false ∧ fltb p.1 fzero = false
               ∧ bin_index w p.1 = Ok k)
    ∧ length values = length indices.
Proof.
  intros F HF peaks w indices values Hrun.
  apply bin_loop_finish_indices in Hrun as [Hidx Hlen]. split; [|done].
  intros k. rewrite Hidx. split.
  - intros (p & ? & [? ?]%orb_false_iff & ?). by exists p.
  - intros (p & ? & Hi & Hm & ?). exists p. by rewrite Hi, Hm.
Qed.

(** X5 on the two-peak spectrum. *)
Lemma bin_peaks_indices_are_kept_bins_witness :
  (∀ k, k ∈ [5%Z; 10%Z] ↔
        ∃ p, p ∈ [(0.5, 10.0); (1.0, 2.0)]%float
             ∧ PrimFloat.leb p.2 0 = false ∧ PrimFloat.ltb p.1 0 = false
             ∧ bin_index 0.1%float p.1 = Ok k)
  ∧ length [0.98058067569092022; 0.19611613513818404]%float = length [5%Z; 10%Z].
Proof.
  apply (bin_peaks_indices_are_kept_bins float binary64
           [(0.5, 10.0); (1.0, 2.0)]%float 0.1%float).
  vm_compute. reflexivity.
Defined.

(** ** Exact arithmetic: rescaled intensities *)

Section exact_scale.
Local Open Scope R_scope.
Implicit Types (peaks : list (R * R)) (w c : R).









End exact_scale.





(** * Further properties of the text extractor *)

Section more_parse_msp_facts.
Context {F : Type} (float_of_token : string → option F).
Implicit Types (b : buffer F) (s : spectrum F).

Lemma parse_lines_app l1 : ∀ b l2,
  parse_lines float_of_token b (l1 ++ l2)
  = (run_lines float_of_token b l1).2
    ++ parse_lines float_of_token (run_lines float_of_token b l1).1 l2.
Proof.
  induction l1 as [|raw rest IH]; intros b l2; [done|].
  cbn [app parse_lines run_lines].
  destruct (parse_line float_of_token b raw) as [b' out].
  rewrite IH. destruct (run_lines float_of_token b' rest) as [b'' out'].
  cbn [fst snd]. by rewrite app_assoc.
Qed.

Lemma parse_lines_flush b :
  parse_lines float_of_token b [] = yield_current b.
Proof.
  cbn [parse_lines]. unfold yield_current.
  destruct (truthy_list (peaks b)) eqn:Hp; cbn [orb]; [done|].
  by destruct (truthy_dict (meta b)).
Qed.

Lemma truthy_dict_true (m : gmap string string) : truthy_dict m = true ↔ m ≠ ∅.
Proof.
  unfold truthy_dict. rewrite negb_true_iff, Nat.eqb_neq.
  by rewrite map_size_empty_iff.
Qed.

(** A blank line on a buffer that holds something: the record, if any, and
    a fresh start. *)
Lemma parse_lines_blank b raw rest :
  strip raw = EmptyString → peaks b ≠ [] ∨ meta b ≠ ∅ →
  parse_lines float_of_token b (raw :: rest)
  = yield_current b ++ parse_lines float_of_token empty_buffer rest.
Proof.
  intros Hblank Hfull. cbn [parse_lines]. unfold parse_line.
  rewrite Hblank. cbn [String.eqb].
  assert (truthy_list (peaks b) || truthy_dict (meta b) = true) as ->; [|done].
  apply orb_true_iff. destruct Hfull as [?|?]; [left|right].
  - by apply truthy_list_true.
  - by apply truthy_dict_true.
Qed.

(** Without a header the reader stays among the metadata and collects no
    peak. *)
Lemma run_lines_no_header lines : ∀ b,
  Forall (λ raw, num_peaks_header raw = false) lines →
  peaks b = [] → in_peaks b = false →
  (run_lines float_of_token b lines).2 = []
  ∧ peaks (run_lines float_of_token b lines).1 = []
  ∧ in_peaks (run_lines float_of_token b lines).1 = false.
Proof.
  induction lines as [|raw rest IH]; intros b Hall Hp Hi; [done|].
  apply Forall_cons in Hall as [Hraw Hrest]. cbn [run_lines].
  assert (Hstep : (parse_line float_of_token b raw).2 = []
                  ∧ peaks (parse_line float_of_token b raw).1 = []
                  ∧ in_peaks (parse_line float_of_token b raw).1 = false).
  { unfold parse_line, num_peaks_header in *.
    destruct (String.eqb (strip raw) ""); [|rewrite Hi; cbn [negb]].
    - unfold yield_current. rewrite Hp. cbn.
      by destruct (truthy_dict (meta b)).
    - destruct (split_colon (strip raw)) as [[key value]|]; [|done].
      by rewrite Hraw. }
  destruct (parse_line float_of_token b raw) as [b' out]. cbn [fst snd] in Hstep.
  destruct Hstep as (-> & Hp' & Hi').
  specialize (IH b' Hrest Hp' Hi').
  by destruct (run_lines float_of_token b' rest) as [b'' out'].
Qed.

Lemma parse_line_header_free b raw :
  header_free (meta b) →
  header_free (meta (parse_line float_of_token b raw).1)
  ∧ ∀ s, s ∈ (parse_line float_of_token b raw).2 → header_free (spec_metadata s).
Proof.
  intros Hb.
  assert (Hempty : header_free (∅ : gmap string string)).
  { intros k [v Hv]. by rewrite lookup_empty in Hv. }
  assert (Hyield : ∀ s, s ∈ yield_current b → header_free (spec_metadata s)).
  { intros s. unfold yield_current. destruct (truthy_list (peaks b)).
    - by intros ->%list_elem_of_singleton.
    - by intros ?%elem_of_nil. }
  assert (Hnil : ∀ s : spectrum F, s ∈ [] → header_free (spec_metadata s)).
  { by intros s ?%elem_of_nil. }
  unfold parse_line. destruct (String.eqb (strip raw) "").
  { by destruct (truthy_list (peaks b) || truthy_dict (meta b)). }
  destruct (negb (in_peaks b)).
  - destruct (split_colon (strip raw)) as [[key value]|]; [|done].
    destruct (String.eqb_spec (lower (strip key)) "num peaks") as [Heq|Hne]; [done|].
    split; [|done]. intros k [v Hv]. cbn [meta fst] in Hv.
    destruct (decide (strip key = k)) as [<-|Hk]; [done|].
    rewrite lookup_insert_ne in Hv by done. by apply Hb.
  - destruct (split (strip raw)) as [|p0 [|p1 ?]]; [done..|].
    by destruct (float_of_token p0), (float_of_token p1).
Qed.

Lemma parse_lines_header_free lines : ∀ b s,
  header_free (meta b) →
  s ∈ parse_lines float_of_token b lines → header_free (spec_metadata s).
Proof.
  induction lines as [|raw rest IH]; intros b s Hb.
  - rewrite parse_lines_flush. unfold yield_current.
    destruct (truthy_list (peaks b)).
    + by intros ->%list_elem_of_singleton.
    + by intros ?%elem_of_nil.
  - cbn [parse_lines].
    destruct (parse_line_header_free b raw Hb) as [Hb' Hout].
    destruct (parse_line float_of_token b raw) as [b' out]. cbn [fst snd] in *.
    intros [Hin|Hin]%elem_of_app; [by apply Hout|by eapply IH].
Qed.

End more_parse_msp_facts.

(** X7.  A blank line that follows a buffer holding peaks or metadata
    separates the file: the records of the lines before it, the blank line
    and the lines after it are the records of the lines before it followed
    by the records of the lines after it, each part read on its own. *)
Theorem parse_msp_blank_line_separates :
  ∀ (F : Type) (float_of_token : string → option F) (before after : list string)
    (raw : string),
    strip raw = EmptyString →
    peaks (run_lines float_of_token empty_buffer before).1 ≠ []
    ∨ meta (run_lines float_of_token empty_buffer before).1 ≠ ∅ →
    parse_msp float_of_token (before ++ raw :: after)
    = parse_msp float_of_token before ++ parse_msp float_of_token after.
Proof.
  intros F float_of_token before after raw Hblank Hfull. unfold parse_msp.
  rewrite parse_lines_app, (parse_lines_blank _ _ _ _ Hblank Hfull).
  rewrite <- (app_nil_r before) at 3.
  by rewrite parse_lines_app, parse_lines_flush, app_assoc.
Qed.

(** X7 on the library of two records, cut at its blank line. *)
Lemma parse_msp_blank_line_separates_witness :
  parse_msp decimal_literal
    (["NAME: foo"; "Num Peaks: 2"; "1.0 5.0"; "2.0 10.0"]
     ++ "" :: ["NAME: bar"; "Num Peaks: 1"; "3.0 1.0"])
  = parse_msp decimal_literal ["NAME: foo"; "Num Peaks: 2"; "1.0 5.0"; "2.0 10.0"]
    ++ parse_msp decimal_literal ["NAME: bar"; "Num Peaks: 1"; "3.0 1.0"].
Proof.
  apply parse_msp_blank_line_separates; [reflexivity|].
  left. vm_compute. discriminate.
Defined.

(** X8.  A file without a "Num Peaks" header yields no record, whatever
    else it holds: no line is ever read as a peak. *)
Theorem parse_msp_without_header :
  ∀ (F : Type) (float_of_token : string → option F) (lines : list string),
    Forall (λ raw, num_peaks_header raw = false) lines →
    parse_msp float_of_token lines = [].
Proof.
  intros F float_of_token lines Hall. unfold parse_msp.
  rewrite <- (app_nil_r lines), parse_lines_app, parse_lines_flush.
  destruct (run_lines_no_header float_of_token lines empty_buffer Hall)
    as (-> & Hp & _); [done..|].
  unfold yield_current. by rewrite Hp.
Qed.

(** X8 on a file of names and numbers without a header. *)
Lemma parse_msp_without_header_witness :
  parse_msp decimal_literal ["NAME: foo"; "1.0 5.0"; ""; "NAME: bar"; "3.0 1.0"] = [].
Proof.
  apply parse_msp_without_header.
  repeat (constructor; [vm_compute; reflexivity|]). constructor.
Defined.

(** X9.  The header line is never stored: no record has a metadata key that
    reads "num peaks" in any case. *)
Theorem parse_msp_header_not_metadata :
  ∀ (F : Type) (float_of_token : string → option F) (lines : list string)
    (s : spectrum F) (k : string),
    s ∈ parse_msp float_of_token lines →
    is_Some (spec_metadata s !! k) →
    lower k ≠ "num peaks"%string.
Proof.
  intros F float_of_token lines s k Hin. revert k.
  eapply parse_lines_header_free; [|exact Hin].
  intros k [v Hv]. cbn in Hv. by rewrite lookup_empty in Hv.
Qed.

(** X9 on the first record of the library of two records. *)
Lemma parse_msp_header_not_metadata_witness :
  lower "NAME" ≠ "num peaks"%string.
Proof.
  apply (parse_msp_header_not_metadata float decimal_literal sample_library
           (Spectrum {[ "NAME" := "foo" ]} [(1.0, 5.0); (2.0, 10.0)]%float) "NAME").
  - vm_compute. left.
  - vm_compute. eauto.
Defined.

(** * Further properties of the MSP ingestion *)

Lemma posted_cons_upsert {I F} url pts (l : list (request I F)) :
  posted (PostUpsert url pts :: l) = pts ++ posted l.
Proof. reflexivity. Qed.

Section more_ingest_msp_facts.
Context `{Number F}.
Variable server : nat → response F.
Variable uuid4 : nat → string.
Variable api_url : string.
Variable bin_size : F.
Variable batch_size : Z.
Variable id_key : option string.

Local Abbreviation ingest := (IngestMsp.ingest server uuid4 api_url bin_size batch_size id_key).
Local Abbreviation upsert_url := (rstrip_slash api_url +:+ "/upsert").
Local Abbreviation points_from := (msp_points uuid4 bin_size id_key).

(** The batches sent by the loop are full, the pending one is not, and the
    running total counts the points sent. *)
Lemma msp_ingest_batches specs : ∀ batch total (w w' : world string F) r,
  (Z.of_nat (length batch) < Z.max 1 batch_size)%Z →
  ingest specs batch total w = (w', r) →
  ∃ new, requests w' = requests w ++ new
    ∧ Forall (upsert_of_size upsert_url (Z.max 1 batch_size) (Z.max 1 batch_size)) new
    ∧ match r with
      | Ok (batch', total') =>
          total' = total + length (posted new)
          ∧ (Z.of_nat (length batch') < Z.max 1 batch_size)%Z
          ∧ drawn w' = drawn w + length (points_from specs (drawn w))
      | Raise _ => True
      end.
Proof.
  induction specs as [|spec rest IH]; intros batch total w w' r Hpending.
  - intros [= <- <-]. exists []. split; [by rewrite app_nil_r|].
    split; [constructor|]. cbn. split; [lia|]. split; [done|lia].
  - rewrite msp_ingest_cons. cbn [msp_points].
    destruct (bin_peaks (spec_peaks spec) bin_size) as [[[|i indices] values]|e].
    + by apply IH.
    + cbn zeta.
      set (p := Point (uuid4 (drawn w)) (i :: indices, values)
                      (IngestMsp.payload id_key (spec_metadata spec))).
      destruct (batch_size <=? _)%Z eqn:Hfull.
      * apply Z.leb_le in Hfull.
        assert (Hsize : upsert_of_size (I:=string) upsert_url (Z.max 1 batch_size)
                          (Z.max 1 batch_size) (PostUpsert upsert_url (batch ++ [p]))).
        { exists (batch ++ [p]). split; [done|].
          rewrite length_app in *. cbn [length] in *. lia. }
        destruct (300 <=? _)%Z.
        -- intros [= <- <-]. cbn [requests]. eexists. split; [done|].
           split; [by constructor|done].
        -- intros Hrun. apply IH in Hrun as (new & Hreq & Hall & Hr); [|cbn; lia].
           cbn [requests drawn] in *.
           exists (PostUpsert upsert_url (batch ++ [p]) :: new).
           split; [by rewrite Hreq, <- app_assoc|]. split; [by constructor|].
           destruct r as [[batch' total']|e]; [|done].
           destruct Hr as (-> & ? & ->).
           rewrite posted_cons_upsert, (length_app _ (posted new)).
           cbn [length]. repeat split; [lia|done|lia].
      * apply Z.leb_gt in Hfull. intros Hrun.
        apply IH in Hrun as (new & Hreq & Hall & Hr).
        2:{ rewrite length_app in *. cbn [length] in *. lia. }
        cbn [requests drawn] in *. exists new. split; [done|]. split; [done|].
        destruct r as [[batch' total']|e]; [|done].
        destruct Hr as (-> & ? & ->). cbn [length]. repeat split; [done|lia].
    + intros [= <- <-]. exists []. split; [by rewrite app_nil_r|].
      split; [constructor|done].
Qed.

End more_ingest_msp_facts.

(** X10.  A successful MSP ingestion reports what it did: it returns 0, the
    one line it prints carries the number of points it built, which is also
    the number of points it sent and the number of identifiers it drew. *)
Theorem msp_success_accounting :
  ∀ (F : Type) (HF : Number F) (float_of_token : string → option F)
    (server : nat → response F) (uuid4 : nat → string)
    (api_url : string) (bin_size : F) (batch_size : Z) (id_key : option string)
    (lines : list string) (w w' : world string F) (z : Z),
    IngestMsp.main float_of_token server uuid4 api_url bin_size batch_size id_key lines w
    = (w', Ok z) →
    z = 0%Z
    ∧ stdout w'
      = stdout w ++ [IngestedLine
                       (length (msp_points uuid4 bin_size id_key
                                  (parse_msp float_of_token lines) (drawn w)))]
    ∧ length (posted (requests w'))
      = length (posted (requests w))
        + length (msp_points uuid4 bin_size id_key
                    (parse_msp float_of_token lines) (drawn w))
    ∧ drawn w'
      = drawn w + length (msp_points uuid4 bin_size id_key
                            (parse_msp float_of_token lines) (drawn w)).
Proof.
  intros F HF float_of_token server uuid4 api_url bin_size batch_size id_key
    lines w w' z. rewrite msp_main_eq.
  destruct (IngestMsp.ingest _ _ _ _ _ _ _ _ _ w) as [w1 r1] eqn:Hloop.
  pose proof Hloop as Hloop2. pose proof Hloop as Hloop3.
  apply msp_ingest_trace in Hloop as (Hout & _).
  apply msp_ingest_points in Hloop2 as (new & Hreq & Hpts).
  apply msp_ingest_batches in Hloop3 as (new' & Hreq' & _ & Hacc); [|cbn; lia].
  assert (new' = new) as -> by (rewrite Hreq in Hreq'; by apply app_inv_head in Hreq').
  destruct r1 as [[batch total]|e]; [|done].
  destruct Hacc as (Htotal & _ & Hdrawn). cbn [app] in Hpts.
  assert (Hn : length (msp_points uuid4 bin_size id_key
                         (parse_msp float_of_token lines) (drawn w))
               = length (posted new) + length batch).
  { rewrite <- Hpts. apply length_app. }
  destruct batch as [|p batch].
  - intros [= <- <-]. cbn [stdout requests drawn length] in *.
    rewrite Hout, Hreq, posted_app, length_app.
    repeat split; [do 3 f_equal; lia|lia|done].
  - cbn zeta. destruct (300 <=? _)%Z; [done|].
    intros [= <- <-]. cbn [stdout requests drawn].
    rewrite Hout, Hreq, !posted_app, !length_app, posted_cons_upsert, length_app.
    cbn [posted mbind list_bind length] in *.
    repeat split; first [done | lia | do 3 f_equal; lia].
Qed.

(** X10 on the library of two records. *)
Lemma msp_success_accounting_witness :
  (0 = 0)%Z
  ∧ stdout (IngestMsp.main decimal_literal accepting_server sample_uuid4
              "http://localhost:8000" 0.1%float 256 None sample_library initial_world).1
    = stdout (initial_world : world string float)
      ++ [IngestedLine
            (length (msp_points sample_uuid4 0.1%float None
                       (parse_msp decimal_literal sample_library)
                       (drawn (initial_world : world string float))))]
  ∧ length (posted (requests (IngestMsp.main decimal_literal accepting_server sample_uuid4
                                "http://localhost:8000" 0.1%float 256 None sample_library
                                initial_world).1))
    = length (posted (requests (initial_world : world string float)))
      + length (msp_points sample_uuid4 0.1%float None
                  (parse_msp decimal_literal sample_library)
                  (drawn (initial_world : world string float)))
  ∧ drawn (IngestMsp.main decimal_literal accepting_server sample_uuid4
             "http://localhost:8000" 0.1%float 256 None sample_library initial_world).1
    = drawn (initial_world : world string float)
      + length (msp_points sample_uuid4 0.1%float None
                  (parse_msp decimal_literal sample_library)
                  (drawn (initial_world : world string float))).
Proof.
  apply (msp_success_accounting float binary64 decimal_literal accepting_server
           sample_uuid4 "http://localhost:8000" 0.1%float 256 None sample_library
           initial_world _ 0%Z).
  vm_compute. reflexivity.
Defined.

(** X11.  The MSP ingestion never sends an empty batch and never one with
    more points than the batch size (one point when the batch size is below
    one): every request but the last carries exactly that many points, and
    the last, if it is the flush of the rest, between one and that many. *)
Theorem msp_batch_sizes :
  ∀ (F : Type) (HF : Number F) (float_of_token : string → option F)
    (server : nat → response F) (uuid4 : nat → string)
    (api_url : string) (bin_size : F) (batch_size : Z) (id_key : option string)
    (lines : list string) (w w' : world string F) r,
    IngestMsp.main float_of_token server uuid4 api_url bin_size batch_size id_key lines w
    = (w', r) →
    ∃ full rest,
      requests w' = requests w ++ full ++ rest
      ∧ length rest ≤ 1
      ∧ Forall (upsert_of_size (rstrip_slash api_url +:+ "/upsert")
                  (Z.max 1 batch_size) (Z.max 1 batch_size)) full
      ∧ Forall (upsert_of_size (rstrip_slash api_url +:+ "/upsert")
                  1 (Z.max 1 batch_size)) rest.
Proof.
  intros F HF float_of_token server uuid4 api_url bin_size batch_size id_key
    lines w w' r. rewrite msp_main_eq.
  destruct (IngestMsp.ingest _ _ _ _ _ _ _ _ _ w) as [w1 r1] eqn:Hloop.
  apply msp_ingest_batches in Hloop as (new & Hreq & Hall & Hacc); [|cbn; lia].
  assert (Hnone : ∀ w2 : world string F, requests w2 = requests w1 →
            ∃ full rest, requests w2 = requests w ++ full ++ rest ∧ length rest ≤ 1
              ∧ Forall (upsert_of_size (rstrip_slash api_url +:+ "/upsert")
                          (Z.max 1 batch_size) (Z.max 1 batch_size)) full
              ∧ Forall (upsert_of_size (rstrip_slash api_url +:+ "/upsert")
                          1 (Z.max 1 batch_size)) rest).
  { intros w2 ->. exists new, []. rewrite app_nil_r. cbn. repeat split; [done|lia|done|constructor]. }
  destruct r1 as [[[|p batch] total]|e].
  - intros [= <- <-]. by apply Hnone.
  - destruct Hacc as (_ & Hpending & _). cbn zeta.
    assert (Hlast : ∀ w2 : world string F,
              requests w2 = requests w1
                            ++ [PostUpsert (rstrip_slash api_url +:+ "/upsert") (p :: batch)] →
              ∃ full rest, requests w2 = requests w ++ full ++ rest ∧ length rest ≤ 1
                ∧ Forall (upsert_of_size (rstrip_slash api_url +:+ "/upsert")
                            (Z.max 1 batch_size) (Z.max 1 batch_size)) full
                ∧ Forall (upsert_of_size (rstrip_slash api_url +:+ "/upsert")
                            1 (Z.max 1 batch_size)) rest).
    { intros w2 ->. exists new, [PostUpsert (rstrip_slash api_url +:+ "/upsert") (p :: batch)].
      rewrite Hreq, <- app_assoc. cbn [length]. repeat split; [lia|done|].
      constructor; [|constructor]. exists (p :: batch). split; [done|].
      cbn [length] in *. lia. }
    destruct (300 <=? _)%Z; intros [= <- <-]; by apply Hlast.
  - intros [= <- <-]. by apply Hnone.
Qed.

(** X11 on the library of two records with batches of one. *)
Lemma msp_batch_sizes_witness :
  ∃ full rest,
    requests (IngestMsp.main decimal_literal accepting_server sample_uuid4
                "http://localhost:8000" 0.1%float 1 None sample_library initial_world).1
    = requests (initial_world : world string float) ++ full ++ rest
    ∧ length rest ≤ 1
    ∧ Forall (upsert_of_size (rstrip_slash "http://localhost:8000" +:+ "/upsert")
                (Z.max 1 1) (Z.max 1 1)) full
    ∧ Forall (upsert_of_size (rstrip_slash "http://localhost:8000" +:+ "/upsert")
                1 (Z.max 1 1)) rest.
Proof.
  eapply (msp_batch_sizes float binary64 decimal_literal accepting_server
            sample_uuid4 "http://localhost:8000" 0.1%float 1 None sample_library
            initial_world).
  apply surjective_pairing.
Defined.

(** * Further properties of the tabular ingestion *)

Section more_ingest_sqlite_facts.
Context `{Number F} {I : Type}.
Variable json_floats : string → option (list F).
Variable server : nat → response F.
Variable api_url : string.
Variable bin_size : F.
Variable batch_size : Z.

Local Abbreviation ingest :=
  (IngestSqliteMain.ingest (I:=I) json_floats server api_url bin_size batch_size).
Local Abbreviation parse := (IngestSqliteMain.parse_json_array json_floats).
Local Abbreviation upsert_url := (rstrip_slash api_url +:+ "/upsert").

(** What the loop over the rows does to the world: it prints skip notes
    only, it draws no identifier, and a request answered with a status of
    300 or more is its last. *)
Lemma sqlite_ingest_trace (rows : list (I * option string * option string)) :
  ∀ batch total (w w' : world I F) r,
    ingest rows batch total w = (w', r) →
    drawn w' = drawn w
    ∧ ∃ notes new,
        stdout w' = stdout w ++ notes
        ∧ requests w' = requests w ++ new
        ∧ Forall skip_note notes
        ∧ ∀ j, j < length new →
            (300 <= status_code (server (length (requests w) + j)))%Z →
            S j = length new
            ∧ r = Raise (RuntimeError (status_code (server (length (requests w) + j)))).
Proof.
  induction rows as [|[[rid mz_json] inten_json] rest IH]; intros batch total w w' r.
  - intros [= <- <-]. split; [done|]. exists [], []. rewrite !app_nil_r.
    split; [done|]. split; [done|]. split; [constructor|]. cbn. lia.
  - rewrite sqlite_ingest_cons.
    assert (Hnote : ∀ o : output I F, skip_note o →
              ingest rest batch total (World (requests w) (drawn w) (stdout w ++ [o]))
              = (w', r) →
              drawn w' = drawn w
              ∧ ∃ notes new,
                  stdout w' = stdout w ++ notes
                  ∧ requests w' = requests w ++ new
                  ∧ Forall skip_note notes
                  ∧ ∀ j, j < length new →
                      (300 <= status_code (server (length (requests w) + j)))%Z →
                      S j = length new
                      ∧ r = Raise (RuntimeError
                                     (status_code (server (length (requests w) + j))))).
    { intros o Ho Hrun. apply IH in Hrun as (Hd & notes & new & Hout & Hreq & Hn & Hf).
      cbn [requests drawn stdout] in *. split; [done|].
      exists (o :: notes), new. rewrite Hout, <- app_assoc.
      split; [done|]. split; [done|]. split; [by constructor|]. exact Hf. }
    destruct (parse mz_json) as [mz|e1]; [|apply Hnote; by eexists; left].
    destruct (parse inten_json) as [inten|e2]; [|apply Hnote; by eexists; left].
    destruct (IngestSqlite.bin_spectrum mz inten bin_size) as [[[|i indices] values]|e].
    + apply Hnote. eexists. by right.
    + cbn zeta. destruct (batch_size <=? _)%Z; [|apply IH].
      destruct (300 <=? _)%Z eqn:Hst.
      * intros [= <- <-]. cbn [requests drawn stdout]. split; [done|].
        exists [], [PostUpsert upsert_url (batch ++ [Point rid (i :: indices, values) ∅])].
        rewrite app_nil_r. split; [done|]. split; [done|]. split; [constructor|].
        cbn [length]. intros j Hj _. assert (j = 0) as -> by lia.
        by rewrite Nat.add_0_r.
      * intros Hrun. apply IH in Hrun as (Hd & notes & new & Hout & Hreq & Hn & Hf).
        cbn [requests drawn stdout] in *. split; [done|].
        exists notes, (PostUpsert upsert_url (batch ++ [Point rid (i :: indices, values) ∅])
                       :: new).
        rewrite Hreq, <- app_assoc. split; [done|]. split; [done|]. split; [done|].
        intros j Hj Hbad. rewrite length_app in Hf. cbn [length] in *.
        destruct j as [|j].
        { rewrite Nat.add_0_r in Hbad. apply Z.leb_gt in Hst. lia. }
        destruct (Hf j) as [Hlast ->]; [lia| |].
        { by replace (length (requests w) + 1 + j) with (length (requests w) + S j) by lia. }
        split; [lia|].
        by replace (length (requests w) + 1 + j) with (length (requests w) + S j) by lia.
    + intros [= <- <-]. split; [done|]. exists [], []. rewrite !app_nil_r.
      split; [done|]. split; [done|]. split; [constructor|]. cbn. lia.
Qed.

End more_ingest_sqlite_facts.

(** X12.  The tabular ingestion has the failure policy of the MSP
    ingestion: an upsert answered with a status of 300 or more ends the run
    at once with [RuntimeError], that request being the last of the run, and
    the rows that follow are never looked at. *)
Theorem sqlite_upsert_failure_aborts :
  ∀ (F : Type) (HF : Number F) (I : Type) (json_floats : string → option (list F))
    (server : nat → response F) (api_url : string) (bin_size : F)
    (batch_size limit : Z),
    (∀ table (w w' : world I F) r,
       IngestSqliteMain.main json_floats server api_url bin_size batch_size limit table w
       = (w', r) →
       ∀ j, length (requests w) ≤ j < length (requests w') →
         (300 <= status_code (server j))%Z →
         r = Raise (RuntimeError (status_code (server j)))
         ∧ S j = length (requests w'))
    ∧ (∀ (rows1 rows2 : list (I * option string * option string)) batch total
         (w w' : world I F) e,
         IngestSqliteMain.ingest json_floats server api_url bin_size batch_size
           rows1 batch total w = (w', Raise e) →
         IngestSqliteMain.ingest json_floats server api_url bin_size batch_size
           (rows1 ++ rows2) batch total w = (w', Raise e)).
Proof.
  intros F HF I json_floats server api_url bin_size batch_size limit. split.
  - intros table w w' r. rewrite sqlite_main_eq.
    destruct (IngestSqliteMain.ingest _ _ _ _ _ _ _ _ w) as [w1 r1] eqn:Hloop.
    apply sqlite_ingest_trace in Hloop as (_ & notes & new & _ & Hreq & _ & Hfail).
    assert (Hin : ∀ j, length (requests w) ≤ j < length (requests w1) →
              (300 <= status_code (server j))%Z →
              S j = length (requests w1)
              ∧ r1 = Raise (RuntimeError (status_code (server j)))).
    { intros j Hj Hbad. rewrite Hreq, length_app in *.
      destruct (Hfail (j - length (requests w))) as [Hlast Hr]; [lia| |].
      { by replace (length (requests w) + (j - length (requests w))) with j by lia. }
      replace (length (requests w) + (j - length (requests w))) with j in Hr by lia.
      split; [lia|done]. }
    destruct r1 as [[[|p batch] total]|e].
    + intros [= <- <-] j Hj Hbad. cbn [requests] in Hj.
      by destruct (Hin j Hj Hbad) as [_ ?].
    + cbn zeta. destruct (300 <=? _)%Z eqn:Hst; intros [= <- <-] j Hj Hbad;
        cbn [requests] in *; rewrite length_app in *; cbn [length] in *;
        (destruct (decide (j = length (requests w1))) as [->|Hne];
         [|by destruct (Hin j ltac:(lia) Hbad) as [_ ?]]).
      * split; [done|lia].
      * apply Z.leb_gt in Hst. lia.
    + intros [= <- <-] j Hj Hbad. destruct (Hin j Hj Hbad) as [? [= ->]]. done.
  - intros rows1 rows2 batch total w w' e Hrun.
    by rewrite sqlite_ingest_app, Hrun.
Qed.

(** X12 on a table of two rows with batches of one and a service that
    rejects the second request. *)
Lemma sqlite_upsert_failure_aborts_witness :
  (IngestSqliteMain.main decimal_array failing_server "http://localhost:8000"
     0.1%float 1 (-1)
     [(1%Z, Some "[1.0]", Some "[5.0]"); (2%Z, Some "[2.0]", Some "[5.0]");
      (3%Z, Some "[3.0]", Some "[5.0]")]
     initial_world).2
  = Raise (RuntimeError (status_code (failing_server 1)))
  ∧ 2 = length (requests (IngestSqliteMain.main decimal_array failing_server
                            "http://localhost:8000" 0.1%float 1 (-1)
                            [(1%Z, Some "[1.0]", Some "[5.0]");
                             (2%Z, Some "[2.0]", Some "[5.0]");
                             (3%Z, Some "[3.0]", Some "[5.0]")]
                            initial_world).1).
Proof.
  destruct (sqlite_upsert_failure_aborts float binary64 Z decimal_array failing_server
              "http://localhost:8000" 0.1%float 1 (-1)) as [Hmain _].
  apply (Hmain [(1%Z, Some "[1.0]", Some "[5.0]"); (2%Z, Some "[2.0]", Some "[5.0]");
                (3%Z, Some "[3.0]", Some "[5.0]")] initial_world).
  - apply surjective_pairing.
  - vm_compute. lia.
  - vm_compute. discriminate.
Defined.

Section sqlite_counts.
Context `{Number F} {I : Type}.
Variable json_floats : string → option (list F).
Variable server : nat → response F.
Variable api_url : string.
Variable bin_size : F.
Variable batch_size : Z.

Local Abbreviation ingest :=
  (IngestSqliteMain.ingest (I:=I) json_floats server api_url bin_size batch_size).
Local Abbreviation parse := (IngestSqliteMain.parse_json_array json_floats).
Local Abbreviation upsert_url := (rstrip_slash api_url +:+ "/upsert").

(** Sizes and counts: the batches sent by the loop are full, and every row
    read has become a point, sent or pending, or a note. *)
Lemma sqlite_ingest_counts (rows : list (I * option string * option string)) :
  ∀ batch total (w w' : world I F) r,
    (Z.of_nat (length batch) < Z.max 1 batch_size)%Z →
    ingest rows batch total w = (w', r) →
    ∃ notes new,
      stdout w' = stdout w ++ notes
      ∧ requests w' = requests w ++ new
      ∧ Forall (upsert_of_size upsert_url (Z.max 1 batch_size) (Z.max 1 batch_size)) new
      ∧ match r with
        | Ok (batch', total') =>
            total' = total + length (posted new)
            ∧ (Z.of_nat (length batch') < Z.max 1 batch_size)%Z
            ∧ length rows + length batch
              = length (posted new) + length batch' + length notes
        | Raise _ => True
        end.
Proof.
  induction rows as [|[[rid mz_json] inten_json] rest IH];
    intros batch total w w' r Hpending.
  - intros [= <- <-]. exists [], []. rewrite !app_nil_r.
    split; [done|]. split; [done|]. split; [constructor|].
    cbn. split; [lia|]. split; [done|lia].
  - rewrite sqlite_ingest_cons.
    assert (Hnote : ∀ o : output I F,
              ingest rest batch total (World (requests w) (drawn w) (stdout w ++ [o]))
              = (w', r) →
              ∃ notes new,
                stdout w' = stdout w ++ notes
                ∧ requests w' = requests w ++ new
                ∧ Forall (upsert_of_size upsert_url (Z.max 1 batch_size)
                            (Z.max 1 batch_size)) new
                ∧ match r with
                  | Ok (batch', total') =>
                      total' = total + length (posted new)
                      ∧ (Z.of_nat (length batch') < Z.max 1 batch_size)%Z
                      ∧ length ((rid, mz_json, inten_json) :: rest) + length batch
                        = length (posted new) + length batch' + length notes
                  | Raise _ => True
                  end).
    { intros o Hrun. apply IH in Hrun as (notes & new & Hout & Hreq & Hall & Hr); [|done].
      cbn [requests drawn stdout] in *.
      exists (o :: notes), new. rewrite Hout, <- app_assoc.
      split; [done|]. split; [done|]. split; [done|].
      destruct r as [[batch' total']|e]; [|done].
      destruct Hr as (? & ? & ?). cbn [length]. repeat split; [done|done|lia]. }
    destruct (parse mz_json) as [mz|e1]; [|apply Hnote].
    destruct (parse inten_json) as [inten|e2]; [|apply Hnote].
    destruct (IngestSqlite.bin_spectrum mz inten bin_size) as [[[|i indices] values]|e].
    + apply Hnote.
    + cbn zeta. set (p := Point rid (i :: indices, values) ∅).
      destruct (batch_size <=? _)%Z eqn:Hfull.
      * apply Z.leb_le in Hfull.
        assert (Hsize : upsert_of_size (I:=I) upsert_url (Z.max 1 batch_size)
                          (Z.max 1 batch_size) (PostUpsert upsert_url (batch ++ [p]))).
        { exists (batch ++ [p]). split; [done|].
          rewrite length_app in *. cbn [length] in *. lia. }
        destruct (300 <=? _)%Z.
        -- intros [= <- <-]. cbn [requests stdout]. exists [], [PostUpsert upsert_url (batch ++ [p])].
           rewrite app_nil_r. split; [done|]. split; [done|]. split; [by constructor|done].
        -- intros Hrun. apply IH in Hrun as (notes & new & Hout & Hreq & Hall & Hr);
             [|cbn; lia].
           cbn [requests drawn stdout] in *.
           exists notes, (PostUpsert upsert_url (batch ++ [p]) :: new).
           rewrite Hreq, <- app_assoc.
           split; [done|]. split; [done|]. split; [by constructor|].
           destruct r as [[batch' total']|e]; [|done].
           destruct Hr as (-> & ? & Hcount).
           rewrite posted_cons_upsert, (length_app _ (posted new)).
           rewrite length_app in *. cbn [length] in *. repeat split; [lia|done|lia].
      * apply Z.leb_gt in Hfull. intros Hrun.
        apply IH in Hrun as (notes & new & Hout & Hreq & Hall & Hr).
        2:{ rewrite length_app in *. cbn [length] in *. lia. }
        exists notes, new. split; [done|]. split; [done|]. split; [done|].
        destruct r as [[batch' total']|e]; [|done].
        destruct Hr as (-> & ? & Hcount).
        rewrite length_app in *. cbn [length] in *. repeat split; [done|lia].
    + intros [= <- <-]. exists [], []. rewrite !app_nil_r.
      split; [done|]. split; [done|]. split; [constructor|done].
Qed.

(** Where the points come from: each point sent or pending was pending
    before or is built from one of the rows. *)
Lemma sqlite_ingest_points (rows : list (I * option string * option string)) :
  ∀ batch total (w w' : world I F) r,
    ingest rows batch total w = (w', r) →
    ∃ new,
      requests w' = requests w ++ new
      ∧ ∀ p, p ∈ posted new ++ match r with Ok (batch', _) => batch' | Raise _ => [] end →
          p ∈ batch ∨ row_point json_floats bin_size rows p.
Proof.
  induction rows as [|[[rid mz_json] inten_json] rest IH]; intros batch total w w' r.
  - intros [= <- <-]. exists []. rewrite app_nil_r. split; [done|]. cbn. auto.
  - rewrite sqlite_ingest_cons.
    assert (Hweaken : ∀ p, row_point json_floats bin_size rest p →
              row_point json_floats bin_size ((rid, mz_json, inten_json) :: rest) p).
    { intros p (rid' & a & b & mz & inten & Hin & Hrest).
      exists rid', a, b, mz, inten. split; [by right|done]. }
    assert (Hskip : ∀ w1 : world I F, requests w1 = requests w →
              ingest rest batch total w1 = (w', r) →
              ∃ new,
                requests w' = requests w ++ new
                ∧ ∀ p, p ∈ posted new
                           ++ match r with Ok (batch', _) => batch' | Raise _ => [] end →
                    p ∈ batch
                    ∨ row_point json_floats bin_size ((rid, mz_json, inten_json) :: rest) p).
    { intros w1 Hw1 Hrun. apply IH in Hrun as (new & Hreq & Hp).
      exists new. rewrite Hreq, Hw1. split; [done|].
      intros p Hin. destruct (Hp p Hin) as [?|?]; [by left|right; by apply Hweaken]. }
    destruct (parse mz_json) as [mz|e1] eqn:Hmz; [|by apply Hskip].
    destruct (parse inten_json) as [inten|e2] eqn:Hin; [|by apply Hskip].
    destruct (IngestSqlite.bin_spectrum mz inten bin_size)
      as [[[|i indices] values]|e] eqn:Hbin.
    + by apply Hskip.
    + cbn zeta. set (p0 := Point rid (i :: indices, values) ∅).
      assert (Hp0 : row_point json_floats bin_size ((rid, mz_json, inten_json) :: rest) p0).
      { exists rid, mz_json, inten_json, mz, inten. split; [by left|done]. }
      destruct (batch_size <=? _)%Z.
      * destruct (300 <=? _)%Z.
        -- intros [= <- <-]. cbn [requests]. eexists. split; [done|].
           rewrite posted_cons_upsert. cbn. rewrite !app_nil_r.
           intros p [?|Hs]%elem_of_app; [auto|].
           apply list_elem_of_singleton in Hs as ->. auto.
        -- intros Hrun. apply IH in Hrun as (new & Hreq & Hp).
           cbn [requests] in *.
           exists (PostUpsert upsert_url (batch ++ [p0]) :: new).
           rewrite Hreq, <- app_assoc. split; [done|].
           rewrite posted_cons_upsert, <- app_assoc.
           intros p [Hb|Hrest]%elem_of_app.
           ++ apply elem_of_app in Hb as [?|Hs]; [auto|].
              apply list_elem_of_singleton in Hs as ->. auto.
           ++ destruct (Hp p Hrest) as [Hnil|?]; [by apply elem_of_nil in Hnil|].
              right. by apply Hweaken.
      * intros Hrun. apply IH in Hrun as (new & Hreq & Hp).
        cbn [requests] in *. exists new. split; [done|].
        intros p Hin'. destruct (Hp p Hin') as [Hb|?]; [|right; by apply Hweaken].
        apply elem_of_app in Hb as [?|Hs]; [auto|].
        apply list_elem_of_singleton in Hs as ->. auto.
    + intros [= <- <-]. exists []. rewrite app_nil_r. split; [done|].
      cbn. by intros p ?%elem_of_nil.
Qed.

End sqlite_counts.

(** X13.  A successful tabular ingestion accounts for every row it read:
    it prints one skip note for each row it dropped (parse error or empty
    spectrum) and then the final line, whose count is the number of points
    it sent; notes and points together are as many as the rows. *)
Theorem sqlite_success_accounting :
  ∀ (F : Type) (HF : Number F) (I : Type) (json_floats : string → option (list F))
    (server : nat → response F) (api_url : string) (bin_size : F)
    (batch_size limit : Z) table (w w' : world I F) (z : Z),
    IngestSqliteMain.main json_floats server api_url bin_size batch_size limit table w
    = (w', Ok z) →
    ∃ notes n,
      z = 0%Z
      ∧ stdout w' = stdout w ++ notes ++ [IngestedLine n]
      ∧ Forall skip_note notes
      ∧ length (IngestSqliteMain.iter_rows limit table) = n + length notes
      ∧ length (posted (requests w')) = length (posted (requests w)) + n.
Proof.
  intros F HF I json_floats server api_url bin_size batch_size limit table w w' z.
  rewrite sqlite_main_eq.
  destruct (IngestSqliteMain.ingest _ _ _ _ _ _ _ _ w) as [w1 r1] eqn:Hloop.
  pose proof Hloop as Hloop2.
  apply sqlite_ingest_trace in Hloop as (_ & notes & new & Hout & Hreq & Hnotes & _).
  apply sqlite_ingest_counts in Hloop2 as (notes' & new' & Hout' & Hreq' & _ & Hacc);
    [|cbn; lia].
  assert (notes' = notes) as -> by (rewrite Hout in Hout'; by apply app_inv_head in Hout').
  assert (new' = new) as -> by (rewrite Hreq in Hreq'; by apply app_inv_head in Hreq').
  destruct r1 as [[batch total]|e]; [|done].
  destruct Hacc as (Htotal & _ & Hcount). cbn [length] in Hcount.
  unfold IngestSqliteMain.row in *.
  destruct batch as [|p batch].
  - intros [= <- <-]. exists notes, total. cbn [stdout requests length] in *.
    rewrite Hout, Hreq, posted_app, length_app, <- app_assoc.
    repeat split; first [done | lia].
  - cbn zeta. destruct (300 <=? _)%Z; [done|].
    intros [= <- <-]. exists notes, (total + length (p :: batch)).
    cbn [stdout requests].
    rewrite Hout, Hreq, !posted_app, !length_app, posted_cons_upsert, length_app,
      <- app_assoc.
    cbn [posted mbind list_bind length] in *.
    repeat split; first [done | lia].
Qed.

(** X13 on a table with a row of two NULL columns, a row that does not
    decode and a row that is ingested. *)
Lemma sqlite_success_accounting_witness :
  ∃ notes n,
    (0 = 0)%Z
    ∧ stdout (IngestSqliteMain.main decimal_array accepting_server "http://localhost:8000"
                0.1%float 256 (-1)
                [(1%Z, None, None); (2%Z, Some "[1,", Some "[1]");
                 (3%Z, Some "[1.0]", Some "[5.0]")]
                initial_world).1
      = stdout (initial_world : world Z float) ++ notes ++ [IngestedLine n]
    ∧ Forall skip_note notes
    ∧ length (IngestSqliteMain.iter_rows (-1)
                [(1%Z, None, None); (2%Z, Some "[1,", Some "[1]");
                 (3%Z, Some "[1.0]", Some "[5.0]")])
      = n + length notes
    ∧ length (posted (requests (IngestSqliteMain.main decimal_array accepting_server
                                  "http://localhost:8000" 0.1%float 256 (-1)
                                  [(1%Z, None, None); (2%Z, Some "[1,", Some "[1]");
                                   (3%Z, Some "[1.0]", Some "[5.0]")]
                                  initial_world).1))
      = length (posted (requests (initial_world : world Z float))) + n.
Proof.
  apply (sqlite_success_accounting float binary64 Z decimal_array accepting_server
           "http://localhost:8000" 0.1%float 256 (-1)
           [(1%Z, None, None); (2%Z, Some "[1,", Some "[1]");
            (3%Z, Some "[1.0]", Some "[5.0]")]
           initial_world _ 0%Z).
  vm_compute. reflexivity.
Defined.

(** X14.  Every point the tabular ingestion sends is built from one of the
    rows it read: its id is the id of that row, its vector is the non-empty
    fingerprint of the row's two decoded arrays, and its metadata is
    empty. *)
Theorem sqlite_points_come_from_rows :
  ∀ (F : Type) (HF : Number F) (I : Type) (json_floats : string → option (list F))
    (server : nat → response F) (api_url : string) (bin_size : F)
    (batch_size limit : Z) table (w w' : world I F) r,
    IngestSqliteMain.main json_floats server api_url bin_size batch_size limit table w
    = (w', r) →
    ∃ new,
      requests w' = requests w ++ new
      ∧ ∀ p, p ∈ posted new →
          row_point json_floats bin_size (IngestSqliteMain.iter_rows limit table) p.
Proof.
  intros F HF I json_floats server api_url bin_size batch_size limit table w w' r.
  rewrite sqlite_main_eq.
  destruct (IngestSqliteMain.ingest _ _ _ _ _ _ _ _ w) as [w1 r1] eqn:Hloop.
  apply sqlite_ingest_points in Hloop as (new & Hreq & Hp).
  assert (Hrow : ∀ p, p ∈ posted new
                          ++ match r1 with Ok (batch', _) => batch' | Raise _ => [] end →
            row_point json_floats bin_size (IngestSqliteMain.iter_rows limit table) p).
  { intros p Hin. destruct (Hp p Hin) as [Hnil|?]; [by apply elem_of_nil in Hnil|done]. }
  destruct r1 as [[[|p0 batch] total]|e].
  - intros [= <- <-]. exists new. split; [done|]. intros p Hin. apply Hrow.
    by rewrite app_nil_r.
  - cbn zeta.
    assert (Hlast : ∀ w2 : world I F,
              requests w2 = requests w1
                            ++ [PostUpsert (rstrip_slash api_url +:+ "/upsert") (p0 :: batch)] →
              ∃ new0, requests w2 = requests w ++ new0
                ∧ ∀ p, p ∈ posted new0 →
                    row_point json_floats bin_size
                      (IngestSqliteMain.iter_rows limit table) p).
    { intros w2 ->.
      exists (new ++ [PostUpsert (rstrip_slash api_url +:+ "/upsert") (p0 :: batch)]).
      rewrite Hreq, <- app_assoc. split; [done|].
      rewrite posted_app, posted_cons_upsert. cbn [posted mbind list_bind].
      rewrite app_nil_r. exact Hrow. }
    destruct (300 <=? _)%Z; intros [= <- <-]; by apply Hlast.
  - intros [= <- <-]. exists new. split; [done|]. intros p Hin. apply Hrow.
    by rewrite app_nil_r.
Qed.

(** X14 on a table of two rows, the first of which is dropped. *)
Lemma sqlite_points_come_from_rows_witness :
  ∃ new,
    requests (IngestSqliteMain.main decimal_array accepting_server "http://localhost:8000"
                0.1%float 256 (-1)
                [(1%Z, None, None); (3%Z, Some "[1.0]", Some "[5.0]")]
                initial_world).1
    = requests (initial_world : world Z float) ++ new
    ∧ ∀ p, p ∈ posted new →
        row_point decimal_array 0.1%float
          (IngestSqliteMain.iter_rows (-1)
             [(1%Z, None, None); (3%Z, Some "[1.0]", Some "[5.0]")]) p.
Proof.
  eapply (sqlite_points_come_from_rows float binary64 Z decimal_array accepting_server
            "http://localhost:8000" 0.1%float 256 (-1)
            [(1%Z, None, None); (3%Z, Some "[1.0]", Some "[5.0]")] initial_world).
  apply surjective_pairing.
Defined.

(** ** The requests against the service's schema *)

Section request_schema_facts.
Context `{Number F}.

(** A returned vector has as many values as indices. *)
Lemma transform_lengths (skip : F → F → bool) peaks (w : F) iv :
  (acc ← bin_loop skip peaks w ∅; bin_finish acc) = Ok iv →
  length iv.2 = length iv.1.
Proof. destruct iv as [indices values]. by intros [_ ?]%bin_loop_finish_indices. Qed.

Lemma nonempty_vector_valid (iv : list Z * list F) :
  length iv.2 = length iv.1 → iv.1 ≠ [] → sparse_vector_valid iv.
Proof.
  destruct iv as [[|i indices] values]; [done|]. cbn. intros Hlen _.
  unfold sparse_vector_valid. cbn. lia.
Qed.

Lemma msp_points_valid uuid4 (bin_size : F) id_key specs : ∀ k,
  Forall (λ p, sparse_vector_valid (sparse p)) (msp_points uuid4 bin_size id_key specs k).
Proof.
  induction specs as [|spec rest IH]; intros k; cbn [msp_points]; [constructor|].
  destruct (bin_peaks (spec_peaks spec) bin_size) as [[[|i indices] values]|e] eqn:Hb;
    [apply IH| |constructor].
  constructor; [|apply IH]. cbn [sparse].
  apply nonempty_vector_valid; [|done]. by apply transform_lengths in Hb.
Qed.

Lemma row_point_valid {I} json_floats (bin_size : F)
    (rows : list (I * option string * option string)) p :
  row_point json_floats bin_size rows p → sparse_vector_valid (sparse p).
Proof.
  intros (rid & mzj & intj & mz & inten & _ & _ & _ & Hb & Hne & _).
  apply nonempty_vector_valid; [|done].
  unfold IngestSqlite.bin_spectrum in Hb.
  destruct (negb _); [done|]. by apply transform_lengths in Hb.
Qed.

(** Batches that are not empty and hold valid points make valid requests. *)
Lemma upsert_requests_valid {I} url (lo hi : Z) (new : list (request I F)) :
  (1 ≤ lo)%Z →
  Forall (upsert_of_size url lo hi) new →
  (∀ p, p ∈ posted new → sparse_vector_valid (sparse p)) →
  Forall request_valid new.
Proof.
  intros Hlo Hsize. induction Hsize as [|r new (points & -> & Hlen) _ IH];
    intros Hpts; [constructor|].
  rewrite posted_cons_upsert in Hpts. constructor.
  - split; [lia|]. apply Forall_forall. intros p Hin. apply Hpts.
    apply elem_of_app. by left.
  - apply IH. intros p Hin. apply Hpts. apply elem_of_app. by right.
Qed.

End request_schema_facts.

Section msp_schema_facts.
Context `{Number F}.
Variable server : nat → response F.
Variable uuid4 : nat → string.
Variable api_url : string.
Variable bin_size : F.
Variable batch_size : Z.
Variable id_key : option string.

(** Every request of an MSP ingestion meets the schema. *)
Lemma msp_main_requests_valid float_of_token lines (w : world string F) :
  ∃ new,
    requests (IngestMsp.main float_of_token server uuid4 api_url bin_size batch_size
                id_key lines w).1 = requests w ++ new
    ∧ Forall request_valid new.
Proof.
  rewrite msp_main_eq.
  destruct (IngestMsp.ingest _ _ _ _ _ _ _ _ _ w) as [w1 r1] eqn:Hloop.
  pose proof Hloop as Hloop2.
  apply msp_ingest_batches in Hloop as (new & Hreq & Hsize & _); [|cbn; lia].
  apply msp_ingest_points in Hloop2 as (new' & Hreq' & Hpts).
  assert (new' = new) as -> by (rewrite Hreq in Hreq'; by apply app_inv_head in Hreq').
  pose proof (msp_points_valid uuid4 bin_size id_key
                (parse_msp float_of_token lines) (drawn w)) as Hvalid.
  rewrite Forall_forall in Hvalid.
  assert (Hall : ∀ p, p ∈ posted new
                          ++ match r1 with Ok (batch', _) => batch' | Raise _ => [] end →
                      sparse_vector_valid (sparse p)).
  { intros p Hin. apply Hvalid. destruct r1 as [[batch' total']|e].
    - by rewrite Hpts in Hin.
    - rewrite app_nil_r in Hin. destruct Hpts as [k Hk]. cbn [app] in Hk.
      rewrite Hk. apply elem_of_app. by left. }
  assert (Hnew : Forall request_valid new).
  { eapply upsert_requests_valid; [|exact Hsize|]; [lia|].
    intros p Hin. apply Hall, elem_of_app. by left. }
  destruct r1 as [[[|p0 batch] total]|e]; cbn [fst requests].
  - by exists new.
  - cbn zeta.
    exists (new ++ [PostUpsert (rstrip_slash api_url +:+ "/upsert") (p0 :: batch)]).
    split.
    { destruct (300 <=? _)%Z; cbn [fst requests]; by rewrite Hreq, <- app_assoc. }
    apply Forall_app. split; [done|]. constructor; [|constructor].
    split; [cbn; lia|]. apply Forall_forall. intros p Hin.
    apply Hall, elem_of_app. by right.
  - by exists new.
Qed.

End msp_schema_facts.

Section sqlite_schema_facts.
Context `{Number F} {I : Type}.
Variable json_floats : string → option (list F).
Variable server : nat → response F.
Variable api_url : string.
Variable bin_size : F.
Variable batch_size : Z.

(** Every request of a tabular ingestion meets the schema. *)
Lemma sqlite_main_requests_valid limit table (w : world I F) :
  ∃ new,
    requests (IngestSqliteMain.main json_floats server api_url bin_size batch_size
                limit table w).1 = requests w ++ new
    ∧ Forall request_valid new.
Proof.
  rewrite sqlite_main_eq.
  destruct (IngestSqliteMain.ingest _ _ _ _ _ _ _ _ w) as [w1 r1] eqn:Hloop.
  pose proof Hloop as Hloop2.
  apply sqlite_ingest_counts in Hloop as (notes & new & _ & Hreq & Hsize & _);
    [|cbn; lia].
  apply sqlite_ingest_points in Hloop2 as (new' & Hreq' & Hpts).
  assert (new' = new) as -> by (rewrite Hreq in Hreq'; by apply app_inv_head in Hreq').
  assert (Hall : ∀ p, p ∈ posted new
                          ++ match r1 with Ok (batch', _) => batch' | Raise _ => [] end →
                      sparse_vector_valid (sparse p)).
  { intros p Hin. destruct (Hpts p Hin) as [Hnil|Hrow]; [by apply elem_of_nil in Hnil|].
    by eapply row_point_valid. }
  assert (Hnew : Forall request_valid new).
  { eapply upsert_requests_valid; [|exact Hsize|]; [lia|].
    intros p Hin. apply Hall, elem_of_app. by left. }
  destruct r1 as [[[|p0 batch] total]|e]; cbn [fst requests].
  - by exists new.
  - cbn zeta.
    exists (new ++ [PostUpsert (rstrip_slash api_url +:+ "/upsert") (p0 :: batch)]).
    split.
    { destruct (300 <=? _)%Z; cbn [fst requests]; by rewrite Hreq, <- app_assoc. }
    apply Forall_app. split; [done|]. constructor; [|constructor].
    split; [cbn; lia|]. apply Forall_forall. intros p Hin.
    apply Hall, elem_of_app. by right.
  - by exists new.
Qed.

End sqlite_schema_facts.

(** ** More on the query *)

Section more_search_facts.
Context `{Number F}.
Variable float_of_token : string → option F.
Variable server : nat → response F.
Variable api_url : string.
Variable bin_size : F.
Variable limit : Z.

Local Abbreviation search_url := (rstrip_slash api_url +:+ "/search").
Local Abbreviation read_csv_pairs := (SearchCsvMain.read_csv_pairs float_of_token).
Local Abbreviation search_main :=
  (SearchCsvMain.main float_of_token server api_url bin_size limit).

(** The two columns are filled together. *)
Lemma read_csv_pairs_lengths rows :
  length (read_csv_pairs rows).1 = length (read_csv_pairs rows).2.
Proof using Type.
  induction rows as [|r rest IH]; [done|]. cbn [SearchCsvMain.read_csv_pairs].
  destruct (read_csv_pairs rest) as [mz inten]. cbn [fst snd] in IH.
  destruct r as [|r0 [|r1 r]]; [done..|].
  destruct (float_of_token r0), (float_of_token r1); cbn; by rewrite ?IH.
Qed.

(** The hits are printed one line each, and nothing else happens. *)
Lemma print_hits_lines l : ∀ i (w : world string F),
  SearchCsvMain.print_hits i l w
  = (World (requests w) (drawn w) (stdout w ++ hit_lines i l), Ok ()).
Proof.
  induction l as [|h rest IH]; intros i w; cbn [SearchCsvMain.print_hits hit_lines].
  - rewrite app_nil_r. by destruct w.
  - unfold mbind, io_mbind, io_bind at 1, print. rewrite IH.
    cbn [requests drawn stdout]. by rewrite <- app_assoc.
Qed.



(** The run on a non-empty query vector, with the world passed
    explicitly. *)
Lemma search_main_eq rows (w : world string F) i indices values :
  SearchCsv.bin_spectrum (read_csv_pairs rows).1 (read_csv_pairs rows).2 bin_size
  = Ok (i :: indices, values) →
  search_main rows w
  = let resp := server (length (requests w)) in
    let reqs := requests w ++ [PostSearch search_url (i :: indices, values) limit true] in
    if (400 <=? status_code resp)%Z && (status_code resp <? 600)%Z
    then (World reqs (drawn w) (stdout w), Raise (HTTPError (status_code resp)))
    else (World reqs (drawn w) (stdout w ++ hit_lines 1 (hits resp)), Ok 0%Z).
Proof.
  unfold SearchCsvMain.main.
  destruct (read_csv_pairs rows) as [mz inten]. cbn [fst snd]. intros Hb.
  unfold mbind at 1, io_mbind, io_bind at 1, lift. rewrite Hb.
  replace (negb (truthy_list (i :: indices))) with false by reflexivity.
  unfold mbind at 1, io_bind at 1, post. cbn zeta.
  unfold mbind at 1, io_bind at 1, SearchCsvMain.raise_for_status.
  destruct ((400 <=? _)%Z && (_ <? _)%Z); [done|].
  cbn [mret io_mret io_ret]. unfold mbind at 1, io_bind at 1.
  by rewrite print_hits_lines.
Qed.

(** Every request of a query meets the schema. *)
Lemma search_main_requests_valid rows (w : world string F) :
  ∃ new, requests (search_main rows w).1 = requests w ++ new
         ∧ Forall request_valid new.
Proof.
  pose proof (search_main_requests float_of_token server api_url bin_size limit rows w)
    as Hrun.
  destruct (SearchCsv.bin_spectrum _ _ bin_size) as [[[|i indices] values]|e] eqn:Hb.
  - rewrite Hrun. exists []. by rewrite app_nil_r.
  - rewrite Hrun. eexists. split; [done|]. constructor; [|constructor].
    cbn [request_valid]. apply nonempty_vector_valid; [|done].
    unfold SearchCsv.bin_spectrum in Hb. destruct (negb _); [done|].
    by apply transform_lengths in Hb.
  - rewrite Hrun. exists []. by rewrite app_nil_r.
Qed.

End more_search_facts.

(** X15.  Every request the three tools send meets the length constraints
    of the service's schema: an upsert carries at least one point, and every
    vector, of a point or of a query, has at least one index and at least
    one value. *)
Theorem requests_meet_service_schema :
  ∀ (F : Type) (HF : Number F) (I : Type)
    (float_of_token : string → option F) (json_floats : string → option (list F))
    (server : nat → response F) (uuid4 : nat → string) (api_url : string)
    (bin_size : F) (batch_size limit : Z) (id_key : option string)
    (lines : list string) table (rows : list (list string))
    (w : world string F) (wt : world I F),
    (∃ new,
       requests (IngestMsp.main float_of_token server uuid4 api_url bin_size batch_size
                   id_key lines w).1 = requests w ++ new
       ∧ Forall request_valid new)
    ∧ (∃ new,
         requests (IngestSqliteMain.main json_floats server api_url bin_size batch_size
                     limit table wt).1 = requests wt ++ new
         ∧ Forall request_valid new)
    ∧ (∃ new,
         requests (SearchCsvMain.main float_of_token server api_url bin_size limit
                     rows w).1 = requests w ++ new
         ∧ Forall request_valid new).
Proof.
  intros. split; [|split].
  - apply msp_main_requests_valid.
  - apply sqlite_main_requests_valid.
  - apply search_main_requests_valid.
Qed.

(** X16.  The query tool reads its two columns together: the peaks of the
    query are the rows whose first two fields are both numbers, in the
    order of the file, so the two lists have the same length, the length
    test of the transform never fires and the query vector is the vector
    [bin_peaks] gives for those peaks. *)
Theorem search_query_peaks :
  ∀ (F : Type) (HF : Number F) (float_of_token : string → option F) (bin_size : F)
    (rows : list (list string)),
    zip (SearchCsvMain.read_csv_pairs float_of_token rows).1
        (SearchCsvMain.read_csv_pairs float_of_token rows).2
    = omap (λ r, match r with
                 | r0 :: r1 :: _ =>
                     match float_of_token r0, float_of_token r1 with
                     | Some m, Some i => Some (m, i)
                     | _, _ => None
                     end
                 | _ => None
                 end) rows
    ∧ length (SearchCsvMain.read_csv_pairs float_of_token rows).1
      = length (SearchCsvMain.read_csv_pairs float_of_token rows).2
    ∧ SearchCsv.bin_spectrum (SearchCsvMain.read_csv_pairs float_of_token rows).1
        (SearchCsvMain.read_csv_pairs float_of_token rows).2 bin_size
      = bin_peaks (zip (SearchCsvMain.read_csv_pairs float_of_token rows).1
                       (SearchCsvMain.read_csv_pairs float_of_token rows).2) bin_size.
Proof.
  intros F HF float_of_token bin_size rows. split; [|split].
  - induction rows as [|r rest IH]; [done|].
    cbn [SearchCsvMain.read_csv_pairs omap list_omap].
    destruct (SearchCsvMain.read_csv_pairs float_of_token rest) as [mz inten].
    cbn [fst snd] in IH.
    destruct r as [|r0 [|r1 r]]; [done..|].
    destruct (float_of_token r0), (float_of_token r1); cbn; by rewrite ?IH.
  - apply read_csv_pairs_lengths.
  - unfold SearchCsv.bin_spectrum.
    by rewrite read_csv_pairs_lengths, Nat.eqb_refl.
Qed.



(** ** The base URL *)

Lemma rstrip_slash_app_slash (s : string) :
  rstrip_slash (s +:+ "/") = rstrip_slash s.
Proof.
  induction s as [|c s IH]; [done|].
  change (rstrip_slash (String c (s +:+ "/")) = rstrip_slash (String c s)).
  cbn [rstrip_slash]. by rewrite IH.
Qed.

Lemma rstrip_slash_no_trailing_slash (s : string) :
  ∀ t, rstrip_slash s ≠ t +:+ "/".
Proof.
  induction s as [|c s IH]; intros t; cbn [rstrip_slash].
  { by destruct t. }
  destruct (rstrip_slash s) as [|c' r] eqn:Hr.
  - destruct (Ascii.eqb_spec c "/") as [->|Hc]; [by destruct t|].
    destruct t as [|c0 [|c1 t]]; intros Heq; cbv [String.append] in Heq; congruence.
  - destruct t as [|c0 t]; intros Heq.
    + cbv [String.append] in Heq. congruence.
    + change (String c (String c' r) = String c0 (t +:+ "/")) in Heq.
      injection Heq as -> Ht. by apply (IH t).
Qed.

Section trailing_slash_facts.
Context `{Number F}.
Variable server : nat → response F.
Variable bin_size : F.

Lemma msp_ingest_trailing_slash uuid4 api_url batch_size id_key specs :
  ∀ batch total (w : world string F),
    IngestMsp.ingest server uuid4 (api_url +:+ "/") bin_size batch_size id_key
      specs batch total w
    = IngestMsp.ingest server uuid4 api_url bin_size batch_size id_key
        specs batch total w.
Proof.
  induction specs as [|spec rest IH]; intros batch total w; [done|].
  rewrite !msp_ingest_cons, rstrip_slash_app_slash.
  destruct (bin_peaks (spec_peaks spec) bin_size) as [[[|i indices] values]|e];
    [apply IH| |done].
  cbn zeta. destruct (batch_size <=? _)%Z; [|apply IH].
  destruct (300 <=? _)%Z; [done|apply IH].
Qed.

Lemma sqlite_ingest_trailing_slash {I} json_floats api_url batch_size
    (rows : list (I * option string * option string)) :
  ∀ batch total (w : world I F),
    IngestSqliteMain.ingest json_floats server (api_url +:+ "/") bin_size batch_size
      rows batch total w
    = IngestSqliteMain.ingest json_floats server api_url bin_size batch_size
        rows batch total w.
Proof.
  induction rows as [|[[rid mz_json] inten_json] rest IH]; intros batch total w; [done|].
  rewrite !sqlite_ingest_cons, rstrip_slash_app_slash.
  destruct (IngestSqliteMain.parse_json_array json_floats mz_json) as [mz|e1];
    [|apply IH].
  destruct (IngestSqliteMain.parse_json_array json_floats inten_json) as [inten|e2];
    [|apply IH].
  destruct (IngestSqlite.bin_spectrum mz inten bin_size) as [[[|i indices] values]|e];
    [apply IH| |done].
  cbn zeta. destruct (batch_size <=? _)%Z; [|apply IH].
  destruct (300 <=? _)%Z; [done|apply IH].
Qed.

Lemma search_main_trailing_slash float_of_token api_url limit rows (w : world string F) :
  SearchCsvMain.main float_of_token server (api_url +:+ "/") bin_size limit rows w
  = SearchCsvMain.main float_of_token server api_url bin_size limit rows w.
Proof.
  pose proof (search_main_requests float_of_token server (api_url +:+ "/") bin_size
                limit rows w) as H1.
  pose proof (search_main_requests float_of_token server api_url bin_size
                limit rows w) as H2.
  destruct (SearchCsv.bin_spectrum _ _ bin_size) as [[[|i indices] values]|e] eqn:Hb.
  - by rewrite H1, H2.
  - rewrite !(search_main_eq _ _ _ _ _ _ _ _ _ _ Hb).
    by rewrite rstrip_slash_app_slash.
  - by rewrite H1, H2.
Qed.

End trailing_slash_facts.

(** X18.  A slash at the end of the base URL changes nothing: each of the
    three tools runs exactly as without it, and the base every request URL
    is built from never ends with a slash. *)
Theorem trailing_slash_is_ignored :
  ∀ (F : Type) (HF : Number F) (I : Type)
    (float_of_token : string → option F) (json_floats : string → option (list F))
    (server : nat → response F) (uuid4 : nat → string) (api_url : string)
    (bin_size : F) (batch_size limit : Z) (id_key : option string)
    (lines : list string) table (rows : list (list string))
    (w : world string F) (wt : world I F),
    IngestMsp.main float_of_token server uuid4 (api_url +:+ "/") bin_size batch_size
      id_key lines w
    = IngestMsp.main float_of_token server uuid4 api_url bin_size batch_size
        id_key lines w
    ∧ IngestSqliteMain.main json_floats server (api_url +:+ "/") bin_size batch_size
        limit table wt
      = IngestSqliteMain.main json_floats server api_url bin_size batch_size
          limit table wt
    ∧ SearchCsvMain.main float_of_token server (api_url +:+ "/") bin_size limit rows w
      = SearchCsvMain.main float_of_token server api_url bin_size limit rows w
    ∧ ∀ t, rstrip_slash api_url ≠ t +:+ "/".
Proof.
  intros. split; [|split; [|split]].
  - by rewrite !msp_main_eq, msp_ingest_trailing_slash, rstrip_slash_app_slash.
  - by rewrite !sqlite_main_eq, sqlite_ingest_trailing_slash, rstrip_slash_app_slash.
  - apply search_main_trailing_slash.
  - apply rstrip_slash_no_trailing_slash.
Qed.

(** ** A bin size of zero *)

Section zero_bin_size_facts.
Context `{Number F}.
Variable bin_size : F.
Hypothesis bin_size_zero : feqb bin_size fzero = true.

(** The first peak that is kept raises; the dictionary is returned as it
    was when there is none. *)
Lemma bin_loop_zero_bin_size skip peaks : ∀ acc,
  bin_loop skip peaks bin_size acc
  = if forallb (λ p, skip p.1 p.2) peaks then Ok acc else Raise ZeroDivisionError.
Proof.
  induction peaks as [|[mz inten] rest IH]; intros acc; [done|].
  cbn [bin_loop forallb fst snd]. destruct (skip mz inten); [apply IH|].
  unfold bin_index, py_truediv. by rewrite bin_size_zero.
Qed.

Lemma transform_zero_bin_size skip peaks :
  (acc ← bin_loop skip peaks bin_size ∅; bin_finish acc)
  = if forallb (λ p, skip p.1 p.2) peaks then Ok ([], []) else Raise ZeroDivisionError.
Proof. rewrite bin_loop_zero_bin_size. by destruct (forallb _ peaks). Qed.

Lemma msp_ingest_zero_bin_size server uuid4 api_url batch_size id_key specs :
  ∀ total (w : world string F),
    IngestMsp.ingest server uuid4 api_url bin_size batch_size id_key specs [] total w
    = (w, Ok ([], total))
    ∨ IngestMsp.ingest server uuid4 api_url bin_size batch_size id_key specs [] total w
      = (w, Raise ZeroDivisionError).
Proof.
  induction specs as [|spec rest IH]; intros total w; [by left|].
  rewrite msp_ingest_cons. unfold bin_peaks. rewrite transform_zero_bin_size.
  destruct (forallb _ (spec_peaks spec)); [apply IH|by right].
Qed.

Lemma sqlite_ingest_zero_bin_size {I} json_floats server api_url batch_size
    (rows : list (I * option string * option string)) :
  ∀ total (w : world I F),
    requests (IngestSqliteMain.ingest json_floats server api_url bin_size batch_size
                rows [] total w).1 = requests w
    ∧ match (IngestSqliteMain.ingest json_floats server api_url bin_size batch_size
               rows [] total w).2 with
      | Ok (batch, _) => batch = []
      | Raise _ => True
      end.
Proof.
  induction rows as [|[[rid mz_json] inten_json] rest IH]; intros total w; [done|].
  rewrite sqlite_ingest_cons.
  destruct (IngestSqliteMain.parse_json_array json_floats mz_json) as [mz|e1];
    [|apply (IH total (World _ _ _))].
  destruct (IngestSqliteMain.parse_json_array json_floats inten_json) as [inten|e2];
    [|apply (IH total (World _ _ _))].
  unfold IngestSqlite.bin_spectrum. destruct (negb _); [done|].
  rewrite transform_zero_bin_size.
  destruct (forallb _ (zip mz inten)); [apply (IH total (World _ _ _))|done].
Qed.

End zero_bin_size_facts.

(** X19.  With a bin size of zero no tool sends anything: the transform
    raises [ZeroDivisionError] at the first peak it keeps and returns the
    empty vector when it keeps none, so the MSP ingestion either raises
    that error or returns 0 having sent no request, and the tabular
    ingestion and the query leave the list of requests as it was. *)
Theorem zero_bin_size_sends_nothing :
  ∀ (F : Type) (HF : Number F) (I : Type)
    (float_of_token : string → option F) (json_floats : string → option (list F))
    (server : nat → response F) (uuid4 : nat → string) (api_url : string)
    (bin_size : F) (batch_size limit : Z) (id_key : option string)
    (lines : list string) table (rows : list (list string))
    (w : world string F) (wt : world I F),
    feqb bin_size fzero = true →
    (∀ peaks,
       bin_peaks peaks bin_size
       = if forallb (λ p, fleb p.2 fzero || fltb p.1 fzero) peaks
         then Ok ([], []) else Raise ZeroDivisionError)
    ∧ (IngestMsp.main float_of_token server uuid4 api_url bin_size batch_size
         id_key lines w
       = (World (requests w) (drawn w) (stdout w ++ [IngestedLine 0]), Ok 0%Z)
       ∨ IngestMsp.main float_of_token server uuid4 api_url bin_size batch_size
           id_key lines w
         = (w, Raise ZeroDivisionError))
    ∧ requests (IngestSqliteMain.main json_floats server api_url bin_size batch_size
                  limit table wt).1 = requests wt
    ∧ requests (SearchCsvMain.main float_of_token server api_url bin_size limit
                  rows w).1 = requests w.
Proof.
  intros F HF I float_of_token json_floats server uuid4 api_url bin_size batch_size
    limit id_key lines table rows w wt Hzero.
  split; [|split; [|split]].
  - intros peaks.
    exact (transform_zero_bin_size bin_size Hzero
             (λ mz inten, fleb inten fzero || fltb mz fzero) peaks).
  - rewrite msp_main_eq.
    destruct (msp_ingest_zero_bin_size bin_size Hzero server uuid4 api_url batch_size
                id_key (parse_msp float_of_token lines) 0 w) as [-> | ->];
      [by left|by right].
  - rewrite sqlite_main_eq.
    destruct (sqlite_ingest_zero_bin_size bin_size Hzero json_floats server api_url
                batch_size (IngestSqliteMain.iter_rows limit table) 0 wt)
      as [Hreq Hres].
    destruct (IngestSqliteMain.ingest _ _ _ _ _ _ _ _ wt) as [w1 [[batch total]|e]];
      cbn [fst snd] in *; [|done].
    by subst batch.
  - pose proof (search_main_requests float_of_token server api_url bin_size limit
                  rows w) as Hrun.
    unfold SearchCsv.bin_spectrum in Hrun.
    destruct (negb _).
    + by rewrite Hrun.
    + rewrite (transform_zero_bin_size bin_size Hzero
                 (λ m i, fleb i fzero || fltb m fzero)) in Hrun.
      destruct (forallb _ _); by rewrite Hrun.
Qed.

(** X19 on the sample library, a table of one row and a query of one
    peak, with a bin size of zero. *)
Lemma zero_bin_size_sends_nothing_witness :
  IngestMsp.main decimal_literal accepting_server sample_uuid4 "http://localhost:8000"
    0%float 256 None sample_library initial_world
  = (initial_world, Raise ZeroDivisionError)
  ∧ requests (IngestSqliteMain.main decimal_array accepting_server "http://localhost:8000"
                0%float 256 (-1) [(3%Z, Some "[1.0]", Some "[5.0]")]
                initial_world).1 = []
  ∧ requests (SearchCsvMain.main decimal_literal accepting_server "http://localhost:8000"
                0%float 10 [["0.5"; "10"]] initial_world).1 = [].
Proof.
  destruct (zero_bin_size_sends_nothing float binary64 Z decimal_literal decimal_array
              accepting_server sample_uuid4 "http://localhost:8000" 0%float 256 (-1)
              None sample_library [(3%Z, Some "[1.0]", Some "[5.0]")] [["0.5"; "10"]]
              initial_world initial_world eq_refl)
    as (_ & [Hmsp|Hmsp] & Hsql & Hcsv).
  - exfalso. revert Hmsp. vm_compute. discriminate.
  - split; [exact Hmsp|]. split; [exact Hsql|exact Hcsv].
Defined.
